(** * pdfp: the text-to-speech operation ([pdfp/operations/tts.py])

    A shallow embedding of [SharedState], [QueueHandler.emit] and
    [Converter.convert], and the properties of the progress observer and of
    the conversion orchestrator that the specification states.

    Conventions of the embedding:
    - a Python [str] is a [string] of 8-bit code points (Latin-1);
    - a Python [int] is a [Z]; a Python [float] is an IEEE-754 binary64
      value, a [spec_float] at precision 53 and maximal exponent 1024;
    - a Python exception (an instance of [Exception]) is its class name and
      the text [str(e)];
    - Qt signals, the calls of the external collaborators and the file
      operations are recorded, in order, in the [trace] of the [World]. *)

From Stdlib Require Import ZArith QArith Qabs Qpower Lqa List String Ascii Bool Lia SpecFloat DecimalString DecimalPos.
From stdpp Require Import gmap strings list fin_maps.

Local Open Scope string_scope.
Local Open Scope Z_scope.
Local Open Scope list_scope.

(** ** Python values *)

Record Exception := mkException { exc_class : string; str_exc : string }.

Inductive Exc (A : Type) : Type :=
| Ok (a : A)
| Raise (e : Exception).
Arguments Ok {A} a.
Arguments Raise {A} e.

Definition ZeroDivisionError := mkException "ZeroDivisionError" "division by zero".
Definition OverflowError_truediv :=
  mkException "OverflowError" "integer division result too large for a float".
Definition OverflowError_float :=
  mkException "OverflowError" "int too large to convert to float".

Module PyFloat.

Definition prec : Z := 53.
Definition emax : Z := 1024.

(** An integer as an (unnormalised) binary float with exponent 0. *)
Definition Z2SF (z : Z) : spec_float :=
  match z with
  | Z0 => S754_zero false
  | Zpos p => S754_finite false p 0
  | Zneg p => S754_finite true p 0
  end.

(** The double nearest to an integer, ties to even. *)
Definition float (z : Z) : spec_float := binary_normalize prec emax z 0 false.

(** [float(z)]: an integer beyond the doubles raises. *)
Definition float_of_int (z : Z) : Exc spec_float :=
  match float z with
  | S754_infinity _ => Raise OverflowError_float
  | f => Ok f
  end.

(** [a / b] on two ints: the correctly rounded quotient. *)
Definition int_truediv (a b : Z) : Exc spec_float :=
  if b =? 0 then Raise ZeroDivisionError
  else match SFdiv prec emax (Z2SF a) (Z2SF b) with
       | S754_infinity _ => Raise OverflowError_truediv
       | f => Ok f
       end.

(** [x * n] for a float [x] and an int [n]: [n] is converted first. *)
Definition float_mul_int (x : spec_float) (n : Z) : Exc spec_float :=
  match float_of_int n with
  | Raise e => Raise e
  | Ok y => Ok (SFmul prec emax x y)
  end.

(** The exact rational value of a finite float. *)
Definition SF2Q (f : spec_float) : Q :=
  match f with
  | S754_finite s m e => inject_Z (cond_Zopp s (Zpos m)) * 2 ^ e
  | _ => 0
  end.

Definition is_finite (f : spec_float) : bool :=
  match f with
  | S754_zero _ | S754_finite _ _ _ => true
  | _ => false
  end.

(** What a shifted record stands for in the rounding of [N / D]: the
    quotient, with the round bit and the sticky bit placing the remainder
    against [D / 2]. *)
Definition Rep (mrs : shr_record) (N D : Z) : Prop :=
  0 < D /\ 0 <= N /\
  shr_m mrs = N / D /\
  shr_r mrs = (D <=? 2 * (N mod D)) /\
  shr_s mrs = negb (N mod D =? 0) && negb (2 * (N mod D) =? D).

(** The float that a rounding to the mantissa [m2] and the exponent [e2]
    ends in. *)
Definition round_result (s : bool) (m2 e2 : Z) : spec_float :=
  match m2 with
  | Z0 => S754_zero s
  | Zpos m => if e2 <=? emax - prec then S754_finite s m e2 else S754_infinity s
  | Zneg _ => S754_nan
  end.

(** [100.0]. *)
Definition f100 : spec_float := S754_finite false 7036874417766400 (-46).

End PyFloat.

(** A number held by an attribute that is first an [int] and later a [float]. *)
Inductive PyNum :=
| PInt (z : Z)
| PFloat (f : spec_float).

(** ** Strings *)

Definition is_digit (c : ascii) : bool :=
  let n := N_of_ascii c in ((48 <=? n) && (n <=? 57))%N.

(** [str.lower] on one Latin-1 code point. *)
Definition lower_char (c : ascii) : ascii :=
  let n := N_of_ascii c in
  if (((65 <=? n) && (n <=? 90)) || ((192 <=? n) && (n <=? 222) && negb (n =? 215)))%N
  then ascii_of_N (n + 32) else c.

Fixpoint lower (s : string) : string :=
  match s with
  | EmptyString => EmptyString
  | String c s' => String (lower_char c) (lower s')
  end.

Fixpoint startswith (s p : string) : bool :=
  match p, s with
  | EmptyString, _ => true
  | String a p', String b s' => if Ascii.eqb a b then startswith s' p' else false
  | String _ _, EmptyString => false
  end.

Fixpoint drop_str (n : nat) (s : string) : string :=
  match n, s with
  | O, _ => s
  | S n', String _ s' => drop_str n' s'
  | S _, EmptyString => EmptyString
  end.

Definition endswith (s ext : string) : bool :=
  (String.length ext <=? String.length s)%nat
  && String.eqb (drop_str (String.length s - String.length ext) s) ext.

(** [str(n)] for an int. *)
Definition str_int (z : Z) : string := NilZero.string_of_int (Z.to_int z).

(** [int(s)] for a string of ASCII digits, of at most 4300 of them: above
    that number of digits [int] raises [ValueError] by default, which
    [int_digits] does not, and the statements that depend on the
    conversion bound the length of the message. *)
Definition int_digits (s : string) : Z :=
  (fix go (acc : Z) (s : string) : Z :=
     match s with
     | EmptyString => acc
     | String c s' => go (10 * acc + (Z.of_N (N_of_ascii c) - 48)) s'
     end) 0 s.

(** ** Regular expressions

    The fragment of [re] that the two patterns of [QueueHandler.emit] use:
    literal characters and one capturing group [(\d+)], greedy, with
    backtracking. [re_search] returns [group(1)] of the leftmost match. *)

Inductive atom :=
| Lit (c : ascii)
| Digits1.

Fixpoint lits (s : string) : list atom :=
  match s with
  | EmptyString => []
  | String c s' => Lit c :: lits s'
  end.

Fixpoint span_digits (s : string) : nat :=
  match s with
  | String c s' => if is_digit c then S (span_digits s') else O
  | EmptyString => O
  end.

Fixpoint take_str (n : nat) (s : string) : string :=
  match n, s with
  | S n', String c s' => String c (take_str n' s')
  | _, _ => EmptyString
  end.

Fixpoint re_match (p : list atom) (s : string) (g : string) : option string :=
  match p with
  | [] => Some g
  | Lit c :: p' =>
      match s with
      | String c' s' => if Ascii.eqb c c' then re_match p' s' g else None
      | EmptyString => None
      end
  | Digits1 :: p' =>
      (fix try (k : nat) : option string :=
         match k with
         | O => None
         | S k' =>
             match re_match p' (drop_str k s) (take_str k s) with
             | Some r => Some r
             | None => try k'
             end
         end) (span_digits s)
  end.

Fixpoint re_search (p : list atom) (s : string) : option string :=
  match re_match p s "" with
  | Some g => Some g
  | None =>
      match s with
      | EmptyString => None
      | String _ s' => re_search p s'
      end
  end.

(** [r"text_parts: (\d+)"] and [r"part-(\d+) created"]. *)
Definition re_text_parts : list atom := lits "text_parts: " ++ [Digits1].
Definition re_part_created : list atom := lits "part-" ++ [Digits1] ++ lits " created".

(** [sub in s]. *)
Fixpoint contains (s sub : string) : bool :=
  startswith s sub ||
  match s with
  | EmptyString => false
  | String _ s' => contains s' sub
  end.

(** ** The progress observer: [SharedState] and [QueueHandler] *)

Record SharedState := mkSharedState {
  progress : Z;
  total_parts : Z;
  progress_percentage : PyNum
}.

(** [SharedState.__init__]. *)
Definition SharedState_init : SharedState :=
  {| progress := 0; total_parts := 0; progress_percentage := PInt 0 |}.

Definition set_progress (v : Z) (s : SharedState) : SharedState :=
  {| progress := v; total_parts := total_parts s;
     progress_percentage := progress_percentage s |}.
Definition set_total_parts (v : Z) (s : SharedState) : SharedState :=
  {| progress := progress s; total_parts := v;
     progress_percentage := progress_percentage s |}.
Definition set_progress_percentage (v : PyNum) (s : SharedState) : SharedState :=
  {| progress := progress s; total_parts := total_parts s;
     progress_percentage := v |}.

(** A log record, as far as the handler looks at it: what
    [self.format(record)] gives, the formatted message or an exception. *)
Record LogRecord := mkLogRecord { format : Exc string }.

Definition log_debug (msg : string) : LogRecord := {| format := Ok msg |}.

(** What a run does that can be observed: the signals of [Converter], the
    flushes of the event queue, the handler's error path, and the calls of
    the collaborators and of the file system. *)
Inductive Event :=
| op_msgs_emit (s : string)
| view_pb_emit (b : bool)
| update_pb_emit (v : PyNum)
| revise_pb_label_emit (s : string)
| processEvents
| handleError (record : LogRecord)
| call_clean_text (pdf : string)
| call_mkdir (path : string)
| call_tts_word_count (text temp_file : string) (flag : bool)
| call_open_read (path : string)
| call_gTTS (text lang tld : string)
| call_construct_filename (pdf tag : string)
| call_save (text output_file : string)
| call_remove (path : string).

Module QueueHandler.

(** The body of the [try] of [emit]: the result, the shared state as the
    body left it (assignments made before an exception stay), and the
    signals emitted. *)
Definition emit_try (shared_state : SharedState) (record : LogRecord)
  : Exc unit * SharedState * list Event :=
  match format record with
  | Raise e => (Raise e, shared_state, [])
  | Ok msg =>
      let '(shared_state, ev) :=
        match re_search re_text_parts msg with
        | Some digit_str =>
            (set_total_parts (int_digits digit_str) shared_state, [processEvents])
        | None => (shared_state, [])
        end in
      match re_search re_part_created msg with
      | Some _ =>
          let shared_state := set_progress (progress shared_state + 1) shared_state in
          match PyFloat.int_truediv (progress shared_state) (total_parts shared_state) with
          | Raise e => (Raise e, shared_state, ev)
          | Ok q =>
              match PyFloat.float_mul_int q 100 with
              | Raise e => (Raise e, shared_state, ev)
              | Ok pct =>
                  let shared_state := set_progress_percentage (PFloat pct) shared_state in
                  (Ok tt, shared_state,
                   ev ++ [update_pb_emit (progress_percentage shared_state); processEvents])
              end
          end
      | None => (Ok tt, shared_state, ev)
      end
  end.

(** [emit]: whatever the body raises goes to [self.handleError(record)]. *)
Definition emit (shared_state : SharedState) (record : LogRecord)
  : SharedState * list Event :=
  match emit_try shared_state record with
  | (Ok _, shared_state', ev) => (shared_state', ev)
  | (Raise _, shared_state', ev) => (shared_state', ev ++ [handleError record])
  end.

(** A stream of records through one handler. *)
Fixpoint emit_all (shared_state : SharedState) (records : list LogRecord)
  : SharedState * list Event :=
  match records with
  | [] => (shared_state, [])
  | r :: rs =>
      let '(s1, ev1) := emit shared_state r in
      let '(s2, ev2) := emit_all s1 rs in
      (s2, ev1 ++ ev2)
  end.

End QueueHandler.

(** ** The world of a conversion run *)

(** What a file holds: text, or the speech synthesised from a text. *)
Inductive File :=
| TextFile (content : string)
| AudioFile (spoken : string).

(** The object that [gTTS(text, lang=..., tld=...)] returns. *)
Record gTTS_object := mkgTTS { tts_text : string; tts_lang : string; tts_tld : string }.

(** [os.path.join] (POSIX) on two components. *)
Definition path_join (a b : string) : string :=
  if startswith b "/" then b
  else if String.eqb a "" || endswith a "/" then a +:+ b
  else a +:+ "/" +:+ b.

Definition FileNotFoundError (path : string) :=
  mkException "FileNotFoundError" ("[Errno 2] No such file or directory: '" +:+ path +:+ "'").
Definition IsADirectoryError (path : string) :=
  mkException "IsADirectoryError" ("[Errno 21] Is a directory: '" +:+ path +:+ "'").
Definition FileExistsError (path : string) :=
  mkException "FileExistsError" ("[Errno 17] File exists: '" +:+ path +:+ "'").
(** The text of [str(e)] up to the byte, its position and the reason, which
    depend on what the file holds. *)
Definition UnicodeDecodeError :=
  mkException "UnicodeDecodeError" "'utf-8' codec can't decode byte".

Section Converter.

(** The state of the collaborators (documents to extract, the network of
    the synthesis service, ...): each call may depend on it and change it. *)
Variable Ext : Type.

(** [clean_text(pdf)]: the cleaned text of a document, or an exception. *)
Variable clean_text : string -> Ext -> Exc string * Ext.

(** Modelled from the spec: [tts_word_count(text, temp_file, True)], the
    chunker of [pdfp/utils/tts_limit.py], is not in the sources at hand;
    it yields an ordered sequence of file paths, each holding one chunk,
    given here as the (path, chunk) pairs that it writes. *)
Variable tts_word_count : string -> string -> bool -> Ext -> Exc (list (string * string)) * Ext.

(** Modelled from the spec: [construct_filename(pdf, tag)] of
    [pdfp/utils/filename_constructor.py] is not in the sources at hand;
    given a source path and a tag it returns a destination path, derived
    deterministically from the two. *)
Variable construct_filename : string -> string -> string.

(** [gTTS(text, lang, tld)] and [tts.save(output_file)] of the synthesis
    client: the records that they log on the logger ['gtts.tts'], in
    order, and whether they return or raise. *)
Variable gTTS : string -> string -> string -> Ext -> list LogRecord * Exc unit * Ext.
Variable save : gTTS_object -> string -> Ext -> list LogRecord * Exc unit * Ext.

Record World := mkWorld {
  split_txt_checkbox : bool;        (* settings.split_txt_checkbox.isChecked() *)
  currentPath : string;             (* QDir.currentPath() *)
  files : gmap string File;
  dirs : gset string;
  handlers : list SharedState;      (* the handlers of getLogger('gtts.tts'), oldest first *)
  ext : Ext;
  trace : list Event
}.

Definition set_files (f : gmap string File -> gmap string File) (w : World) : World :=
  mkWorld (split_txt_checkbox w) (currentPath w) (f (files w)) (dirs w)
          (handlers w) (ext w) (trace w).
Definition set_dirs (f : gset string -> gset string) (w : World) : World :=
  mkWorld (split_txt_checkbox w) (currentPath w) (files w) (f (dirs w))
          (handlers w) (ext w) (trace w).
Definition set_handlers (f : list SharedState -> list SharedState) (w : World) : World :=
  mkWorld (split_txt_checkbox w) (currentPath w) (files w) (dirs w)
          (f (handlers w)) (ext w) (trace w).
Definition set_ext (e : Ext) (w : World) : World :=
  mkWorld (split_txt_checkbox w) (currentPath w) (files w) (dirs w)
          (handlers w) e (trace w).
Definition record_events (ev : list Event) (w : World) : World :=
  mkWorld (split_txt_checkbox w) (currentPath w) (files w) (dirs w)
          (handlers w) (ext w) (trace w ++ ev).

(** *** Statements that may raise, over the world *)

Definition M (A : Type) : Type := World -> Exc A * World.

Definition ret {A} (a : A) : M A := fun w => (Ok a, w).
Definition raise {A} (e : Exception) : M A := fun w => (Raise e, w).
Definition bind {A B} (m : M A) (k : A -> M B) : M B :=
  fun w => match m w with
           | (Ok a, w') => k a w'
           | (Raise e, w') => (Raise e, w')
           end.
Definition try_except {A} (m : M A) (h : Exception -> M A) : M A :=
  fun w => match m w with
           | (Ok a, w') => (Ok a, w')
           | (Raise e, w') => h e w'
           end.
Definition gets {A} (f : World -> A) : M A := fun w => (Ok (f w), w).
Definition modify (f : World -> World) : M unit := fun w => (Ok tt, f w).
Definition signal (e : Event) : M unit := modify (record_events [e]).

Notation "x <- m ;; k" := (bind m (fun x => k))
  (at level 100, m at next level, right associativity).
Notation "m ;; k" := (bind m (fun _ => k))
  (at level 100, right associativity).

(** *** The logger ['gtts.tts'] *)

(** [logger.addHandler(QueueHandler(SharedState(), ...))]: the new handler
    comes last; the result stands for the reference [shared_state]. *)
Definition addHandler : M nat :=
  fun w => (Ok (length (handlers w)),
            set_handlers (fun hs => hs ++ [SharedState_init]) w).

(** One record through every handler of the logger, in order. *)
Fixpoint callHandlers (hs : list SharedState) (record : LogRecord)
  : list SharedState * list Event :=
  match hs with
  | [] => ([], [])
  | h :: hs' =>
      let '(h', ev) := QueueHandler.emit h record in
      let '(hs'', ev') := callHandlers hs' record in
      (h' :: hs'', ev ++ ev')
  end.

Definition log (record : LogRecord) : M unit :=
  fun w => let '(hs, ev) := callHandlers (handlers w) record in
           (Ok tt, record_events ev (set_handlers (fun _ => hs) w)).

Fixpoint log_all (records : list LogRecord) : M unit :=
  match records with
  | [] => ret tt
  | r :: rs => log r ;; log_all rs
  end.

(** *** The collaborators and the file system *)

Definition lift_exc {A} (r : Exc A) : M A := fun w => (r, w).

Definition do_clean_text (pdf : string) : M string :=
  signal (call_clean_text pdf) ;;
  fun w => let '(r, e) := clean_text pdf (ext w) in (r, set_ext e w).

Definition write_chunks (chunks : list (string * string)) (fs : gmap string File)
  : gmap string File :=
  fold_left (fun fs pc => <[fst pc := TextFile (snd pc)]> fs) chunks fs.

Definition do_tts_word_count (text temp_file : string) (flag : bool) : M (list string) :=
  signal (call_tts_word_count text temp_file flag) ;;
  fun w => match tts_word_count text temp_file flag (ext w) with
           | (Ok chunks, e) => (Ok (map fst chunks), set_files (write_chunks chunks) (set_ext e w))
           | (Raise x, e) => (Raise x, set_ext e w)
           end.

Definition do_gTTS (text lang tld : string) : M gTTS_object :=
  signal (call_gTTS text lang tld) ;;
  r <- (fun w => let '(logs, r, e) := gTTS text lang tld (ext w) in (Ok (logs, r), set_ext e w)) ;;
  log_all (fst r) ;;
  lift_exc (snd r) ;;
  ret (mkgTTS text lang tld).

Definition do_save (tts : gTTS_object) (output_file : string) : M unit :=
  signal (call_save (tts_text tts) output_file) ;;
  r <- (fun w => let '(logs, r, e) := save tts output_file (ext w) in (Ok (logs, r), set_ext e w)) ;;
  log_all (fst r) ;;
  lift_exc (snd r) ;;
  modify (set_files (fun fs => <[output_file := AudioFile (tts_text tts)]> fs)).

Definition do_construct_filename (pdf tag : string) : M string :=
  signal (call_construct_filename pdf tag) ;;
  ret (construct_filename pdf tag).

(** [with open(path, 'r', encoding='utf-8') as f: text = f.read()]. *)
Definition open_read (path : string) : M string :=
  signal (call_open_read path) ;;
  fs <- gets files ;;
  ds <- gets dirs ;;
  match fs !! path with
  | Some (TextFile content) => ret content
  | Some (AudioFile _) => raise UnicodeDecodeError
  | None => if decide (path ∈ ds) then raise (IsADirectoryError path)
            else raise (FileNotFoundError path)
  end.

Definition os_remove (path : string) : M unit :=
  signal (call_remove path) ;;
  fs <- gets files ;;
  ds <- gets dirs ;;
  match fs !! path with
  | Some _ => modify (set_files (delete path))
  | None => if decide (path ∈ ds) then raise (IsADirectoryError path)
            else raise (FileNotFoundError path)
  end.

Definition os_mkdir (path : string) : M unit :=
  signal (call_mkdir path) ;;
  fs <- gets files ;;
  ds <- gets dirs ;;
  if decide (path ∈ ds) then raise (FileExistsError path)
  else match fs !! path with
       | Some _ => raise (FileExistsError path)
       | None => modify (set_dirs (fun ds => {[path]} ∪ ds))
       end.

(** *** [Converter] *)

(** [get_temp_dir]. *)
Definition get_temp_dir : M string :=
  project_root <- gets currentPath ;;
  let temp_directory := path_join project_root "temp" in
  ds <- gets dirs ;;
  (if decide (temp_directory ∈ ds) then ret tt else os_mkdir temp_directory) ;;
  ret temp_directory.

(** The three assignments that reset the shared state of this run. *)
Definition reset_shared_state (shared_state : nat) : M unit :=
  modify (set_handlers (alter (set_progress 0) shared_state)) ;;
  modify (set_handlers (alter (set_total_parts 0) shared_state)) ;;
  modify (set_handlers (alter (set_progress_percentage (PInt 0)) shared_state)).

(** The body of the [for] over [output_paths], [count] already incremented. *)
Definition for_body (pdf : string) (shared_state : nat) (output_count : nat)
           (count : Z) (output_path : string) : M unit :=
  signal (revise_pb_label_emit
            ("TTS Progress (" +:+ str_int count +:+ "/"
               +:+ str_int (Z.of_nat output_count) +:+ "):")) ;;
  text <- open_read output_path ;;
  tts <- do_gTTS text "en" "us" ;;
  output_file <- do_construct_filename pdf "tts_ps" ;;
  do_save tts output_file ;;
  signal (op_msgs_emit
            ("Conversion " +:+ str_int count +:+ "/"
               +:+ str_int (Z.of_nat output_count)
               +:+ " complete. Output: " +:+ output_file)) ;;
  signal (update_pb_emit (PInt 0)) ;;
  reset_shared_state shared_state ;;
  os_remove output_path.

Fixpoint for_output_paths (pdf : string) (shared_state : nat) (output_count : nat)
         (count : Z) (output_paths : list string) : M unit :=
  match output_paths with
  | [] => ret tt
  | output_path :: rest =>
      let count := count + 1 in
      for_body pdf shared_state output_count count output_path ;;
      for_output_paths pdf shared_state output_count count rest
  end.

Definition valid_filetype (pdf : string) : bool :=
  existsb (fun ext => endswith (lower pdf) ext) [".pdf"; ".txt"].

(** Lines 81 to 91: up to the [try]. *)
Definition convert_prologue (pdf : string) : M nat :=
  signal (op_msgs_emit ("Converting " +:+ pdf)) ;;
  shared_state <- addHandler ;;
  signal (revise_pb_label_emit "TTS Progress:") ;;
  signal (view_pb_emit true) ;;
  ret shared_state.

(** The body of the [try]. *)
Definition convert_try (pdf : string) (shared_state : nat) : M unit :=
  text <- do_clean_text pdf ;;
  split <- gets split_txt_checkbox ;;
  if split then
    temp_dir <- get_temp_dir ;;
    let temp_file := path_join temp_dir "tts-tempfile.txt" in
    output_paths <- do_tts_word_count text temp_file true ;;
    let output_count := length output_paths in
    for_output_paths pdf shared_state output_count 0 output_paths
  else
    tts <- do_gTTS text "en" "us" ;;
    output_file <- do_construct_filename pdf "tts_ps" ;;
    do_save tts output_file ;;
    signal (op_msgs_emit ("Conversion complete. Output: " +:+ output_file)).

(** The temporary directory and the file name handed to the chunker. *)
Definition temp_dir (w : World) : string := path_join (currentPath w) "temp".
Definition temp_file (w : World) : string := path_join (temp_dir w) "tts-tempfile.txt".

Definition error_msg (pdf : string) (e : Exception) : string :=
  "Error converting " +:+ pdf +:+ ": " +:+ str_exc e.

Definition convert (pdf : string) : M unit :=
  if negb (valid_filetype pdf) then
    signal (op_msgs_emit "Cannot TTS. Filetype is not TXT or PDF.")
  else
    shared_state <- convert_prologue pdf ;;
    try_except (convert_try pdf shared_state)
               (fun e => signal (op_msgs_emit (error_msg pdf e))) ;;
    signal (view_pb_emit false).

(** The world at the [try]. *)
Definition after_prologue (pdf : string) (w : World) : World :=
  snd (convert_prologue pdf w).

(** The exception that the body of the [try] raised in the run of
    [convert pdf] from [w], if it raised one. *)
Definition raised (pdf : string) (w : World) : option Exception :=
  if negb (valid_filetype pdf) then None
  else match convert_prologue pdf w with
       | (Ok shared_state, w1) =>
           match convert_try pdf shared_state w1 with
           | (Raise e, _) => Some e
           | (Ok _, _) => None
           end
       | (Raise _, _) => None
       end.

End Converter.

Arguments mkWorld {Ext}.
Arguments split_txt_checkbox {Ext}.
Arguments currentPath {Ext}.
Arguments files {Ext}.
Arguments dirs {Ext}.
Arguments handlers {Ext}.
Arguments ext {Ext}.
Arguments trace {Ext}.

Arguments M Ext A : clear implicits.
Arguments ret {Ext A}.
Arguments raise {Ext A}.
Arguments bind {Ext A B}.
Arguments try_except {Ext A}.
Arguments gets {Ext A}.
Arguments modify {Ext}.
Arguments signal {Ext}.
Arguments lift_exc {Ext A}.
Arguments set_files {Ext}.
Arguments set_dirs {Ext}.
Arguments set_handlers {Ext}.
Arguments set_ext {Ext}.
Arguments record_events {Ext}.
Arguments addHandler {Ext}.
Arguments log {Ext}.
Arguments log_all {Ext}.
Arguments do_clean_text {Ext}.
Arguments do_tts_word_count {Ext}.
Arguments do_gTTS {Ext}.
Arguments do_save {Ext}.
Arguments do_construct_filename {Ext}.
Arguments open_read {Ext}.
Arguments os_remove {Ext}.
Arguments os_mkdir {Ext}.
Arguments get_temp_dir {Ext}.
Arguments reset_shared_state {Ext}.
Arguments for_body {Ext}.
Arguments for_output_paths {Ext}.
Arguments convert_prologue {Ext}.
Arguments convert_try {Ext}.
Arguments convert {Ext}.
Arguments temp_dir {Ext}.
Arguments temp_file {Ext}.
Arguments raised {Ext}.
Arguments after_prologue {Ext}.

(** ** Reading a trace *)

(** The events that only a handler of the logger produces. *)
Definition handler_event (e : Event) : bool :=
  match e with
  | update_pb_emit (PFloat _) | processEvents | handleError _ => true
  | _ => false
  end.

(** The trace without the events of the handlers. *)
Definition run_events (tr : list Event) : list Event :=
  filter (fun e => handler_event e = false) tr.

Definition opens (tr : list Event) : list string :=
  omap (fun e => match e with call_open_read p => Some p | _ => None end) tr.
Definition removes (tr : list Event) : list string :=
  omap (fun e => match e with call_remove p => Some p | _ => None end) tr.
Definition saves (tr : list Event) : list (string * string) :=
  omap (fun e => match e with call_save t o => Some (t, o) | _ => None end) tr.
Definition filename_calls (tr : list Event) : list (string * string) :=
  omap (fun e => match e with call_construct_filename s t => Some (s, t) | _ => None end) tr.
Definition messages (tr : list Event) : list string :=
  omap (fun e => match e with op_msgs_emit s => Some s | _ => None end) tr.
Definition visibility (tr : list Event) : list bool :=
  omap (fun e => match e with view_pb_emit b => Some b | _ => None end) tr.

(** The messages of [op_msgs] that report an error of the conversion. *)
Definition is_error_message (s : string) : bool := startswith s "Error converting ".
Definition error_messages (tr : list Event) : list string :=
  filter (fun s => is_error_message s = true) (messages tr).

(** The calls of the synthesis client. *)
Definition synthesis_call (e : Event) : bool :=
  match e with
  | call_gTTS _ _ _ | call_save _ _ => true
  | _ => false
  end.

(** The calls of collaborators and of the file system, in order. *)
Definition is_call (e : Event) : bool :=
  match e with
  | call_clean_text _ | call_mkdir _ | call_tts_word_count _ _ _ | call_open_read _
  | call_gTTS _ _ _ | call_construct_filename _ _ | call_save _ _ | call_remove _ => true
  | _ => false
  end.
Definition calls (tr : list Event) : list Event := filter (fun e => is_call e = true) tr.

(** What a run has added to the trace. *)
Definition new_events {Ext} (w w' : World Ext) : list Event :=
  drop (length (trace w)) (trace w').

(** The events of one pass of the loop that ran to its end: chunk [count]
    of [output_count] at [output_path], holding [text], written to
    [output_file]; [logs1] and [logs2] are what the handlers did during
    [gTTS(...)] and during [tts.save(...)]. *)
Definition chunk_events (pdf : string) (output_count : nat) (count : Z)
           (output_path text output_file : string) (logs1 logs2 : list Event) : list Event :=
  [revise_pb_label_emit ("TTS Progress (" +:+ str_int count +:+ "/"
                           +:+ str_int (Z.of_nat output_count) +:+ "):");
   call_open_read output_path;
   call_gTTS text "en" "us"] ++ logs1 ++
  [call_construct_filename pdf "tts_ps";
   call_save text output_file] ++ logs2 ++
  [op_msgs_emit ("Conversion " +:+ str_int count +:+ "/"
                   +:+ str_int (Z.of_nat output_count)
                   +:+ " complete. Output: " +:+ output_file);
   update_pb_emit (PInt 0);
   call_remove output_path].

(** The same without the handlers' events. *)
Definition chunk_run_events (pdf : string) (output_count : nat) (count : Z)
           (output_path text output_file : string) : list Event :=
  chunk_events pdf output_count count output_path text output_file [] [].

(** The passes over the chunks [(path, text)], numbered from [count + 1]. *)
Fixpoint chunks_run_events (pdf : string) (output_count : nat) (count : Z)
         (output_file : string) (chunks : list (string * string)) : list Event :=
  match chunks with
  | [] => []
  | (p, t) :: rest =>
      chunk_run_events pdf output_count (count + 1) p t output_file
        ++ chunks_run_events pdf output_count (count + 1) output_file rest
  end.

(** Where a pass of the loop stopped, when it raised: at the read, in
    [gTTS(...)], or in [tts.save(...)]. *)
Inductive failure :=
| read_failed
| gTTS_failed (text : string) (logs1 : list Event)
| save_failed (text : string) (logs1 logs2 : list Event).

Definition failed_events (pdf : string) (output_count : nat) (count : Z)
           (output_path output_file : string) (f : failure) : list Event :=
  [revise_pb_label_emit ("TTS Progress (" +:+ str_int count +:+ "/"
                           +:+ str_int (Z.of_nat output_count) +:+ "):");
   call_open_read output_path] ++
  match f with
  | read_failed => []
  | gTTS_failed text logs1 => [call_gTTS text "en" "us"] ++ logs1
  | save_failed text logs1 logs2 =>
      [call_gTTS text "en" "us"] ++ logs1 ++
      [call_construct_filename pdf "tts_ps"; call_save text output_file] ++ logs2
  end.

Definition failure_logs (f : failure) : list Event :=
  match f with
  | read_failed => []
  | gTTS_failed _ logs1 => logs1
  | save_failed _ logs1 logs2 => logs1 ++ logs2
  end.

Definition failure_no_logs (f : failure) : failure :=
  match f with
  | read_failed => read_failed
  | gTTS_failed t _ => gTTS_failed t []
  | save_failed t _ _ => save_failed t [] []
  end.

(** A chunk that went through: its path, its text, and the handlers'
    events during the two calls of the synthesis client. *)
Record pass := mkPass {
  pass_path : string;
  pass_text : string;
  pass_logs1 : list Event;
  pass_logs2 : list Event
}.

Fixpoint passes_events (pdf : string) (output_count : nat) (count : Z)
         (output_file : string) (ps : list pass) : list Event :=
  match ps with
  | [] => []
  | p :: rest =>
      chunk_events pdf output_count (count + 1) (pass_path p) (pass_text p) output_file
                   (pass_logs1 p) (pass_logs2 p)
        ++ passes_events pdf output_count (count + 1) output_file rest
  end.

(** The files after the passes [ps]: each wrote the output and removed its chunk. *)
Definition files_after (output_file : string) (ps : list pass) (fs : gmap string File)
  : gmap string File :=
  fold_left (fun fs p => delete (pass_path p) (<[output_file := AudioFile (pass_text p)]> fs))
            ps fs.

(** Each pass found its text in its chunk file, in the files as the passes
    before it had left them. *)
Fixpoint passes_read (output_file : string) (ps : list pass) (fs : gmap string File) : Prop :=
  match ps with
  | [] => True
  | p :: rest =>
      fs !! pass_path p = Some (TextFile (pass_text p)) /\
      passes_read output_file rest
                  (delete (pass_path p) (<[output_file := AudioFile (pass_text p)]> fs))
  end.

Definition pass_logs_ok (p : pass) : Prop :=
  Forall (fun e => handler_event e = true) (pass_logs1 p) /\
  Forall (fun e => handler_event e = true) (pass_logs2 p).

(** A step of a run that keeps the settings and the number of handlers,
    and adds [ev] to the trace. *)
Definition stepped {Ext} (w w' : World Ext) (ev : list Event) : Prop :=
  split_txt_checkbox w' = split_txt_checkbox w /\
  currentPath w' = currentPath w /\
  length (handlers w') = length (handlers w) /\
  trace w' = trace w ++ ev.

(** A step that moreover keeps the files and the collaborators, and adds
    only events of the handlers. *)
Definition logged {Ext} (w w' : World Ext) (ev : list Event) : Prop :=
  stepped w w' ev /\
  files w' = files w /\
  ext w' = ext w /\
  Forall (fun e => handler_event e = true) ev.

(** [".pdf"] or [".txt"] at the end of a name, whatever the case of the
    letters, said without [lower]. *)
Definition ends_in_pdf_or_txt (name : string) : Prop :=
  exists pre c1 c2 c3,
    name = pre +:+ String "." (String c1 (String c2 (String c3 EmptyString))) /\
    ((c1 = "p"%char \/ c1 = "P"%char) /\ (c2 = "d"%char \/ c2 = "D"%char) /\
     (c3 = "f"%char \/ c3 = "F"%char)
     \/
     (c1 = "t"%char \/ c1 = "T"%char) /\ (c2 = "x"%char \/ c2 = "X"%char) /\
     (c3 = "t"%char \/ c3 = "T"%char)).

(** The events of a run before and after the body of the [try]. *)
Definition prologue_events (pdf : string) : list Event :=
  [op_msgs_emit ("Converting " +:+ pdf); revise_pb_label_emit "TTS Progress:";
   view_pb_emit true].

Definition epilogue_events (pdf : string) (r : Exc unit) : list Event :=
  match r with
  | Ok _ => [view_pb_emit false]
  | Raise e => [op_msgs_emit (error_msg pdf e); view_pb_emit false]
  end.

(** The message of a rejected run. *)
Definition rejection : string := "Cannot TTS. Filetype is not TXT or PDF.".

(** A path that holds no text file. *)
Definition no_text (fs : gmap string File) (q : string) : Prop :=
  forall t, fs !! q <> Some (TextFile t).

(** The total that a message leaves in the shared state, and the flush of
    the event queue that goes with an announcement. *)
Definition announced_total (s : SharedState) (msg : string) : Z :=
  match re_search re_text_parts msg with
  | Some digit_str => int_digits digit_str
  | None => total_parts s
  end.

Definition announce_events (msg : string) : list Event :=
  match re_search re_text_parts msg with
  | Some _ => [processEvents]
  | None => []
  end.

(** The progress updates of a trace. *)
Definition updates (tr : list Event) : list PyNum :=
  omap (fun e => match e with update_pb_emit v => Some v | _ => None end) tr.

(** The messages that the two patterns are written for: the literal text
    of the pattern around the decimal form of a number. *)
Definition announcement (n : Z) : string := "text_parts: " +:+ str_int n.
Definition completion (i : Z) : string := "part-" +:+ str_int i +:+ " created".

(** Whether the handler takes a record for the completion of a part. *)
Definition is_completion (record : LogRecord) : bool :=
  match format record with
  | Ok msg => match re_search re_part_created msg with Some _ => true | None => false end
  | Raise _ => false
  end.

(** The calls of the chunker and of [os.mkdir] in a trace. *)
Definition chunker_calls (tr : list Event) : list (string * string * bool) :=
  omap (fun e => match e with call_tts_word_count t f b => Some (t, f, b) | _ => None end) tr.
Definition mkdirs (tr : list Event) : list string :=
  omap (fun e => match e with call_mkdir p => Some p | _ => None end) tr.

(** The calls that prepare the loop over the chunks. *)
Definition setup_calls (tr : list Event) : list Event :=
  omap (fun e => match e with
                 | call_mkdir _ | call_tts_word_count _ _ _ => Some e
                 | _ => None
                 end) tr.

(** ** A concrete world, to run the model on *)

Module Demo.

(** The state of the collaborators: how many more [save] calls the
    synthesis service will answer. *)
Definition clean_text (pdf : string) (quota : nat) : Exc string * nat :=
  if String.eqb pdf "broken.pdf"
  then (Raise (mkException "FileDataError" "Failed to open file 'broken.pdf'."), quota)
  else (Ok "one two", quota).

Definition tts_word_count (text temp_file : string) (flag : bool) (quota : nat)
  : Exc (list (string * string)) * nat :=
  (Ok [(temp_file +:+ ".1", "one"); (temp_file +:+ ".2", "two")], quota).

Definition construct_filename (pdf tag : string) : string := pdf +:+ "_" +:+ tag +:+ ".mp3".

Definition gTTS (text lang tld : string) (quota : nat) : list LogRecord * Exc unit * nat :=
  ([log_debug ("text: " +:+ text); log_debug ("lang: " +:+ lang)], Ok tt, quota).

Definition save (tts : gTTS_object) (output_file : string) (quota : nat)
  : list LogRecord * Exc unit * nat :=
  match quota with
  | S q => ([log_debug "text_parts: 1"; log_debug "part-0 created"], Ok tt, q)
  | O => ([log_debug "text_parts: 1"],
          Raise (mkException "gTTSError" "Failed to connect. Probable cause: Unknown"), O)
  end.

Definition convert := convert clean_text tts_word_count construct_filename gTTS save.

Definition world (split : bool) (quota : nat) : World nat :=
  mkWorld split "/app" ∅ ∅ [] quota [].

End Demo.

(** ** Properties of the strings *)

Lemma str_app_nil (s : string) : "" +:+ s = s.
Proof. reflexivity. Qed.

Lemma str_app_cons c (a b : string) : String c a +:+ b = String c (a +:+ b).
Proof. reflexivity. Qed.

Lemma str_app_assoc (a b c : string) : (a +:+ b) +:+ c = a +:+ b +:+ c.
Proof.
  induction a as [|x a IH]; [done|]. by rewrite !str_app_cons, IH.
Qed.

Lemma str_length_app (a b : string) :
  String.length (a +:+ b) = (String.length a + String.length b)%nat.
Proof.
  induction a as [|c a IH]; [done|].
  rewrite str_app_cons. simpl. by rewrite IH.
Qed.

Lemma drop_str_app (a b : string) : drop_str (String.length a) (a +:+ b) = b.
Proof.
  induction a as [|c a IH]; [by destruct b|]. rewrite str_app_cons. simpl. apply IH.
Qed.

Lemma take_drop_str n (s : string) : take_str n s +:+ drop_str n s = s.
Proof.
  revert s. induction n as [|n IH]; intros [|c s]; simpl; try done.
  by rewrite str_app_cons, IH.
Qed.

Lemma lower_drop_str n (s : string) : drop_str n (lower s) = lower (drop_str n s).
Proof. revert s. induction n as [|n IH]; intros [|c s]; simpl; try done. Qed.

Lemma lower_app (a b : string) : lower (a +:+ b) = lower a +:+ lower b.
Proof.
  induction a as [|c a IH]; [done|].
  rewrite str_app_cons. simpl. by rewrite str_app_cons, IH.
Qed.

Lemma endswith_app (pre ext : string) : endswith (pre +:+ ext) ext = true.
Proof.
  unfold endswith. rewrite str_length_app.
  replace (String.length pre + String.length ext - String.length ext)%nat
    with (String.length pre) by lia.
  rewrite drop_str_app, String.eqb_refl, andb_true_r.
  apply Nat.leb_le. lia.
Qed.

Lemma endswith_suffix (s ext : string) :
  endswith s ext = true ->
  exists pre suf, s = pre +:+ suf /\ suf = ext.
Proof.
  unfold endswith. intros [_ H]%andb_true_iff. apply String.eqb_eq in H.
  eexists _, _. split; [symmetry; apply take_drop_str|exact H].
Qed.

Lemma startswith_app (sub post : string) : startswith (sub +:+ post) sub = true.
Proof.
  induction sub as [|c sub IH]; [rewrite str_app_nil; by destruct post|].
  rewrite str_app_cons. simpl. rewrite Ascii.eqb_refl. apply IH.
Qed.

Lemma contains_app (pre sub post : string) : contains (pre +:+ sub +:+ post) sub = true.
Proof.
  assert (Hstart : forall s, startswith s sub = true -> contains s sub = true).
  { intros [|c s] H.
    - change (contains "" sub) with (startswith "" sub || false). by rewrite H.
    - change (contains (String c s) sub)
        with (startswith (String c s) sub || contains s sub). by rewrite H. }
  induction pre as [|c pre IH].
  - rewrite str_app_nil. apply Hstart, startswith_app.
  - rewrite str_app_cons.
    change (contains (String c ?s) sub)
      with (startswith (String c s) sub || contains s sub).
    rewrite IH. apply orb_true_r.
Qed.

Lemma contains_suffix (pre sub : string) : contains (pre +:+ sub) sub = true.
Proof.
  pose proof (contains_app pre sub "") as H.
  replace (sub +:+ "") with sub in H; [done|].
  clear H. induction sub as [|c sub IH]; [done|]. by rewrite str_app_cons, <- IH.
Qed.

Lemma lower_char_dot c : lower_char c = "."%char -> c = "."%char.
Proof.
  destruct c as [[] [] [] [] [] [] [] []]; vm_compute; intros H; by try discriminate.
Qed.

Lemma lower_char_letter (c l : ascii) :
  (97 <= N_of_ascii l <= 122)%N ->
  lower_char c = l -> c = l \/ c = ascii_of_N (N_of_ascii l - 32).
Proof.
  intros Hl <-. revert Hl.
  destruct c as [[] [] [] [] [] [] [] []]; vm_compute; intros [H1 H2];
    first [ by left | by right
          | exfalso; (apply H1; reflexivity) || (apply H2; reflexivity) ].
Qed.

Lemma valid_filetype_ends (pdf : string) :
  valid_filetype pdf = true <-> ends_in_pdf_or_txt pdf.
Proof.
  unfold valid_filetype, ends_in_pdf_or_txt. cbn [existsb]. rewrite orb_false_r.
  split.
  - intros H.
    assert (exists ext, (ext = ".pdf" \/ ext = ".txt") /\ endswith (lower pdf) ext = true)
      as (ext & Hext & He).
    { apply orb_true_iff in H as [H|H]; eauto. }
    unfold endswith in He. apply andb_true_iff in He as [_ He].
    apply String.eqb_eq in He. rewrite lower_drop_str in He.
    set (n := (String.length (lower pdf) - String.length ext)%nat) in *.
    exists (take_str n pdf).
    pose proof (take_drop_str n pdf) as Hsplit.
    destruct (drop_str n pdf) as [|c0 [|c1 [|c2 [|c3 [|c4 r]]]]] eqn:Hd;
      try (destruct Hext as [-> | ->]; discriminate He).
    exists c1, c2, c3.
    destruct Hext as [-> | ->]; cbn in He; injection He as H0 H1 H2 H3;
      apply lower_char_dot in H0 as ->; (split; [done|]);
      apply lower_char_letter in H1, H2, H3; try (vm_compute; split; discriminate);
      cbn in H1, H2, H3; tauto.
  - intros (pre & c1 & c2 & c3 & -> & Hc).
    rewrite lower_app.
    destruct Hc as [(H1 & H2 & H3)|(H1 & H2 & H3)];
      destruct H1 as [-> | ->], H2 as [-> | ->], H3 as [-> | ->];
      match goal with
      | |- context [lower (String ?a ?b)] =>
          let v := eval vm_compute in (lower (String a b)) in
          change (lower (String a b)) with v
      end;
      rewrite ?endswith_app, ?orb_true_r; done.
Qed.

(** ** Properties of the float operations

    The rounding of [SpecFloat], followed through [SFdiv] and [SFmul] far
    enough to bound the error of [(progress / total_parts) * 100]. *)

Module PyFloatFacts.
Import PyFloat.

Lemma Zdigits2_log2 m : 0 < m -> Zdigits2 m = Z.log2 m + 1.
Proof.
  destruct m as [|p|p]; try lia. intros _. cbn [Zdigits2].
  assert (H : forall q, Zpos (digits2_pos q) = Zpos (Pos.size q)).
  { induction q; cbn; congruence. }
  rewrite H. destruct p; cbn; lia.
Qed.

Lemma Zdigits2_bounds m : 0 < m -> 2 ^ (Zdigits2 m - 1) <= m < 2 ^ Zdigits2 m.
Proof.
  intros Hm. rewrite Zdigits2_log2 by done.
  replace (Z.log2 m + 1 - 1) with (Z.log2 m) by lia.
  apply Z.log2_spec. done.
Qed.

Lemma Zdigits2_nonneg m : 0 <= Zdigits2 m.
Proof. destruct m; cbn; lia. Qed.

Lemma Zdigits2_le m d : 0 <= d -> 0 <= m < 2 ^ d -> Zdigits2 m <= d.
Proof.
  intros Hd [H0 Hm]. destruct (Z.eq_dec m 0) as [->|Hne]; [done|].
  rewrite Zdigits2_log2 by lia.
  assert (Z.log2 m < d); [|lia]. apply Z.log2_lt_pow2; lia.
Qed.

Lemma shr_1_Rep mrs N D : Rep mrs N D -> Rep (shr_1 mrs) N (2 * D).
Proof.
  destruct mrs as [m r s]. intros (HD & HN & Hm & Hr & Hs).
  cbn [shr_m shr_r shr_s] in *.
  assert (Hm0 : 0 <= m) by (subst m; apply Z.div_pos; lia).
  assert (Hdiv : N / (2 * D) = m / 2).
  { subst m. rewrite (Z.mul_comm 2 D), <- Z.div_div by lia. done. }
  assert (Hmod : N mod (2 * D) = N mod D + D * (m mod 2)).
  { subst m. rewrite (Z.mul_comm 2 D). apply Z.rem_mul_r; lia. }
  pose proof (Z.mod_pos_bound N D HD) as Hb.
  pose proof (Z.mod_pos_bound m 2 ltac:(lia)) as Hb2.
  pose proof (Z.div_mod m 2 ltac:(lia)) as Hdm.
  assert (Hrs : r || s = negb (N mod D =? 0)).
  { rewrite Hr, Hs. set (x := N mod D) in *. clearbody x. clear Hmod Hdiv Hm Hdm.
    destruct (Z.leb_spec D (2 * x)), (Z.eqb_spec x 0), (Z.eqb_spec (2 * x) D);
      cbn [negb andb orb]; try done; lia. }
  assert (Hshr : shr_1 {| shr_m := m; shr_r := r; shr_s := s |}
                 = {| shr_m := m / 2; shr_r := negb (m mod 2 =? 0); shr_s := r || s |}).
  { clear -Hm0. destruct m as [|[p|p|]|p]; [reflexivity| | |reflexivity|lia].
    - cbn [shr_1]. rewrite Pos2Z.inj_xI. f_equal.
      + apply Z.div_unique with 1; lia.
      + replace (2 * Z.pos p + 1) with (1 + Z.pos p * 2) by lia.
        rewrite Z.mod_add by lia. reflexivity.
    - cbn [shr_1]. rewrite Pos2Z.inj_xO. f_equal.
      + apply Z.div_unique with 0; lia.
      + replace (2 * Z.pos p) with (0 + Z.pos p * 2) by lia.
        rewrite Z.mod_add by lia. reflexivity. }
  rewrite Hshr. unfold Rep. cbn [shr_m shr_r shr_s].
  rewrite Hdiv, Hmod, Hrs.
  set (x := N mod D) in *. set (b := m mod 2) in *. clearbody x b.
  clear Hmod Hdiv Hm Hdm Hshr Hrs Hr Hs.
  split; [lia|]. split; [lia|]. split; [reflexivity|].
  assert (b = 0 \/ b = 1) as [-> | ->] by lia.
  - split.
    + destruct (Z.leb_spec (2 * D) (2 * (x + D * 0))); cbn; [lia|reflexivity].
    + destruct (Z.eqb_spec x 0), (Z.eqb_spec (x + D * 0) 0),
        (Z.eqb_spec (2 * (x + D * 0)) (2 * D)); cbn; try reflexivity; lia.
  - split.
    + destruct (Z.leb_spec (2 * D) (2 * (x + D * 1))); cbn; [reflexivity|lia].
    + destruct (Z.eqb_spec x 0), (Z.eqb_spec (x + D * 1) 0),
        (Z.eqb_spec (2 * (x + D * 1)) (2 * D)); cbn; try reflexivity; lia.
Qed.

Lemma iter_pos_Rep p : forall mrs N D,
    Rep mrs N D -> Rep (SpecFloat.iter_pos shr_1 p mrs) N (D * 2 ^ Z.pos p).
Proof.
  induction p as [p IH|p IH|]; intros mrs N D H; cbn [SpecFloat.iter_pos].
  - apply shr_1_Rep in H. apply IH, IH in H.
    replace (D * 2 ^ Z.pos p~1) with (2 * D * 2 ^ Z.pos p * 2 ^ Z.pos p); [exact H|].
    replace (Z.pos p~1) with (Z.pos p + Z.pos p + 1) by lia.
    rewrite !Z.pow_add_r, Z.pow_1_r by lia. ring.
  - apply IH, IH in H.
    replace (D * 2 ^ Z.pos p~0) with (D * 2 ^ Z.pos p * 2 ^ Z.pos p); [exact H|].
    replace (Z.pos p~0) with (Z.pos p + Z.pos p) by lia.
    rewrite !Z.pow_add_r by lia. ring.
  - apply shr_1_Rep in H. replace (D * 2 ^ 1) with (2 * D) by (rewrite Z.pow_1_r; ring).
    exact H.
Qed.

Lemma shr_Rep mrs e n N D :
  Rep mrs N D ->
  snd (shr mrs e n) = e + Z.max 0 n /\
  Rep (fst (shr mrs e n)) N (D * 2 ^ Z.max 0 n).
Proof.
  intros H. destruct n as [|p|p]; cbn [shr fst snd].
  - split; [lia|]. rewrite Z.max_l, Z.pow_0_r, Z.mul_1_r by lia. exact H.
  - split; [lia|]. rewrite Z.max_r by lia. by apply iter_pos_Rep.
  - split; [lia|]. rewrite Z.max_l, Z.pow_0_r, Z.mul_1_r by lia. exact H.
Qed.

Lemma Rep_loc_Exact m : 0 <= m -> Rep (shr_record_of_loc m loc_Exact) m 1.
Proof.
  intros Hm. unfold Rep. cbn [shr_record_of_loc shr_m shr_r shr_s].
  rewrite Z.div_1_r, Z.mod_1_r. repeat split; try lia; reflexivity.
Qed.

Lemma round_nearest_even_Rep mrs N D :
  Rep mrs N D ->
  let m1 := round_nearest_even (shr_m mrs) (loc_of_shr_record mrs) in
  N / D <= m1 <= N / D + 1 /\ 2 * Z.abs (m1 * D - N) <= D.
Proof.
  destruct mrs as [m r s]. intros (HD & HN & Hm & Hr & Hs). cbn [shr_m shr_r shr_s] in *.
  pose proof (Z.mod_pos_bound N D HD) as Hb.
  pose proof (Z.div_mod N D ltac:(lia)) as Hdm.
  rewrite <- Hm in *. set (x := N mod D) in *. clearbody x. clear Hm.
  assert (Hexp : forall k, (m + k) * D - N = k * D - x) by (intros; subst N; ring).
  destruct (Z.leb_spec D (2 * x)), (Z.eqb_spec x 0), (Z.eqb_spec (2 * x) D);
    cbn [negb andb] in Hs; subst r s; cbn [loc_of_shr_record round_nearest_even];
    try lia.
  all: try (split; [lia|]; specialize (Hexp 0); rewrite Z.add_0_r in Hexp; rewrite Hexp; lia).
  all: try (split; [lia|]; specialize (Hexp 1); rewrite Hexp; lia).
  destruct (Z.even m).
  - split; [lia|]; specialize (Hexp 0); rewrite Z.add_0_r in Hexp; rewrite Hexp; lia.
  - split; [lia|]; specialize (Hexp 1); rewrite Hexp; lia.
Qed.

Lemma fexp_eq x : fexp prec emax x = Z.max (x - 53) (-1074).
Proof. reflexivity. Qed.

Lemma shr_m_of_loc m l : shr_m (shr_record_of_loc m l) = m.
Proof. by destruct l as [|[]]. Qed.

Lemma pow2_pos n : 0 <= n -> 0 < 2 ^ n.
Proof. intros. apply Z.pow_pos_nonneg; lia. Qed.

Lemma Zdigits2_ge m d : 0 <= d -> 2 ^ d <= m -> d + 1 <= Zdigits2 m.
Proof.
  intros Hd Hm. pose proof (pow2_pos d Hd).
  rewrite Zdigits2_log2 by lia.
  assert (d <= Z.log2 m); [|lia]. apply Z.log2_le_pow2; lia.
Qed.

Lemma binary_round_aux_spec sx mx ex lx N D :
  Rep (shr_record_of_loc mx lx) N D ->
  let e1 := Z.max ex (fexp prec emax (Zdigits2 mx + ex)) in
  exists m2 e2,
    binary_round_aux prec emax sx mx ex lx =
      match m2 with
      | Z0 => S754_zero sx
      | Zpos m => if e2 <=? emax - prec then S754_finite sx m e2 else S754_infinity sx
      | Zneg _ => S754_nan
      end /\
    0 <= m2 /\ e1 <= e2 /\
    e2 <= Z.max e1 (fexp prec emax (Zdigits2 mx + ex + 1)) /\
    2 * Z.abs (m2 * 2 ^ (e2 - ex) * D - N) <= D * 2 ^ (e1 - ex).
Proof.
  intros HRep e1.
  assert (Hmx : mx = N / D).
  { destruct HRep as (_ & _ & H & _). by rewrite shr_m_of_loc in H. }
  assert (HD : 0 < D) by apply HRep. assert (HN : 0 <= N) by apply HRep.
  assert (Hmx0 : 0 <= mx) by (subst mx; apply Z.div_pos; lia).
  unfold binary_round_aux, shr_fexp.
  set (n1 := fexp prec emax (Zdigits2 mx + ex) - ex).
  destruct (shr_Rep _ ex n1 N D HRep) as [He' HRep'].
  destruct (shr (shr_record_of_loc mx lx) ex n1) as [mrs' e'] eqn:Hshr.
  cbn [fst snd] in He', HRep'.
  assert (He1 : e' = e1) by (subst e' e1 n1; lia).
  assert (Hk : Z.max 0 n1 = e1 - ex) by lia.
  rewrite Hk in HRep'. clear He'. subst e'.
  assert (Hk0 : 0 <= e1 - ex) by lia.
  pose proof (pow2_pos _ Hk0) as HP. set (P := 2 ^ (e1 - ex)) in *.
  destruct (round_nearest_even_Rep _ _ _ HRep') as [Hm1 Herr].
  set (m1 := round_nearest_even (shr_m mrs') (loc_of_shr_record mrs')) in *.
  assert (Hafter : N / (D * P) = mx / P) by (subst mx; by rewrite Z.div_div by lia).
  rewrite Hafter in Hm1.
  assert (Hma0 : 0 <= mx / P) by (apply Z.div_pos; lia).
  pose proof (Zdigits2_nonneg mx) as Hdx0.
  assert (Hfe1 : -1074 <= e1) by (subst e1; rewrite fexp_eq; lia).
  (* the mantissa after the first shift has at most [prec] digits *)
  assert (Hlt : mx / P < 2 ^ 53).
  { apply Z.div_lt_upper_bound; [lia|].
    destruct (Z.eq_dec mx 0) as [->|Hne]; [pose proof (pow2_pos 53); lia|].
    pose proof (Zdigits2_bounds mx ltac:(lia)) as [_ Hub].
    eapply Z.lt_le_trans; [exact Hub|].
    subst P. rewrite <- Z.pow_add_r by lia.
    apply Z.pow_le_mono_r; [lia|]. subst e1. rewrite fexp_eq. lia. }
  assert (Hm1b : 0 <= m1 <= 2 ^ 53) by lia.
  set (n2 := fexp prec emax (Zdigits2 m1 + e1) - e1).
  destruct (Z_lt_le_dec m1 (2 ^ 53)) as [Hsmall|Hbig].
  - (* no second shift *)
    assert (Hn2 : n2 <= 0).
    { subst n2. rewrite fexp_eq.
      pose proof (Zdigits2_le m1 53 ltac:(lia) ltac:(lia)). lia. }
    assert (Hshr2 : shr (shr_record_of_loc m1 loc_Exact) e1 n2
                    = (shr_record_of_loc m1 loc_Exact, e1)).
    { destruct n2; try reflexivity. lia. }
    rewrite Hshr2. cbn [shr_record_of_loc shr_m].
    exists m1, e1. split; [reflexivity|]. split; [lia|]. split; [lia|]. split; [lia|].
    fold P. replace (m1 * P * D) with (m1 * (D * P)) by ring. lia.
  - (* the rounding carried into a new digit: one more shift, exact *)
    assert (Hm1e : m1 = 2 ^ 53) by lia.
    assert (Hd1 : Zdigits2 m1 = 54).
    { apply Z.le_antisymm.
      - apply Zdigits2_le; [lia|]. rewrite Hm1e. split; [apply Z.lt_le_incl, pow2_pos; lia|].
        apply Z.pow_lt_mono_r; lia.
      - apply (Zdigits2_ge m1 53); lia. }
    assert (Hn2 : n2 = 1) by (subst n2; rewrite fexp_eq, Hd1; lia).
    rewrite Hn2.
    destruct (shr_Rep _ e1 1 m1 1 (Rep_loc_Exact m1 ltac:(lia))) as [He2 HRep2].
    destruct (shr (shr_record_of_loc m1 loc_Exact) e1 1) as [mrs2 e2] eqn:Hshr2.
    cbn [fst snd] in He2, HRep2.
    destruct HRep2 as (_ & _ & Hm2 & _).
    replace (1 * 2 ^ Z.max 0 1) with 2 in Hm2 by reflexivity.
    assert (Hm2v : shr_m mrs2 = 2 ^ 52).
    { rewrite Hm2, Hm1e. reflexivity. }
    rewrite Hm2v. exists (2 ^ 52), e2.
    split; [reflexivity|]. split; [apply Z.lt_le_incl, pow2_pos; lia|].
    assert (He2v : e2 = e1 + 1) by lia.
    split; [lia|]. split.
    + (* the exponent stays within the format of one more digit *)
      assert (Hge : 2 ^ 52 <= mx / P) by (change (2 ^ 53) with (2 * 2 ^ 52) in Hm1e; lia).
      assert (Hmxge : 2 ^ (52 + (e1 - ex)) <= mx).
      { rewrite Z.pow_add_r by lia. fold P.
        pose proof (Z.mul_div_le mx P HP). nia. }
      pose proof (Zdigits2_ge mx (52 + (e1 - ex)) ltac:(lia) Hmxge). rewrite fexp_eq. lia.
    + replace (e2 - ex) with (1 + (e1 - ex)) by lia.
      rewrite Z.pow_add_r by lia. fold P.
      replace (2 ^ 52 * (2 ^ 1 * P) * D) with (m1 * (D * P)).
      * lia.
      * rewrite Hm1e. change (2 ^ 53) with (2 ^ 52 * 2 ^ 1). ring.
Qed.

Lemma two_pow_pos e : (0 < 2 ^ e)%Q.
Proof. apply Qpower_0_lt. reflexivity. Qed.

Lemma inject_pow2 n : 0 <= n -> (inject_Z (2 ^ n) == 2 ^ n)%Q.
Proof. intros H. rewrite Zpower_Qpower by assumption. reflexivity. Qed.

Lemma pow2_split a b : (2 ^ (a + b) == 2 ^ a * 2 ^ b)%Q.
Proof. apply Qpower_plus. discriminate. Qed.

Lemma round_Q (m2 e2 ex e1 N D : Z) :
  0 < D -> ex <= e1 -> e1 <= e2 ->
  2 * Z.abs (m2 * 2 ^ (e2 - ex) * D - N) <= D * 2 ^ (e1 - ex) ->
  (Qabs (inject_Z m2 * 2 ^ e2 - inject_Z N / inject_Z D * 2 ^ ex) <= 2 ^ e1 / 2)%Q.
Proof.
  intros HD H1 H2 Hb.
  assert (E2 : (2 ^ e2 == inject_Z (2 ^ (e2 - ex)) * 2 ^ ex)%Q).
  { rewrite inject_pow2, <- pow2_split by lia. by replace (e2 - ex + ex) with e2 by lia. }
  assert (E1 : (2 ^ e1 == inject_Z (2 ^ (e1 - ex)) * 2 ^ ex)%Q).
  { rewrite inject_pow2, <- pow2_split by lia. by replace (e1 - ex + ex) with e1 by lia. }
  rewrite E2, E1.
  set (A := 2 ^ (e2 - ex)) in *. set (P := 2 ^ (e1 - ex)) in *.
  pose proof (two_pow_pos ex) as HX. set (X := (2 ^ ex)%Q) in *.
  assert (HDq : (0 < inject_Z D)%Q) by (rewrite <- (Zlt_Qlt 0); assumption).
  set (y := (inject_Z N / inject_Z D)%Q).
  assert (Hy : (y * inject_Z D == inject_Z N)%Q) by (subst y; field; lra).
  clearbody y.
  assert (Hq : (- (inject_Z D * inject_Z P) <= 2 * (inject_Z m2 * inject_Z A * inject_Z D - inject_Z N)
                <= inject_Z D * inject_Z P)%Q).
  { assert (Hl : - (D * P) <= 2 * (m2 * A * D + - N)) by lia.
    assert (Hu : 2 * (m2 * A * D + - N) <= D * P) by lia.
    rewrite Zle_Qle in Hl, Hu.
    repeat (rewrite ?inject_Z_opp, ?inject_Z_mult, ?inject_Z_plus in Hl).
    repeat (rewrite ?inject_Z_opp, ?inject_Z_mult, ?inject_Z_plus in Hu).
    change (inject_Z 2) with 2%Q in *. split; lra. }
  rewrite <- Hy in Hq. clear Hy. clearbody X A P.
  apply Qabs_Qle_condition.
  set (z := (inject_Z m2 * inject_Z A - y)%Q).
  assert (Hz : (- inject_Z P <= 2 * z <= inject_Z P)%Q).
  { destruct Hq as [Hl Hu]. split.
    - apply (Qmult_le_r _ _ (inject_Z D)); [assumption|]. subst z. lra.
    - apply (Qmult_le_r _ _ (inject_Z D)); [assumption|]. subst z. lra. }
  destruct Hz as [Hl Hu].
  assert (H3 : (- inject_Z P * X <= 2 * z * X)%Q) by (apply Qmult_le_compat_r; lra).
  assert (H4 : (2 * z * X <= inject_Z P * X)%Q) by (apply Qmult_le_compat_r; lra).
  subst z. unfold Qdiv. change (/ 2)%Q with (1 # 2)%Q. split; lra.
Qed.

Lemma pow2_le_mono e e' : e <= e' -> (2 ^ e <= 2 ^ e')%Q.
Proof.
  intros H. replace e' with (e + (e' - e)) by lia. rewrite pow2_split.
  pose proof (two_pow_pos e) as Hp.
  assert (H1 : (1 <= 2 ^ (e' - e))%Q).
  { rewrite <- inject_pow2 by lia. change 1%Q with (inject_Z 1). rewrite <- Zle_Qle.
    pose proof (pow2_pos (e' - e)). lia. }
  set (x := (2 ^ e)%Q) in *. set (y := (2 ^ (e' - e))%Q) in *. clearbody x y.
  assert (x * 1 <= x * y)%Q by (apply Qmult_le_l; assumption).
  lra.
Qed.

Lemma new_location_Rep N D :
  0 < D -> 0 <= N -> Rep (shr_record_of_loc (N / D) (new_location D (N mod D))) N D.
Proof.
  intros HD HN. pose proof (Z.mod_pos_bound N D HD) as Hb.
  unfold Rep. rewrite shr_m_of_loc. split; [lia|]. split; [lia|]. split; [reflexivity|].
  set (x := N mod D) in *. clearbody x.
  unfold new_location, new_location_even, new_location_odd.
  destruct (Z.even D) eqn:Hev.
  - destruct (Z.eqb_spec x 0) as [->|Hx].
    + cbn. split; [|reflexivity]. symmetry. apply Z.leb_gt. lia.
    + destruct (Z.compare_spec (2 * x) D); cbn [shr_record_of_loc shr_r shr_s];
        destruct (Z.leb_spec D (2 * x)), (Z.eqb_spec (2 * x) D);
        cbn; try lia; split; reflexivity.
  - assert (Hodd : 2 * x <> D).
    { intros <-. rewrite Z.even_mul in Hev. discriminate. }
    destruct (Z.eqb_spec x 0) as [->|Hx].
    + cbn. split; [|reflexivity]. symmetry. apply Z.leb_gt. lia.
    + destruct (Z.compare_spec (2 * x + 1) D); cbn [shr_record_of_loc shr_r shr_s];
        destruct (Z.leb_spec D (2 * x)), (Z.eqb_spec (2 * x) D);
        cbn; try lia; split; reflexivity.
Qed.

Lemma SFdiv_spec sa sb (pa pb : positive) :
  let a := Z.pos pa in
  let b := Z.pos pb in
  exists m2 e2 e1,
    SFdiv prec emax (S754_finite sa pa 0) (S754_finite sb pb 0)
    = round_result (xorb sa sb) m2 e2 /\
    0 <= m2 /\ e1 <= e2 /\
    e1 <= Z.max (Zdigits2 a - Zdigits2 b - 52) (-1074) /\
    e2 <= Z.max (Zdigits2 a - Zdigits2 b - 51) (-1074) /\
    (Qabs (inject_Z m2 * 2 ^ e2 - inject_Z a / inject_Z b) <= 2 ^ e1 / 2)%Q.
Proof.
  intros a b. unfold SFdiv, SFdiv_core_binary.
  change (Zdigits2 (Z.pos pa)) with (Zdigits2 a). change (Zdigits2 (Z.pos pb)) with (Zdigits2 b).
  set (da := Zdigits2 a). set (db := Zdigits2 b).
  pose proof (Zdigits2_bounds a ltac:(lia)) as [Hal Hau]. fold da in Hal, Hau.
  pose proof (Zdigits2_bounds b ltac:(lia)) as [Hbl Hbu]. fold db in Hbl, Hbu.
  assert (Hda : 1 <= da) by (subst da a; cbn; lia).
  assert (Hdb : 1 <= db) by (subst db b; cbn; lia).
  set (e' := Z.min (fexp prec emax (da + 0 - (db + 0))) (0 - 0)).
  assert (He' : e' = Z.min (Z.max (da - db - 53) (-1074)) 0).
  { subst e'. rewrite fexp_eq. lia. }
  set (s := 0 - 0 - e').
  assert (Hs : 0 <= s) by lia.
  set (m' := match s with Z.pos _ => Z.shiftl (Z.pos pa) s | 0 => Z.pos pa | Z.neg _ => 0 end).
  assert (Hm' : m' = a * 2 ^ s).
  { subst m'. destruct s eqn:Es; [rewrite Z.pow_0_r; lia| |lia].
    rewrite Z.shiftl_mul_pow2 by lia. reflexivity. }
  pose proof (pow2_pos s Hs) as H2s.
  assert (HN : 0 <= m') by (rewrite Hm'; nia).
  destruct (Z.div_eucl m' (Z.pos pb)) as [q r] eqn:Ediv.
  assert (Hq : q = m' / b) by (unfold Z.div, b; by rewrite Ediv).
  assert (Hr : r = m' mod b) by (unfold Z.modulo, b; by rewrite Ediv).
  pose proof (new_location_Rep m' b ltac:(lia) HN) as HRep.
  rewrite <- Hq, <- Hr in HRep. fold b.
  destruct (binary_round_aux_spec (xorb sa sb) q e' (new_location b r) m' b HRep)
    as (m2 & e2 & Hres & Hm2 & He12 & He2 & Herr).
  set (e1 := Z.max e' (fexp prec emax (Zdigits2 q + e'))) in *.
  exists m2, e2, e1. split; [exact Hres|]. split; [lia|]. split; [lia|].
  (* the digits of the quotient *)
  assert (Hq0 : 0 <= q) by (subst q; apply Z.div_pos; lia).
  assert (Hdq : Zdigits2 q + e' <= Z.max (da - db + 1) (e')).
  { destruct (Z.eq_dec q 0) as [->|Hne]; [cbn; lia|].
    assert (Hge : b <= m').
    { destruct (Z_lt_le_dec m' b) as [Hlt|]; [|lia].
      rewrite Z.div_small in Hq by lia. lia. }
    assert (Hpos : 0 < da + s - db + 1).
    { destruct (Z_lt_le_dec 0 (da + s - db + 1)) as [|Hle]; [lia|].
      assert (2 ^ (da + s) <= 2 ^ (db - 1)) by (apply Z.pow_le_mono_r; lia).
      rewrite Z.pow_add_r in H by lia. nia. }
    assert (Hqlt : q < 2 ^ (da + s - db + 1)).
    { subst q. apply Z.div_lt_upper_bound; [lia|].
      assert (2 ^ (da + s) <= b * 2 ^ (da + s - db + 1)).
      { replace (da + s) with ((db - 1) + (da + s - db + 1)) at 1 by lia.
        rewrite Z.pow_add_r by lia.
        pose proof (pow2_pos (da + s - db + 1) ltac:(lia)). nia. }
      rewrite Z.pow_add_r in H by lia. nia. }
    pose proof (Zdigits2_le q (da + s - db + 1) ltac:(lia) ltac:(lia)). lia. }
  split; [subst e1; rewrite fexp_eq; lia|].
  split; [rewrite fexp_eq in He2; subst e1; rewrite fexp_eq in He2; lia|].
  pose proof (round_Q m2 e2 e' e1 m' b ltac:(lia) ltac:(subst e1; lia) He12 Herr) as HQ.
  assert (Hval : (inject_Z m' / inject_Z b * 2 ^ e' == inject_Z a / inject_Z b)%Q).
  { rewrite Hm', inject_Z_mult, inject_pow2 by lia.
    assert (Hone : (2 ^ s * 2 ^ e' == 1)%Q).
    { rewrite <- pow2_split. by replace (s + e') with 0 by lia. }
    assert (Hb : ~ (inject_Z b == 0)%Q).
    { change 0%Q with (inject_Z 0). rewrite inject_Z_injective. lia. }
    set (x := (2 ^ s)%Q) in *. set (y := (2 ^ e')%Q) in *. clearbody x y.
    transitivity (inject_Z a / inject_Z b * (x * y))%Q; [field; exact Hb|].
    rewrite Hone. field. exact Hb. }
  by rewrite Hval in HQ.
Qed.

Lemma SFmul_spec sx sy (px py : positive) ex ey :
  let M := Z.pos px * Z.pos py in
  let E := ex + ey in
  let e1 := Z.max E (fexp prec emax (Zdigits2 M + E)) in
  exists m2 e2,
    SFmul prec emax (S754_finite sx px ex) (S754_finite sy py ey)
    = round_result (xorb sx sy) m2 e2 /\
    0 <= m2 /\ e1 <= e2 /\
    e2 <= Z.max e1 (fexp prec emax (Zdigits2 M + E + 1)) /\
    (Qabs (inject_Z m2 * 2 ^ e2 - inject_Z M * 2 ^ E) <= 2 ^ e1 / 2)%Q.
Proof.
  intros M E e1. unfold SFmul.
  change (Z.pos (px * py)) with M. fold E.
  destruct (binary_round_aux_spec (xorb sx sy) M E loc_Exact M 1
              (Rep_loc_Exact M ltac:(lia)))
    as (m2 & e2 & Hres & Hm2 & He12 & He2 & Herr).
  fold e1 in He12, He2, Herr.
  exists m2, e2. split; [exact Hres|]. split; [lia|]. split; [lia|]. split; [lia|].
  pose proof (round_Q m2 e2 E e1 M 1 ltac:(lia) ltac:(lia) He12 Herr) as HQ.
  assert (Hv : (inject_Z M / inject_Z 1 * 2 ^ E == inject_Z M * 2 ^ E)%Q).
  { set (x := (2 ^ E)%Q). clearbody x. change (inject_Z 1) with 1%Q. field. }
  by rewrite Hv in HQ.
Qed.

Lemma SF2Q_round_result m2 e2 :
  0 <= m2 -> e2 <= 971 ->
  is_finite (round_result false m2 e2) = true /\
  (SF2Q (round_result false m2 e2) == inject_Z m2 * 2 ^ e2)%Q.
Proof.
  intros Hm He. unfold round_result. destruct m2 as [|p|p]; [| |lia].
  - split; [reflexivity|]. cbn [SF2Q]. change (inject_Z 0) with 0%Q. lra.
  - change (emax - prec) with 971. destruct (Z.leb_spec e2 971); [|lia].
    split; reflexivity.
Qed.

Lemma Zdigits2_mono a b : 0 < a <= b -> Zdigits2 a <= Zdigits2 b.
Proof.
  intros H. pose proof (Zdigits2_bounds b ltac:(lia)) as [_ Hb].
  apply Zdigits2_le; [apply Zdigits2_nonneg|lia].
Qed.

Lemma float_mul_100 x : float_mul_int x 100 = Ok (SFmul prec emax x f100).
Proof. reflexivity. Qed.

(** [(c / t) * 100] for [0 <= c <= t], [0 < t]: both operations return,
    and the result is within [2 ^ -45] of [100 c / t]. *)
Lemma percentage_bound c t :
  0 < t -> 0 <= c <= t ->
  exists q pct,
    int_truediv c t = Ok q /\
    float_mul_int q 100 = Ok pct /\
    is_finite pct = true /\
    (Qabs (SF2Q pct - 100 * inject_Z c / inject_Z t) <= 2 ^ (-45))%Q.
Proof.
  intros Ht Hc. unfold int_truediv.
  destruct (Z.eqb_spec t 0) as [|_]; [lia|].
  destruct t as [|pt|pt]; try lia.
  assert (Htq : (0 < inject_Z (Z.pos pt))%Q) by (by rewrite <- (Zlt_Qlt 0)).
  destruct c as [|pc|pc]; [| |lia].
  - (* nothing completed: the quotient and the product are +0.0 *)
    exists (S754_zero false), (S754_zero false).
    split; [reflexivity|]. split; [reflexivity|]. split; [reflexivity|].
    cbn [SF2Q]. change (inject_Z 0) with 0%Q.
    assert (H : (0 - 100 * 0 / inject_Z (Z.pos pt) == 0)%Q) by (field; lra).
    rewrite H. discriminate.
  - cbn [Z2SF].
    destruct (SFdiv_spec false false pc pt) as (m2 & e2 & e1 & Hdiv & Hm2 & He12 & He1 & He2 & Herr).
    cbn zeta in *. cbn [xorb] in Hdiv.
    pose proof (Zdigits2_mono (Z.pos pc) (Z.pos pt) ltac:(lia)) as Hdig.
    assert (He1' : e1 <= -52) by lia. assert (He2' : e2 <= -51) by lia.
    destruct (SF2Q_round_result m2 e2 Hm2 ltac:(lia)) as [Hfin Hval].
    rewrite Hdiv.
    set (x := (inject_Z (Z.pos pc) / inject_Z (Z.pos pt))%Q) in *.
    assert (Hx : (0 <= x <= 1)%Q).
    { assert (Hcq : (0 < inject_Z (Z.pos pc) <= inject_Z (Z.pos pt))%Q).
      { split; [by rewrite <- (Zlt_Qlt 0)|rewrite <- Zle_Qle; lia]. }
      subst x. split.
      - apply Qle_shift_div_l; [done|]. lra.
      - apply Qle_shift_div_r; [done|]. lra. }
    assert (Hgoal : (100 * inject_Z (Z.pos pc) / inject_Z (Z.pos pt) == 100 * x)%Q).
    { subst x. field. lra. }
    pose proof (pow2_le_mono e1 (-52) He1') as Hp1.
    change (2 ^ (-52))%Q with (1 # 4503599627370496)%Q in Hp1.
    set (v := (inject_Z m2 * 2 ^ e2)%Q) in *.
    assert (Hv : (Qabs (v - x) <= 1 # 9007199254740992)%Q).
    { eapply Qle_trans; [exact Herr|]. unfold Qdiv. change (/ 2)%Q with (1 # 2)%Q.
      set (y := (2 ^ e1)%Q) in *. clearbody y. lra. }
    apply Qabs_Qle_condition in Hv.
    destruct (round_result false m2 e2) as [s0| | |s0 pv ev] eqn:Hrr; try discriminate Hfin.
    + (* the quotient underflowed to zero *)
      exists (S754_zero s0), (SFmul prec emax (S754_zero s0) f100).
      split; [reflexivity|]. split; [apply float_mul_100|].
      cbn [SF2Q] in Hval. unfold f100. cbn [SFmul]. split; [reflexivity|].
      cbn [SF2Q]. rewrite Hgoal. rewrite <- Hval in Hv.
      apply Qabs_Qle_condition. change (2 ^ (-45))%Q with (1 # 35184372088832)%Q.
      clearbody x. split; lra.
    + assert (Hs0 : s0 = false /\ Z.pos pv = m2 /\ ev = e2).
      { unfold round_result in Hrr. destruct m2; try discriminate.
        destruct (e2 <=? emax - prec); [|discriminate]. by injection Hrr as <- <- <-. }
      destruct Hs0 as (-> & Hpv & ->).
      exists (S754_finite false pv e2), (SFmul prec emax (S754_finite false pv e2) f100).
      split; [reflexivity|]. split; [apply float_mul_100|].
      unfold f100.
      destruct (SFmul_spec false false pv 7036874417766400 e2 (-46))
        as (mp & ep & Hmul & Hmp & Hep1 & Hep2 & Herrm).
      cbn zeta in *. cbn [xorb] in Hmul. rewrite Hmul.
      set (M := Z.pos pv * 7036874417766400) in *.
      set (E := e2 + -46) in *.
      assert (HME : (inject_Z M * 2 ^ E == 100 * v)%Q).
      { subst M E v. rewrite inject_Z_mult, pow2_split, Hpv.
        set (y := (2 ^ e2)%Q). clearbody y.
        change (2 ^ (-46))%Q with (1 # 70368744177664)%Q.
        change (inject_Z 7036874417766400) with (7036874417766400 # 1)%Q.
        field. }
      (* the product is below 128: its mantissa has at most [7 - E] digits *)
      assert (HMlt : M < 2 ^ (7 - E)).
      { rewrite Zlt_Qlt. rewrite inject_pow2 by lia.
        replace (7 - E) with (7 + - E) by lia. rewrite pow2_split.
        assert (Hinv : (2 ^ E * 2 ^ (- E) == 1)%Q).
        { rewrite <- pow2_split. by replace (E + - E) with 0 by lia. }
        pose proof (two_pow_pos (- E)) as HnE.
        set (a := (2 ^ E)%Q) in *. set (b := (2 ^ (- E))%Q) in *.
        change (2 ^ 7)%Q with 128%Q. clearbody a b x v M.
        assert (Hlt : (inject_Z M * a < 128)%Q) by (clear -HME Hv Hx; lra).
        assert (H1 : (inject_Z M * a * b < 128 * b)%Q) by (apply Qmult_lt_r; assumption).
        assert (H2 : (inject_Z M * a * b == inject_Z M)%Q).
        { transitivity (inject_Z M * (a * b))%Q; [ring|]. rewrite Hinv. ring. }
        by rewrite H2 in H1. }
      assert (HdM : Zdigits2 M <= 7 - E) by (apply Zdigits2_le; subst M; lia).
      repeat rewrite fexp_eq in Hep1. repeat rewrite fexp_eq in Hep2.
      assert (He1m : Z.max E (Z.max (Zdigits2 M + E - 53) (-1074)) <= -46) by lia.
      assert (Hep : ep <= 971) by lia.
      destruct (SF2Q_round_result mp ep Hmp Hep) as [Hfinp Hvalp].
      split; [exact Hfinp|].
      rewrite Hvalp, Hgoal.
      pose proof (pow2_le_mono _ (-46) He1m) as Hp2.
      change (2 ^ (-46))%Q with (1 # 70368744177664)%Q in Hp2.
      rewrite fexp_eq in Herrm.
      set (p := (inject_Z mp * 2 ^ ep)%Q) in *.
      assert (Hpe : (Qabs (p - 100 * v) <= 1 # 140737488355328)%Q).
      { rewrite <- HME. eapply Qle_trans; [exact Herrm|].
        unfold Qdiv. change (/ 2)%Q with (1 # 2)%Q.
        set (y := (2 ^ Z.max E (Z.max (Zdigits2 M + E - 53) (-1074)))%Q) in *.
        clearbody y. lra. }
      apply Qabs_Qle_condition in Hpe.
      apply Qabs_Qle_condition. change (2 ^ (-45))%Q with (1 # 35184372088832)%Q.
      clearbody p v x. split; lra.
Qed.

(** [a / b] returns as soon as the quotient is below [2 ^ 1022] in
    magnitude. *)
Lemma int_truediv_ok a b :
  b <> 0 -> Z.abs a < 2 ^ 1022 * Z.abs b ->
  exists q, int_truediv a b = Ok q /\ is_finite q = true.
Proof.
  intros Hb Hab. unfold int_truediv.
  destruct (Z.eqb_spec b 0) as [|_]; [done|].
  assert (Hgen : forall sa sb pa pb,
             Z.pos pa < 2 ^ 1022 * Z.pos pb ->
             exists q, match SFdiv prec emax (S754_finite sa pa 0) (S754_finite sb pb 0) with
                       | S754_infinity _ => Raise OverflowError_truediv
                       | f => Ok f
                       end = Ok q /\ is_finite q = true).
  { intros sa sb pa pb Hlt.
    destruct (SFdiv_spec sa sb pa pb) as (m2 & e2 & e1 & -> & Hm2 & _ & _ & He2 & _).
    cbn zeta in He2.
    pose proof (Zdigits2_bounds (Z.pos pb) ltac:(lia)) as [_ Hbu].
    pose proof (Zdigits2_nonneg (Z.pos pb)) as Hd0.
    assert (Hda : Zdigits2 (Z.pos pa) <= 1022 + Zdigits2 (Z.pos pb)).
    { apply Zdigits2_le; [lia|]. split; [lia|].
      rewrite Z.pow_add_r by lia. pose proof (pow2_pos 1022 ltac:(lia)). nia. }
    unfold round_result. destruct m2 as [|p|p]; [by eexists| |lia].
    change (emax - prec) with 971. destruct (Z.leb_spec e2 971); [by eexists|lia]. }
  destruct a as [|pa|pa], b as [|pb|pb]; try done; cbn [Z2SF]; try (by eexists);
    apply Hgen; lia.
Qed.

End PyFloatFacts.

(** ** Properties of the handlers and of the logger *)

Lemma emit_try_handler_events s r :
  Forall (fun e => handler_event e = true) (snd (QueueHandler.emit_try s r)).
Proof.
  unfold QueueHandler.emit_try.
  destruct (format r) as [msg|e]; [|constructor].
  destruct (re_search re_text_parts msg), (re_search re_part_created msg);
    cbn [snd];
    repeat match goal with
           | |- context [match ?x with Ok _ => _ | Raise _ => _ end] => destruct x
           end; cbn [snd]; repeat constructor.
Qed.

Lemma emit_handler_events s r :
  Forall (fun e => handler_event e = true) (snd (QueueHandler.emit s r)).
Proof.
  unfold QueueHandler.emit.
  pose proof (emit_try_handler_events s r) as H.
  destruct (QueueHandler.emit_try s r) as [[[u|e] s'] ev]; cbn [snd] in *; [done|].
  apply Forall_app; split; [done|]. repeat constructor.
Qed.

Lemma emit_part_created s record msg d :
  format record = Ok msg ->
  re_search re_part_created msg = Some d ->
  QueueHandler.emit s record =
    match PyFloat.int_truediv (progress s + 1) (announced_total s msg) with
    | Ok q =>
        let pct := PFloat (SFmul PyFloat.prec PyFloat.emax q PyFloat.f100) in
        ({| progress := progress s + 1; total_parts := announced_total s msg;
            progress_percentage := pct |},
         announce_events msg ++ [update_pb_emit pct; processEvents])
    | Raise e =>
        ({| progress := progress s + 1; total_parts := announced_total s msg;
            progress_percentage := progress_percentage s |},
         announce_events msg ++ [handleError record])
    end.
Proof.
  intros Hf Hm. unfold QueueHandler.emit, QueueHandler.emit_try, announced_total, announce_events.
  rewrite Hf, Hm.
  destruct (re_search re_text_parts msg) as [ds|];
    cbn [set_total_parts set_progress set_progress_percentage progress total_parts
         progress_percentage];
    destruct (PyFloat.int_truediv _ _) as [q|e]; try reflexivity;
    rewrite PyFloatFacts.float_mul_100; reflexivity.
Qed.

Lemma emit_all_app s rs1 rs2 :
  QueueHandler.emit_all s (rs1 ++ rs2) =
    (fst (QueueHandler.emit_all (fst (QueueHandler.emit_all s rs1)) rs2),
     snd (QueueHandler.emit_all s rs1)
       ++ snd (QueueHandler.emit_all (fst (QueueHandler.emit_all s rs1)) rs2)).
Proof.
  revert s. induction rs1 as [|r rs1 IH]; intros s.
  - cbn. by destruct (QueueHandler.emit_all s rs2).
  - cbn [app QueueHandler.emit_all].
    destruct (QueueHandler.emit s r) as [s1 ev1]. rewrite IH.
    destruct (QueueHandler.emit_all s1 rs1) as [s2 ev2]. cbn [fst snd].
    destruct (QueueHandler.emit_all s2 rs2) as [s3 ev3]. cbn [fst snd].
    by rewrite app_assoc.
Qed.

(** C2, as amended. When a chunk-completion message (of at most 4300
    characters, so that [int] converts the total that it may announce) has
    left the shared state with [total_parts > 0] and
    [0 <= progress <= total_parts], the percentage that the handler stored
    is the double
    [(progress / total_parts) * 100], the correctly rounded quotient times
    100, rounded again: a finite double within [2 ^ -45] of
    [100 * progress / total_parts], and not always that number itself. *)
Theorem percentage_is_rounded_ratio s record msg d :
  format record = Ok msg ->
  (String.length msg <= 4300)%nat ->
  re_search re_part_created msg = Some d ->
  let s' := fst (QueueHandler.emit s record) in
  0 < total_parts s' ->
  0 <= progress s' <= total_parts s' ->
  exists q pct,
    PyFloat.int_truediv (progress s') (total_parts s') = Ok q /\
    PyFloat.float_mul_int q 100 = Ok pct /\
    progress_percentage s' = PFloat pct /\
    PyFloat.is_finite pct = true /\
    (Qabs (PyFloat.SF2Q pct - 100 * inject_Z (progress s') / inject_Z (total_parts s'))
     <= 2 ^ (-45))%Q.
Proof.
  intros Hf _ Hm s'. subst s'. rewrite (emit_part_created s record msg d Hf Hm).
  destruct (PyFloat.int_truediv (progress s + 1) (announced_total s msg)) as [q|e] eqn:Hdiv;
    cbn [fst progress total_parts progress_percentage]; intros Ht Hp.
  - destruct (PyFloatFacts.percentage_bound _ _ Ht Hp) as (q' & pct & Hq & Hmul & Hfin & Hb).
    rewrite Hdiv in Hq. injection Hq as <-.
    exists q, pct. split; [done|]. split; [done|].
    rewrite PyFloatFacts.float_mul_100 in Hmul. injection Hmul as <-. by repeat split.
  - destruct (PyFloatFacts.percentage_bound _ _ Ht Hp) as (q' & pct & Hq & _).
    rewrite Hdiv in Hq. discriminate.
Qed.

(** C3, as amended. A message that matches the chunk-completion pattern
    (of at most 4300 characters, so that [int] converts the total that it
    may announce) always adds one to [progress]. When the total that the message leaves
    in the state is not zero (and the quotient is below [2 ^ 1022] in
    magnitude), the percentage is recomputed as
    [(progress / total_parts) * 100] and [update_pb] is emitted with the
    new percentage, followed by a flush of the event queue. The messages
    "text_parts: 5", "part-1 created", "part-2 created", "part-3 created"
    give the updates 20.0, 40.0, 60.0 in that order. *)
Theorem chunk_completion_updates_progress s record msg d :
  format record = Ok msg ->
  (String.length msg <= 4300)%nat ->
  re_search re_part_created msg = Some d ->
  let s' := fst (QueueHandler.emit s record) in
  let ev := snd (QueueHandler.emit s record) in
  let total := announced_total s msg in
  progress s' = progress s + 1 /\
  total_parts s' = total /\
  (total <> 0 ->
   Z.abs (progress s + 1) < 2 ^ 1022 * Z.abs total ->
   exists q,
     PyFloat.int_truediv (progress s + 1) total = Ok q /\
     progress_percentage s' = PFloat (SFmul PyFloat.prec PyFloat.emax q (PyFloat.float 100)) /\
     ev = announce_events msg ++ [update_pb_emit (progress_percentage s'); processEvents]) /\
  updates (snd (QueueHandler.emit_all SharedState_init
                  (map log_debug ["text_parts: 5"; "part-1 created";
                                  "part-2 created"; "part-3 created"])))
  = [PFloat (PyFloat.float 20); PFloat (PyFloat.float 40); PFloat (PyFloat.float 60)].
Proof.
  intros Hf _ Hm s' ev total. subst s' ev.
  rewrite (emit_part_created s record msg d Hf Hm). fold total.
  split; [by destruct (PyFloat.int_truediv _ _)|].
  split; [by destruct (PyFloat.int_truediv _ _)|].
  split; [|by vm_compute].
  intros Ht Hlt. destruct (PyFloatFacts.int_truediv_ok _ _ Ht Hlt) as (q & Hq & _).
  rewrite Hq. exists q. by repeat split.
Qed.

Section LoggerProps.

Context {Ext : Type}.

Lemma callHandlers_length hs r :
  length (fst (callHandlers hs r)) = length hs.
Proof.
  induction hs as [|h hs IH]; [done|]. cbn [callHandlers].
  destruct (QueueHandler.emit h r) as [h' ev].
  destruct (callHandlers hs r) as [hs' ev']. cbn in *. by rewrite IH.
Qed.

Lemma callHandlers_events hs r :
  Forall (fun e => handler_event e = true) (snd (callHandlers hs r)).
Proof.
  induction hs as [|h hs IH]; [constructor|]. cbn [callHandlers].
  pose proof (emit_handler_events h r) as H.
  destruct (QueueHandler.emit h r) as [h' ev].
  destruct (callHandlers hs r) as [hs' ev']. cbn [snd] in *.
  by apply Forall_app.
Qed.

Lemma log_all_spec (records : list LogRecord) (w : World Ext) :
  exists w' ev, log_all records w = (Ok tt, w') /\ logged w w' ev.
Proof.
  revert w. induction records as [|r rs IH]; intros w.
  - exists w, []. split; [done|]. unfold logged, stepped. rewrite app_nil_r. by repeat split.
  - cbn [log_all]. unfold bind at 1. unfold log.
    pose proof (callHandlers_length (handlers w) r) as Hl.
    pose proof (callHandlers_events (handlers w) r) as He.
    destruct (callHandlers (handlers w) r) as [hs ev]. cbn [fst snd] in *.
    destruct (IH (record_events ev (set_handlers (fun _ => hs) w)))
      as (w' & ev' & Hrun & (H1 & H2 & H4 & H5) & H6 & H7 & H8).
    exists w', (ev ++ ev'). split; [done|].
    cbn in *. unfold logged, stepped. rewrite H5, <- app_assoc.
    repeat split; try done. { congruence. } by apply Forall_app.
Qed.

End LoggerProps.

(** ** Properties of the chunk files *)

Lemma passes_read_inv out ps :
  forall (fs F0 : gmap string File) (R : list string),
    (forall q, q ∈ R -> no_text fs q) ->
    (forall q, fs !! q = F0 !! q \/ no_text fs q) ->
    passes_read out ps fs ->
    NoDup (map pass_path ps) /\
    (forall p, p ∈ ps ->
               (pass_path p ∉ R) /\ F0 !! pass_path p = Some (TextFile (pass_text p))).
Proof.
  induction ps as [|p rest IH]; intros fs F0 R HR HF Hread.
  - split; [constructor|]. intros p Hp. by apply elem_of_nil in Hp.
  - destruct Hread as [Hp Hrest].
    assert (HpR : pass_path p ∉ R).
    { intros Hin. by apply (HR _ Hin (pass_text p)). }
    assert (HpF : F0 !! pass_path p = Some (TextFile (pass_text p))).
    { destruct (HF (pass_path p)) as [<-|Hno]; [done|]. by destruct (Hno (pass_text p)). }
    set (fs' := delete (pass_path p) (<[out := AudioFile (pass_text p)]> fs)) in *.
    assert (Hstep : forall q, no_text fs q -> no_text fs' q).
    { intros q Hq t. subst fs'.
      destruct (decide (pass_path p = q)) as [->|Hne1]; [by rewrite lookup_delete_eq|].
      rewrite lookup_delete_ne by done.
      destruct (decide (out = q)) as [->|Hne2]; [by rewrite lookup_insert_eq|].
      rewrite lookup_insert_ne by done. apply Hq. }
    assert (Hdel : no_text fs' (pass_path p)).
    { intros t. subst fs'. by rewrite lookup_delete_eq. }
    destruct (IH fs' F0 (pass_path p :: R)) as [Hnd Hall]; [| |done|].
    + intros q [->|Hq]%elem_of_cons; [done|]. by apply Hstep, HR.
    + intros q. destruct (decide (pass_path p = q)) as [<-|Hne1]; [by right|].
      destruct (decide (out = q)) as [<-|Hne2].
      { right. intros t. subst fs'. rewrite lookup_delete_ne by done.
        by rewrite lookup_insert_eq. }
      destruct (HF q) as [<-|Hno]; [left|right; by apply Hstep].
      subst fs'. rewrite lookup_delete_ne by done. by rewrite lookup_insert_ne.
    + split.
      * cbn [map]. apply NoDup_cons; split; [|done].
        intros (p' & Heq & Hin)%list_elem_of_fmap.
        destruct (Hall p' Hin) as [Hnot _]. apply Hnot. rewrite <- Heq. by left.
      * intros p' [->|Hin]%elem_of_cons; [done|].
        destruct (Hall p' Hin) as [Hnot Hl]. split; [|done].
        intros Hr. apply Hnot. by right.
Qed.

Lemma passes_read_texts out ps (fs : gmap string File) :
  passes_read out ps fs ->
  NoDup (map pass_path ps) /\
  Forall (fun p => fs !! pass_path p = Some (TextFile (pass_text p))) ps.
Proof.
  intros Hread.
  destruct (passes_read_inv out ps fs fs [] ) as [Hnd Hall]; [| |done|].
  - intros q Hq. by apply elem_of_nil in Hq.
  - intros q. by left.
  - split; [done|]. apply Forall_forall. intros p Hp. by apply Hall.
Qed.

Lemma files_after_kept out ps (fs : gmap string File) q :
  q ∉ map pass_path ps -> is_Some (fs !! q) -> is_Some (files_after out ps fs !! q).
Proof.
  revert fs. induction ps as [|p rest IH]; intros fs Hq Hs; [done|].
  cbn [files_after fold_left]. apply IH.
  - intros Hin. apply Hq. by right.
  - rewrite lookup_delete_ne.
    + destruct (decide (out = q)) as [->|Hne]; [by rewrite lookup_insert_eq|].
      by rewrite lookup_insert_ne.
    + intros Heq. apply Hq. rewrite <- Heq. by left.
Qed.

Lemma write_chunks_written chunks (fs : gmap string File) q :
  q ∈ map fst chunks -> exists t, write_chunks chunks fs !! q = Some (TextFile t).
Proof.
  revert fs. unfold write_chunks.
  induction chunks as [|[p t] rest IH] using rev_ind; intros fs Hq.
  - by apply elem_of_nil in Hq.
  - rewrite fold_left_app. cbn [fold_left fst snd].
    destruct (decide (p = q)) as [->|Hne]; [exists t; by rewrite lookup_insert_eq|].
    rewrite lookup_insert_ne by done. apply IH.
    rewrite map_app in Hq. apply elem_of_app in Hq as [Hq|Hq]; [done|].
    apply list_elem_of_singleton in Hq. cbn in Hq. congruence.
Qed.

Lemma write_chunks_lookup chunks (fs : gmap string File) p t :
  NoDup (map fst chunks) -> (p, t) ∈ chunks ->
  write_chunks chunks fs !! p = Some (TextFile t).
Proof.
  revert fs. unfold write_chunks.
  induction chunks as [|[p' t'] rest IH] using rev_ind; intros fs Hnd Hin.
  - by apply elem_of_nil in Hin.
  - rewrite fold_left_app. cbn [fold_left fst snd].
    rewrite map_app in Hnd. apply NoDup_app in Hnd as (Hnd & Hdisj & _).
    apply elem_of_app in Hin as [Hin|Hin].
    + rewrite lookup_insert_ne; [by apply IH|].
      intros ->. apply (Hdisj p); [|by left].
      apply list_elem_of_fmap. by exists (p, t).
    + apply list_elem_of_singleton in Hin. injection Hin as -> ->.
      by rewrite lookup_insert_eq.
Qed.

Lemma passes_are_chunks ps chunks (F : gmap string File) :
  map pass_path ps = map fst chunks ->
  NoDup (map fst chunks) ->
  Forall (fun p => write_chunks chunks F !! pass_path p = Some (TextFile (pass_text p))) ps ->
  map (fun p => (pass_path p, pass_text p)) ps = chunks.
Proof.
  intros Hmap Hnd Hall.
  assert (Hgen : forall cs, map pass_path ps = map fst cs -> cs ⊆ chunks ->
                            map (fun p => (pass_path p, pass_text p)) ps = cs).
  { clear Hmap. induction Hall as [|p ps Hp _ IH]; intros [|[q t] cs] Hm Hsub; try done.
    cbn in Hm. injection Hm as Hq Hm. cbn [map]. f_equal.
    - f_equal; [done|].
      assert (Hin : (q, t) ∈ chunks) by (apply Hsub; by left).
      pose proof (write_chunks_lookup chunks F q t Hnd Hin) as Hl.
      rewrite Hq in Hp. congruence.
    - apply IH; [done|]. intros c Hc. apply Hsub. by right. }
  by apply Hgen.
Qed.

(** ** Properties of the steps of a run *)

Section StepProps.

Context {Ext : Type}.
Variable clean_text : string -> Ext -> Exc string * Ext.
Variable tts_word_count : string -> string -> bool -> Ext -> Exc (list (string * string)) * Ext.
Variable construct_filename : string -> string -> string.
Variable gTTS : string -> string -> string -> Ext -> list LogRecord * Exc unit * Ext.
Variable save : gTTS_object -> string -> Ext -> list LogRecord * Exc unit * Ext.

Lemma stepped_trans (w1 w2 w3 : World Ext) ev1 ev2 :
  stepped w1 w2 ev1 -> stepped w2 w3 ev2 -> stepped w1 w3 (ev1 ++ ev2).
Proof.
  intros (A1 & A2 & A4 & A5) (B1 & B2 & B4 & B5).
  unfold stepped. rewrite B5, A5, app_assoc. repeat split; congruence.
Qed.

Ltac wsimpl :=
  cbn [split_txt_checkbox currentPath files dirs handlers ext trace
       record_events set_ext set_files set_dirs set_handlers fst snd] in *.

Ltac munfold :=
  unfold bind, signal, modify, gets, ret, raise, lift_exc; wsimpl.

Lemma do_gTTS_spec text lang tld (w : World Ext) :
  exists w' ev r,
    do_gTTS gTTS text lang tld w =
      (match r with Ok _ => Ok (mkgTTS text lang tld) | Raise e => Raise e end, w') /\
    r = snd (fst (gTTS text lang tld (ext w))) /\
    stepped w w' (call_gTTS text lang tld :: ev) /\
    files w' = files w /\
    Forall (fun e => handler_event e = true) ev.
Proof.
  unfold do_gTTS. munfold.
  destruct (gTTS text lang tld (ext w)) as [[logs r] e] eqn:Hg. wsimpl.
  set (w1 := set_ext e (record_events [call_gTTS text lang tld] w)).
  destruct (log_all_spec logs w1) as (w' & ev & Hrun & (H1 & H2 & H4 & H5) & H6 & H7 & H8).
  rewrite Hrun. exists w', ev, r.
  split; [by destruct r|]. split; [done|]. subst w1. wsimpl.
  unfold stepped. rewrite H5, <- app_assoc. by repeat split.
Qed.

Lemma do_save_spec tts output_file (w : World Ext) :
  exists w' ev r,
    do_save save tts output_file w = (r, w') /\
    r = snd (fst (save tts output_file (ext w))) /\
    stepped w w' (call_save (tts_text tts) output_file :: ev) /\
    files w' = match r with
               | Ok _ => <[output_file := AudioFile (tts_text tts)]> (files w)
               | Raise _ => files w
               end /\
    Forall (fun e => handler_event e = true) ev.
Proof.
  unfold do_save. munfold.
  destruct (save tts output_file (ext w)) as [[logs r] e] eqn:Hg. wsimpl.
  set (w1 := set_ext e (record_events [call_save (tts_text tts) output_file] w)).
  destruct (log_all_spec logs w1) as (w' & ev & Hrun & (H1 & H2 & H4 & H5) & H6 & H7 & H8).
  rewrite Hrun. subst w1. wsimpl.
  destruct r as [[]|x].
  - eexists _, ev, (Ok tt). split; [done|]. split; [done|]. wsimpl.
    unfold stepped. wsimpl. rewrite H5, H6, <- app_assoc. by repeat split.
  - exists w', ev, (Raise x). split; [done|]. split; [done|].
    unfold stepped. rewrite H5, <- app_assoc. by repeat split.
Qed.

Lemma open_read_spec path (w : World Ext) :
  open_read path w =
    (match files w !! path with
     | Some (TextFile content) => Ok content
     | Some (AudioFile _) => Raise UnicodeDecodeError
     | None => if decide (path ∈ dirs w) then Raise (IsADirectoryError path)
               else Raise (FileNotFoundError path)
     end, record_events [call_open_read path] w).
Proof.
  unfold open_read. munfold.
  destruct (files w !! path) as [[c|c]|]; try done. by case_decide.
Qed.

Lemma os_remove_spec path (w : World Ext) :
  is_Some (files w !! path) ->
  os_remove path w =
    (Ok tt, set_files (delete path) (record_events [call_remove path] w)).
Proof.
  intros [f Hf]. unfold os_remove. munfold. by rewrite Hf.
Qed.

Lemma reset_shared_state_spec k (w : World Ext) :
  exists w',
    reset_shared_state k w = (Ok tt, w') /\
    stepped w w' [] /\ files w' = files w /\ ext w' = ext w /\
    ((k < length (handlers w))%nat -> handlers w' !! k = Some SharedState_init).
Proof.
  unfold reset_shared_state. munfold. eexists; split; [done|]. wsimpl.
  unfold stepped. wsimpl. rewrite app_nil_r, !length_alter.
  repeat split; try done. intros Hk.
  destruct (lookup_lt_is_Some_2 (handlers w) k Hk) as [s Hs].
  by rewrite !list_lookup_alter_eq, Hs.
Qed.

Lemma for_body_spec pdf k n c p (w : World Ext) :
  let out := construct_filename pdf "tts_ps" in
  exists r w',
    for_body construct_filename gTTS save pdf k n c p w = (r, w') /\
    ((exists text logs1 logs2,
         r = Ok tt /\
         files w !! p = Some (TextFile text) /\
         stepped w w' (chunk_events pdf n c p text out logs1 logs2) /\
         Forall (fun e => handler_event e = true) logs1 /\
         Forall (fun e => handler_event e = true) logs2 /\
         files w' = delete p (<[out := AudioFile text]> (files w)) /\
         ((k < length (handlers w))%nat -> handlers w' !! k = Some SharedState_init))
     \/
     (exists e f,
         r = Raise e /\
         stepped w w' (failed_events pdf n c p out f) /\
         Forall (fun e => handler_event e = true) (failure_logs f) /\
         files w' = files w /\
         match f with
         | read_failed => forall t, files w !! p <> Some (TextFile t)
         | gTTS_failed t _ | save_failed t _ _ => files w !! p = Some (TextFile t)
         end)).
Proof.
  intros out. unfold for_body.
  unfold bind at 1. unfold signal at 1, modify at 1.
  set (lbl := revise_pb_label_emit _).
  unfold bind at 1. rewrite open_read_spec. wsimpl.
  set (w1 := record_events [call_open_read p] (record_events [lbl] w)).
  assert (Hw1 : stepped w w1 [lbl; call_open_read p]).
  { unfold stepped; subst w1; wsimpl. by rewrite <- app_assoc. }
  assert (Hf1 : files w1 = files w) by done.
  destruct (files w !! p) as [[text|a]|] eqn:Hp.
  2:{ eexists _, w1. split; [done|]. right. exists UnicodeDecodeError, read_failed.
      split; [done|]. split; [exact Hw1|]. by repeat split. }
  2:{ exists (Raise (if decide (p ∈ dirs w) then IsADirectoryError p
                     else FileNotFoundError p)), w1.
      split; [by case_decide|]. right. eexists _, read_failed.
      split; [done|]. split; [exact Hw1|]. by repeat split. }
  unfold bind at 1.
  destruct (do_gTTS_spec text "en" "us" w1) as (w2 & ev1 & r1 & Hrun1 & _ & Hw2 & Hf2 & Hl1).
  rewrite Hrun1. clearbody w1.
  destruct r1 as [[]|e1].
  2:{ eexists _, w2. split; [done|]. right. exists e1, (gTTS_failed text ev1).
      cbn [failed_events failure_logs].
      split; [done|]. split; [apply (stepped_trans _ _ _ _ _ Hw1 Hw2)|].
      split; [done|]. split; [congruence|done]. }
  unfold bind at 1. unfold do_construct_filename at 1.
  unfold bind at 1, signal at 1, modify at 1, ret at 1. fold out.
  set (w3 := record_events [call_construct_filename pdf "tts_ps"] w2).
  assert (Hw3 : stepped w2 w3 [call_construct_filename pdf "tts_ps"]).
  { unfold stepped; subst w3; by wsimpl. }
  assert (Hf3 : files w3 = files w2) by done.
  clearbody w3.
  unfold bind at 1.
  destruct (do_save_spec (mkgTTS text "en" "us") out w3)
    as (w4 & ev2 & r2 & Hrun2 & _ & Hw4 & Hf4 & Hl2).
  rewrite Hrun2. cbn [tts_text] in *.
  pose proof (stepped_trans _ _ _ _ _ (stepped_trans _ _ _ _ _ (stepped_trans _ _ _ _ _ Hw1 Hw2) Hw3) Hw4) as Hw14.
  destruct r2 as [[]|e2].
  2:{ eexists _, w4. split; [done|]. right. exists e2, (save_failed text ev1 ev2).
      cbn [failed_events failure_logs].
      split; [done|]. split.
      { unfold stepped in *. destruct Hw14 as (?&?&?&->).
        repeat split; try done. f_equal. cbn. by rewrite <- !app_assoc. }
      split; [by apply Forall_app|]. split; [congruence|done]. }
  unfold bind at 1, signal at 1, modify at 1.
  set (done_msg := op_msgs_emit _).
  unfold bind at 1, signal at 1, modify at 1.
  unfold bind at 1.
  set (w5 := record_events [update_pb_emit (PInt 0)] (record_events [done_msg] w4)).
  assert (Hw5 : stepped w4 w5 [done_msg; update_pb_emit (PInt 0)]).
  { unfold stepped; subst w5; wsimpl. by rewrite <- app_assoc. }
  assert (Hf5 : files w5 = files w4) by done.
  clearbody w5.
  destruct (reset_shared_state_spec k w5) as (w6 & Hrun6 & Hw6 & Hf6 & _ & Hk6).
  rewrite Hrun6.
  assert (Hp6 : is_Some (files w6 !! p)).
  { rewrite Hf6, Hf5, Hf4, Hf3, Hf2, Hf1.
    destruct (decide (out = p)) as [->|Hne].
    - rewrite lookup_insert_eq. by eexists.
    - rewrite lookup_insert_ne, Hp by done. by eexists. }
  rewrite os_remove_spec by done.
  eexists _, _. split; [done|]. left. exists text, ev1, ev2.
  split; [done|]. split; [done|].
  pose proof (stepped_trans _ _ _ _ _ (stepped_trans _ _ _ _ _ Hw14 Hw5) Hw6) as Hw16.
  split.
  { unfold stepped in *. wsimpl. destruct Hw16 as (?&?&?&->).
    repeat split; try done. rewrite <- !app_assoc. reflexivity. }
  split; [done|]. split; [done|]. wsimpl.
  split; [congruence|].
  intros Hk. apply Hk6.
  destruct Hw14 as (_&_&H14&_), Hw5 as (_&_&H5&_). lia.
Qed.

Lemma stepped_refl (w : World Ext) : stepped w w [].
Proof. unfold stepped. by rewrite app_nil_r. Qed.

Lemma for_output_paths_spec pdf k n paths :
  let out := construct_filename pdf "tts_ps" in
  forall c (w : World Ext),
  exists r w' ps tail,
    for_output_paths construct_filename gTTS save pdf k n c paths w = (r, w') /\
    stepped w w' (passes_events pdf n c out ps ++ tail) /\
    map pass_path ps = take (length ps) paths /\
    Forall pass_logs_ok ps /\
    passes_read out ps (files w) /\
    files w' = files_after out ps (files w) /\
    ((r = Ok tt /\ length ps = length paths /\ tail = [] /\
      (paths <> [] -> (k < length (handlers w))%nat ->
       handlers w' !! k = Some SharedState_init))
     \/
     (exists e f p,
         r = Raise e /\
         paths !! length ps = Some p /\
         tail = failed_events pdf n (c + Z.of_nat (length ps) + 1) p out f /\
         Forall (fun e => handler_event e = true) (failure_logs f) /\
         match f with
         | read_failed =>
             forall t, files_after out ps (files w) !! p <> Some (TextFile t)
         | gTTS_failed t _ | save_failed t _ _ =>
             files_after out ps (files w) !! p = Some (TextFile t)
         end)).
Proof.
  intros out. induction paths as [|p rest IH]; intros c w.
  - exists (Ok tt), w, [], []. split; [done|]. split; [apply stepped_refl|].
    repeat split; try done. left. by repeat split.
  - cbn [for_output_paths]. unfold bind at 1.
    destruct (for_body_spec pdf k n (c + 1) p w) as (r1 & w1 & Hrun1 & Hcase).
    fold out in Hcase. rewrite Hrun1.
    destruct Hcase as [(text & l1 & l2 & -> & Hp & Hw1 & Hl1 & Hl2 & Hf1 & Hk1)
                      |(e & f & -> & Hw1 & Hl & Hf1 & Hf)].
    + destruct (IH (c + 1) w1) as (r & w' & ps & tail & Hrun & Hw' & Hps & Hlogs & Hread & Hf' & Hcase).
      rewrite Hrun.
      exists r, w', (mkPass p text l1 l2 :: ps), tail.
      split; [done|]. split.
      { cbn [passes_events pass_path pass_text pass_logs1 pass_logs2].
        rewrite <- app_assoc. by apply (stepped_trans _ _ _ _ _ Hw1). }
      split; [cbn; by rewrite Hps|].
      split; [by constructor|].
      split; [cbn [passes_read pass_path pass_text]; by rewrite <- Hf1|].
      split; [cbn [files_after fold_left pass_path pass_text]; by rewrite <- Hf1|].
      destruct Hcase as [(-> & Hlen & -> & Hk)|(e & f & q & -> & Hq & -> & Hl & Hf)].
      * left. split; [done|]. split; [cbn; by rewrite Hlen|]. split; [done|].
        intros _ Hlt. destruct rest as [|q rest'].
        -- destruct ps; [|done]. cbn [for_output_paths] in Hrun.
           injection Hrun as <-. by apply Hk1.
        -- apply Hk; [done|]. destruct Hw1 as (_&_&->&_). done.
      * right. exists e, f, q. split; [done|]. split; [done|].
        split; [f_equal; cbn [length]; lia|]. split; [done|].
        cbn [files_after fold_left pass_path pass_text]. by rewrite <- Hf1.
    + exists (Raise e), w1, [], (failed_events pdf n (c + 1) p out f).
      split; [done|]. split; [done|]. repeat split; try done.
      right. exists e, f, p. split; [done|]. split; [done|].
      split; [f_equal; cbn [length]; lia|]. split; [done|]. done.
Qed.

Lemma get_temp_dir_spec (w : World Ext) :
  let mk := if decide (temp_dir w ∈ dirs w) then [] else [call_mkdir (temp_dir w)] in
  exists r w',
    get_temp_dir w = (r, w') /\
    stepped w w' mk /\ files w' = files w /\ ext w' = ext w /\
    (r = Ok (temp_dir w) \/ r = Raise (FileExistsError (temp_dir w))).
Proof.
  intros mk. subst mk. unfold get_temp_dir, os_mkdir. munfold. fold (temp_dir w).
  destruct (decide (temp_dir w ∈ dirs w)) as [Hin|Hin].
  - eexists _, _. split; [done|]. split; [apply stepped_refl|]. repeat split; by left.
  - rewrite decide_False by done.
    destruct (files w !! temp_dir w) as [f|].
    + eexists _, _. split; [done|]. unfold stepped. wsimpl. repeat split; try done. by right.
    + eexists _, _. split; [done|]. unfold stepped. wsimpl. repeat split; try done. by left.
Qed.

Lemma convert_try_extraction_failed pdf k (w : World Ext) e x :
  clean_text pdf (ext w) = (Raise e, x) ->
  convert_try clean_text tts_word_count construct_filename gTTS save pdf k w =
    (Raise e, set_ext x (record_events [call_clean_text pdf] w)).
Proof.
  intros H. unfold convert_try, do_clean_text. munfold. by rewrite H.
Qed.

Lemma convert_try_split pdf k (w : World Ext) text x1 :
  split_txt_checkbox w = true ->
  clean_text pdf (ext w) = (Ok text, x1) ->
  let out := construct_filename pdf "tts_ps" in
  let mk := if decide (temp_dir w ∈ dirs w) then [] else [call_mkdir (temp_dir w)] in
  let chunker := call_tts_word_count text (temp_file w) true in
  exists r w',
    convert_try clean_text tts_word_count construct_filename gTTS save pdf k w = (r, w') /\
    ((r = Raise (FileExistsError (temp_dir w)) /\ files w' = files w /\
      stepped w w' (call_clean_text pdf :: mk))
     \/
     (exists e x2,
         tts_word_count text (temp_file w) true x1 = (Raise e, x2) /\
         r = Raise e /\ files w' = files w /\
         stepped w w' (call_clean_text pdf :: mk ++ [chunker]))
     \/
     (exists chunks x2 ps tail,
         tts_word_count text (temp_file w) true x1 = (Ok chunks, x2) /\
         stepped w w' (call_clean_text pdf :: mk ++ [chunker]
                         ++ passes_events pdf (length chunks) 0 out ps ++ tail) /\
         map pass_path ps = take (length ps) (map fst chunks) /\
         Forall pass_logs_ok ps /\
         passes_read out ps (write_chunks chunks (files w)) /\
         files w' = files_after out ps (write_chunks chunks (files w)) /\
         ((r = Ok tt /\ length ps = length chunks /\ tail = [] /\
           (chunks <> [] -> (k < length (handlers w))%nat ->
            handlers w' !! k = Some SharedState_init))
          \/
          (exists e f p,
              r = Raise e /\
              map fst chunks !! length ps = Some p /\
              tail = failed_events pdf (length chunks) (0 + Z.of_nat (length ps) + 1) p out f /\
              Forall (fun e => handler_event e = true) (failure_logs f) /\
              match f with
              | read_failed =>
                  forall t, files_after out ps (write_chunks chunks (files w)) !! p
                            <> Some (TextFile t)
              | gTTS_failed t _ | save_failed t _ _ =>
                  files_after out ps (write_chunks chunks (files w)) !! p
                  = Some (TextFile t)
              end)))).
Proof.
  intros Hsplit Hclean out mk chunker.
  unfold convert_try, do_clean_text.
  unfold bind at 1. unfold bind at 1, signal at 1, modify at 1. wsimpl.
  rewrite Hclean. unfold bind at 1, gets at 1. wsimpl. rewrite Hsplit.
  set (w1 := set_ext x1 (record_events [call_clean_text pdf] w)).
  assert (Hw1 : stepped w w1 [call_clean_text pdf]) by (by unfold stepped).
  unfold bind at 1.
  destruct (get_temp_dir_spec w1) as (r2 & w2 & Hrun2 & Hw2 & Hf2 & Hx2 & Hr2).
  change (temp_dir w1) with (temp_dir w) in *. change (dirs w1) with (dirs w) in *.
  fold mk in Hw2. rewrite Hrun2.
  pose proof (stepped_trans _ _ _ _ _ Hw1 Hw2) as Hw12.
  destruct Hr2 as [->| ->].
  2:{ eexists _, w2. split; [done|]. left. split; [done|]. split; [done|]. exact Hw12. }
  fold (temp_file w). unfold do_tts_word_count.
  unfold bind at 1. unfold bind at 1, signal at 1, modify at 1. wsimpl.
  fold chunker. rewrite Hx2. cbn [ext w1 set_ext].
  destruct (tts_word_count text (temp_file w) true x1) as [[chunks|e] x2] eqn:Hchunk.
  2:{ eexists _, _. split; [done|]. right; left. exists e, x2.
      split; [done|]. split; [done|]. wsimpl. split; [done|].
      destruct Hw12 as (?&?&?&Ht). unfold stepped. wsimpl. rewrite Ht, <- app_assoc.
      by repeat split. }
  set (w3 := set_files (write_chunks chunks) (set_ext x2 (record_events [chunker] w2))).
  assert (Hw3 : stepped w w3 (call_clean_text pdf :: mk ++ [chunker])).
  { destruct Hw12 as (?&?&?&Ht). unfold stepped. subst w3. wsimpl.
    rewrite Ht, <- app_assoc. by repeat split. }
  assert (Hf3 : files w3 = write_chunks chunks (files w)) by (subst w3; wsimpl; by rewrite Hf2).
  clearbody w3.
  destruct (for_output_paths_spec pdf k (length (map fst chunks)) (map fst chunks) 0 w3)
    as (r & w' & ps & tail & Hrun & Hw' & Hps & Hlogs & Hread & Hf' & Hcase).
  fold out in Hrun, Hw', Hread, Hf', Hcase.
  rewrite Hrun. rewrite length_map in *. rewrite Hf3 in *.
  exists r, w'. split; [done|]. right; right. exists chunks, x2, ps, tail.
  split; [done|]. split.
  { pose proof (stepped_trans _ _ _ _ _ Hw3 Hw') as H. cbn in H.
    by rewrite <- app_assoc in H. }
  split; [done|]. split; [done|]. split; [done|]. split; [done|].
  destruct Hcase as [(-> & Hlen & -> & Hk)|Hfail].
  - left. split; [done|]. split; [done|]. split; [done|].
    intros Hne Hlt. apply Hk.
    + by destruct chunks.
    + destruct Hw3 as (_&_&->&_). done.
  - by right.
Qed.

Lemma convert_try_single pdf k (w : World Ext) text x1 :
  split_txt_checkbox w = false ->
  clean_text pdf (ext w) = (Ok text, x1) ->
  let out := construct_filename pdf "tts_ps" in
  let synth := [call_clean_text pdf; call_gTTS text "en" "us"] in
  let write := [call_construct_filename pdf "tts_ps"; call_save text out] in
  exists r w' l1,
    convert_try clean_text tts_word_count construct_filename gTTS save pdf k w = (r, w') /\
    Forall (fun e => handler_event e = true) l1 /\
    ((exists e, r = Raise e /\ files w' = files w /\ stepped w w' (synth ++ l1))
     \/
     exists l2,
       Forall (fun e => handler_event e = true) l2 /\
       ((exists e, r = Raise e /\ files w' = files w /\
                   stepped w w' (synth ++ l1 ++ write ++ l2))
        \/
        (r = Ok tt /\ files w' = <[out := AudioFile text]> (files w) /\
         stepped w w' (synth ++ l1 ++ write ++ l2
                         ++ [op_msgs_emit ("Conversion complete. Output: " +:+ out)])))).
Proof.
  intros Hsplit Hclean out synth write.
  unfold convert_try, do_clean_text.
  unfold bind at 1. unfold bind at 1, signal at 1, modify at 1. wsimpl.
  rewrite Hclean. unfold bind at 1, gets at 1. wsimpl. rewrite Hsplit.
  set (w1 := set_ext x1 (record_events [call_clean_text pdf] w)).
  assert (Hw1 : stepped w w1 [call_clean_text pdf]) by (by unfold stepped).
  assert (Hf1 : files w1 = files w) by done.
  clearbody w1. unfold bind at 1.
  destruct (do_gTTS_spec text "en" "us" w1) as (w2 & l1 & r1 & Hrun1 & _ & Hw2 & Hf2 & Hl1).
  rewrite Hrun1. pose proof (stepped_trans _ _ _ _ _ Hw1 Hw2) as Hw12.
  destruct r1 as [[]|e1].
  2:{ eexists _, w2, l1. split; [done|]. split; [done|]. left. exists e1.
      split; [done|]. split; [congruence|done]. }
  unfold bind at 1. unfold do_construct_filename at 1.
  unfold bind at 1, signal at 1, modify at 1, ret at 1. fold out.
  set (w3 := record_events [call_construct_filename pdf "tts_ps"] w2).
  assert (Hw3 : stepped w2 w3 [call_construct_filename pdf "tts_ps"]) by (by unfold stepped).
  assert (Hf3 : files w3 = files w2) by done.
  clearbody w3. unfold bind at 1.
  destruct (do_save_spec (mkgTTS text "en" "us") out w3)
    as (w4 & l2 & r2 & Hrun2 & _ & Hw4 & Hf4 & Hl2).
  rewrite Hrun2. cbn [tts_text] in *.
  pose proof (stepped_trans _ _ _ _ _ (stepped_trans _ _ _ _ _ Hw12 Hw3) Hw4) as Hw14.
  assert (Hev : (([call_clean_text pdf] ++ call_gTTS text "en" "us" :: l1)
                   ++ [call_construct_filename pdf "tts_ps"]) ++ call_save text out :: l2
                = synth ++ l1 ++ write ++ l2).
  { subst synth write. rewrite <- !app_assoc. reflexivity. }
  rewrite Hev in Hw14.
  destruct r2 as [[]|e2].
  2:{ eexists _, w4, l1. split; [done|]. split; [done|]. right. exists l2.
      split; [done|]. left. exists e2. split; [done|]. split; [congruence|done]. }
  unfold signal, modify.
  eexists _, _, l1. split; [done|]. split; [done|]. right. exists l2.
  split; [done|]. right. split; [done|]. wsimpl. split; [congruence|].
  destruct Hw14 as (?&?&?&Ht). unfold stepped. wsimpl. rewrite Ht, <- !app_assoc.
  by repeat split.
Qed.

End StepProps.

(** C7. An exception raised while the handler processes a record (a
    record that cannot be formatted, or a chunk-completion message while
    [total_parts] is 0, where the division raises) is caught in [emit] and
    handed to [handleError]; the assignments made before it stay, the
    records after it are processed as usual, and nothing reaches the caller:
    logging never raises in the run, and [gTTS(...)] and [tts.save(...)]
    return or raise as the synthesis client does, whatever happened in the
    handlers. *)
Theorem handler_failure_is_not_fatal s before bad after e s2 ev2 :
  QueueHandler.emit_try (fst (QueueHandler.emit_all s before)) bad = (Raise e, s2, ev2) ->
  QueueHandler.emit (fst (QueueHandler.emit_all s before)) bad = (s2, ev2 ++ [handleError bad]) /\
  QueueHandler.emit_all s (before ++ bad :: after) =
    (fst (QueueHandler.emit_all s2 after),
     snd (QueueHandler.emit_all s before) ++ (ev2 ++ [handleError bad])
       ++ snd (QueueHandler.emit_all s2 after)) /\
  (forall Ext (w : World Ext) records, fst (log_all records w) = Ok tt) /\
  (forall Ext gTTS text lang tld (w : World Ext),
      fst (do_gTTS gTTS text lang tld w) =
        match snd (fst (gTTS text lang tld (ext w))) with
        | Ok _ => Ok (mkgTTS text lang tld)
        | Raise x => Raise x
        end) /\
  (forall Ext save tts output_file (w : World Ext),
      fst (do_save save tts output_file w) = snd (fst (save tts output_file (ext w)))) /\
  QueueHandler.emit_try SharedState_init (log_debug "part-1 created")
  = (Raise ZeroDivisionError, set_progress 1 SharedState_init, []).
Proof.
  intros Htry.
  assert (Hemit : QueueHandler.emit (fst (QueueHandler.emit_all s before)) bad
                  = (s2, ev2 ++ [handleError bad])).
  { unfold QueueHandler.emit. by rewrite Htry. }
  split; [done|]. split.
  { rewrite emit_all_app. cbn [QueueHandler.emit_all]. rewrite Hemit.
    destruct (QueueHandler.emit_all s2 after) as [s3 ev3]. done. }
  split.
  { intros Ext w records. by destruct (log_all_spec records w) as (w' & ev & -> & _). }
  split.
  { intros Ext gTTS text lang tld w.
    by destruct (do_gTTS_spec gTTS text lang tld w) as (w' & ev & r & -> & -> & _). }
  split; [|reflexivity].
  intros Ext save tts output_file w.
  by destruct (do_save_spec save tts output_file w) as (w' & ev & r & -> & -> & _).
Qed.

(** ** Reading the trace of a run *)

Lemma new_events_app {Ext} (w w' : World Ext) ev :
  trace w' = trace w ++ ev -> new_events w w' = ev.
Proof. intros H. unfold new_events. rewrite H. apply drop_app_length. Qed.

Lemma omap_handler_events {A} (f : Event -> option A) (logs : list Event) :
  (forall e, handler_event e = true -> f e = None) ->
  Forall (fun e => handler_event e = true) logs ->
  omap f logs = [].
Proof.
  intros Hf. induction 1 as [|e logs He _ IH]; [done|].
  cbn [omap list_omap]. by rewrite (Hf e He).
Qed.

Lemma Forall_False_nil {A} (l : list A) : Forall (fun _ => False) l -> l = [].
Proof. by destruct 1. Qed.

Lemma run_events_handler_events (logs : list Event) :
  Forall (fun e => handler_event e = true) logs -> run_events logs = [].
Proof.
  induction 1 as [|e logs He _ IH]; [done|].
  unfold run_events in *. rewrite filter_cons_False; [done|]. by rewrite He.
Qed.

Lemma run_events_app (a b : list Event) :
  run_events (a ++ b) = run_events a ++ run_events b.
Proof. apply filter_app. Qed.

Lemma calls_app (a b : list Event) : calls (a ++ b) = calls a ++ calls b.
Proof. apply filter_app. Qed.

Lemma calls_cons_call e (l : list Event) : is_call e = true -> calls (e :: l) = e :: calls l.
Proof. intros H. unfold calls. by rewrite filter_cons_True. Qed.

Lemma calls_cons_other e (l : list Event) : is_call e = false -> calls (e :: l) = calls l.
Proof. intros H. unfold calls. rewrite filter_cons_False; [done|]. by rewrite H. Qed.

Lemma calls_nil : calls [] = [].
Proof. done. Qed.

Ltac calls_simpl :=
  repeat first [ rewrite calls_cons_other by reflexivity
               | rewrite calls_cons_call by reflexivity
               | rewrite calls_nil ].

Lemma calls_handler_events (logs : list Event) :
  Forall (fun e => handler_event e = true) logs -> calls logs = [].
Proof.
  induction 1 as [|e logs He _ IH]; [done|].
  unfold calls in *. rewrite filter_cons_False; [done|].
  destruct e as [| | [] | | | | | | | | | | | ]; cbn in *; congruence.
Qed.

(** The projections of a trace commute with [++] and vanish on what the
    handlers emit. *)
Lemma opens_app a b : opens (a ++ b) = opens a ++ opens b.
Proof. apply omap_app. Qed.
Lemma removes_app a b : removes (a ++ b) = removes a ++ removes b.
Proof. apply omap_app. Qed.
Lemma saves_app a b : saves (a ++ b) = saves a ++ saves b.
Proof. apply omap_app. Qed.
Lemma filename_calls_app a b : filename_calls (a ++ b) = filename_calls a ++ filename_calls b.
Proof. apply omap_app. Qed.
Lemma messages_app a b : messages (a ++ b) = messages a ++ messages b.
Proof. apply omap_app. Qed.
Lemma visibility_app a b : visibility (a ++ b) = visibility a ++ visibility b.
Proof. apply omap_app. Qed.
Lemma error_messages_app a b : error_messages (a ++ b) = error_messages a ++ error_messages b.
Proof. unfold error_messages. by rewrite messages_app, filter_app. Qed.

Section LogsVanish.

Variable logs : list Event.
Hypothesis Hlogs : Forall (fun e => handler_event e = true) logs.

Lemma opens_logs : opens logs = [].
Proof. apply omap_handler_events; [by intros [| | [] | | | | | | | | | | | ]|done]. Qed.
Lemma removes_logs : removes logs = [].
Proof. apply omap_handler_events; [by intros [| | [] | | | | | | | | | | | ]|done]. Qed.
Lemma saves_logs : saves logs = [].
Proof. apply omap_handler_events; [by intros [| | [] | | | | | | | | | | | ]|done]. Qed.
Lemma filename_calls_logs : filename_calls logs = [].
Proof. apply omap_handler_events; [by intros [| | [] | | | | | | | | | | | ]|done]. Qed.
Lemma messages_logs : messages logs = [].
Proof. apply omap_handler_events; [by intros [| | [] | | | | | | | | | | | ]|done]. Qed.
Lemma visibility_logs : visibility logs = [].
Proof. apply omap_handler_events; [by intros [| | [] | | | | | | | | | | | ]|done]. Qed.
Lemma error_messages_logs : error_messages logs = [].
Proof. unfold error_messages. by rewrite messages_logs. Qed.

End LogsVanish.

Ltac proj_app :=
  rewrite ?opens_app, ?removes_app, ?saves_app, ?filename_calls_app, ?messages_app,
    ?visibility_app, ?error_messages_app, ?run_events_app, ?calls_app.

Ltac proj_logs :=
  repeat match goal with
         | H : Forall (fun e => handler_event e = true) ?l |- _ =>
             progress
               (rewrite ?(opens_logs l H), ?(removes_logs l H), ?(saves_logs l H),
                 ?(filename_calls_logs l H), ?(messages_logs l H), ?(visibility_logs l H),
                 ?(error_messages_logs l H), ?(run_events_handler_events l H),
                 ?(calls_handler_events l H))
         end.

Ltac proj := proj_app; proj_logs.

Section TraceProps.

Variables (pdf : string) (n : nat) (out : string).

Lemma run_events_chunk c p t l1 l2 :
  Forall (fun e => handler_event e = true) l1 ->
  Forall (fun e => handler_event e = true) l2 ->
  run_events (chunk_events pdf n c p t out l1 l2) = chunk_run_events pdf n c p t out.
Proof.
  intros H1 H2. unfold chunk_events, chunk_run_events.
  rewrite !run_events_app, (run_events_handler_events _ H1), (run_events_handler_events _ H2).
  reflexivity.
Qed.

Lemma run_events_passes c ps :
  Forall pass_logs_ok ps ->
  run_events (passes_events pdf n c out ps)
  = chunks_run_events pdf n c out (map (fun p => (pass_path p, pass_text p)) ps).
Proof.
  intros H. revert c. induction H as [|p ps [H1 H2] _ IH]; intros c; [done|].
  cbn [passes_events map chunks_run_events].
  by rewrite run_events_app, run_events_chunk, IH.
Qed.

Lemma omap_chunk {A} (f : Event -> option A) c p t l1 l2 :
  (forall e, handler_event e = true -> f e = None) ->
  Forall (fun e => handler_event e = true) l1 ->
  Forall (fun e => handler_event e = true) l2 ->
  omap f (chunk_events pdf n c p t out l1 l2) = omap f (chunk_run_events pdf n c p t out).
Proof.
  intros Hf H1 H2. unfold chunk_run_events, chunk_events.
  rewrite !omap_app, (omap_handler_events f _ Hf H1), (omap_handler_events f _ Hf H2).
  reflexivity.
Qed.

Lemma omap_passes {A} (f : Event -> option A) c ps :
  (forall e, handler_event e = true -> f e = None) ->
  Forall pass_logs_ok ps ->
  omap f (passes_events pdf n c out ps)
  = omap f (chunks_run_events pdf n c out (map (fun p => (pass_path p, pass_text p)) ps)).
Proof.
  intros Hf H. revert c. induction H as [|p ps [H1 H2] _ IH]; intros c; [done|].
  cbn [passes_events map chunks_run_events].
  by rewrite !omap_app, omap_chunk, IH.
Qed.

Lemma saves_chunks c chunks :
  saves (chunks_run_events pdf n c out chunks) = map (fun pt => (snd pt, out)) chunks.
Proof.
  revert c. induction chunks as [|[p t] rest IH]; intros c; [done|].
  cbn [chunks_run_events map]. unfold saves in *. rewrite omap_app, IH. reflexivity.
Qed.

Lemma opens_chunks c chunks :
  opens (chunks_run_events pdf n c out chunks) = map fst chunks.
Proof.
  revert c. induction chunks as [|[p t] rest IH]; intros c; [done|].
  cbn [chunks_run_events map]. unfold opens in *. rewrite omap_app, IH. reflexivity.
Qed.

Lemma removes_chunks c chunks :
  removes (chunks_run_events pdf n c out chunks) = map fst chunks.
Proof.
  revert c. induction chunks as [|[p t] rest IH]; intros c; [done|].
  cbn [chunks_run_events map]. unfold removes in *. rewrite omap_app, IH. reflexivity.
Qed.

Lemma visibility_chunks c chunks :
  visibility (chunks_run_events pdf n c out chunks) = [].
Proof.
  revert c. induction chunks as [|[p t] rest IH]; intros c; [done|].
  cbn [chunks_run_events map]. unfold visibility in *. rewrite omap_app, IH. reflexivity.
Qed.

Lemma error_messages_chunks c chunks :
  filter (fun s => is_error_message s = true)
         (messages (chunks_run_events pdf n c out chunks)) = [].
Proof.
  revert c. induction chunks as [|[p t] rest IH]; intros c; [done|].
  cbn [chunks_run_events map]. unfold messages in *. rewrite omap_app, filter_app, IH.
  reflexivity.
Qed.

Lemma filename_calls_chunks c chunks :
  filename_calls (chunks_run_events pdf n c out chunks)
  = map (fun _ => (pdf, "tts_ps")) chunks.
Proof.
  revert c. induction chunks as [|[p t] rest IH]; intros c; [done|].
  cbn [chunks_run_events map]. unfold filename_calls in *. rewrite omap_app, IH. reflexivity.
Qed.

Lemma omap_failed {A} (f : Event -> option A) c p fl :
  (forall e, handler_event e = true -> f e = None) ->
  Forall (fun e => handler_event e = true) (failure_logs fl) ->
  omap f (failed_events pdf n c p out fl)
  = omap f (failed_events pdf n c p out (failure_no_logs fl)).
Proof.
  intros Hf Hl. unfold failed_events.
  destruct fl as [|t l1|t l1 l2]; cbn [failure_logs failure_no_logs] in *; [done| |].
  - rewrite !omap_app, (omap_handler_events f _ Hf Hl). reflexivity.
  - apply Forall_app in Hl as [H1 H2].
    rewrite !omap_app, (omap_handler_events f _ Hf H1), (omap_handler_events f _ Hf H2).
    reflexivity.
Qed.

Lemma opens_passes c ps :
  Forall pass_logs_ok ps -> opens (passes_events pdf n c out ps) = map pass_path ps.
Proof.
  intros H. unfold opens. rewrite omap_passes; [|by intros [| | [] | | | | | | | | | | | ]|done].
  fold (opens (chunks_run_events pdf n c out (map (fun p => (pass_path p, pass_text p)) ps))).
  rewrite opens_chunks, map_map. done.
Qed.

Lemma removes_passes c ps :
  Forall pass_logs_ok ps -> removes (passes_events pdf n c out ps) = map pass_path ps.
Proof.
  intros H. unfold removes. rewrite omap_passes; [|by intros [| | [] | | | | | | | | | | | ]|done].
  fold (removes (chunks_run_events pdf n c out (map (fun p => (pass_path p, pass_text p)) ps))).
  rewrite removes_chunks, map_map. done.
Qed.

Lemma saves_passes c ps :
  Forall pass_logs_ok ps ->
  saves (passes_events pdf n c out ps) = map (fun p => (pass_text p, out)) ps.
Proof.
  intros H. unfold saves. rewrite omap_passes; [|by intros [| | [] | | | | | | | | | | | ]|done].
  fold (saves (chunks_run_events pdf n c out (map (fun p => (pass_path p, pass_text p)) ps))).
  rewrite saves_chunks, map_map. done.
Qed.

Lemma opens_failed c p fl :
  Forall (fun e => handler_event e = true) (failure_logs fl) ->
  opens (failed_events pdf n c p out fl) = [p].
Proof.
  intros H. unfold opens.
  rewrite omap_failed; [|by intros [| | [] | | | | | | | | | | | ]|done]. by destruct fl.
Qed.

Lemma removes_failed c p fl :
  Forall (fun e => handler_event e = true) (failure_logs fl) ->
  removes (failed_events pdf n c p out fl) = [].
Proof.
  intros H. unfold removes.
  rewrite omap_failed; [|by intros [| | [] | | | | | | | | | | | ]|done]. by destruct fl.
Qed.

End TraceProps.

(** ** The conversion orchestrator *)

Section RunProps.

Context {Ext : Type}.
Variable clean_text : string -> Ext -> Exc string * Ext.
Variable tts_word_count : string -> string -> bool -> Ext -> Exc (list (string * string)) * Ext.
Variable construct_filename : string -> string -> string.
Variable gTTS : string -> string -> string -> Ext -> list LogRecord * Exc unit * Ext.
Variable save : gTTS_object -> string -> Ext -> list LogRecord * Exc unit * Ext.

Local Abbreviation run := (convert clean_text tts_word_count construct_filename gTTS save).
Local Abbreviation run_try :=
  (convert_try clean_text tts_word_count construct_filename gTTS save).
Local Abbreviation run_raised :=
  (raised clean_text tts_word_count construct_filename gTTS save).

Lemma after_prologue_spec pdf (w : World Ext) :
  convert_prologue pdf w = (Ok (length (handlers w)), after_prologue pdf w) /\
  trace (after_prologue pdf w) = trace w ++ prologue_events pdf /\
  handlers (after_prologue pdf w) = handlers w ++ [SharedState_init] /\
  files (after_prologue pdf w) = files w /\
  dirs (after_prologue pdf w) = dirs w /\
  ext (after_prologue pdf w) = ext w /\
  split_txt_checkbox (after_prologue pdf w) = split_txt_checkbox w /\
  currentPath (after_prologue pdf w) = currentPath w.
Proof.
  unfold after_prologue, convert_prologue, addHandler, bind, signal, modify, ret.
  cbn. rewrite <- !app_assoc. by repeat split.
Qed.

(** What holds of the body of the [try] however it ends. *)
Lemma convert_try_facts pdf k (w : World Ext) :
  let out := construct_filename pdf "tts_ps" in
  exists r w' ev,
    run_try pdf k w = (r, w') /\
    stepped w w' ev /\
    visibility ev = [] /\
    error_messages ev = [] /\
    Forall (fun a => a = (pdf, "tts_ps")) (filename_calls ev) /\
    Forall (fun so => so.2 = out) (saves ev).
Proof.
  intros out.
  assert (Hnone : forall A (f : Event -> option A),
             (forall e, f e = None) -> forall l, omap f l = []).
  { intros A f Hf l. induction l as [|e l IH]; [done|]. cbn. by rewrite Hf. }
  destruct (clean_text pdf (ext w)) as [[text|e] x1] eqn:Hclean.
  2:{ rewrite (convert_try_extraction_failed _ _ _ _ _ _ _ _ _ _ Hclean).
      eexists _, _, [call_clean_text pdf]. split; [done|]. split; [by unfold stepped|].
      repeat split; by try constructor. }
  destruct (split_txt_checkbox w) eqn:Hsplit.
  - destruct (convert_try_split clean_text tts_word_count construct_filename gTTS save
                pdf k w text x1 Hsplit Hclean) as (r & w' & Hrun & Hcase).
    fold out in Hcase. exists r, w'. rewrite Hrun.
    set (mk := if decide (temp_dir w ∈ dirs w) then [] else [call_mkdir (temp_dir w)]) in *.
    assert (Hmk : mk = [] \/ mk = [call_mkdir (temp_dir w)]).
    { subst mk. case_decide; [by left|by right]. }
    destruct Hcase as [(_ & _ & Hw)|[(e & x2 & _ & _ & _ & Hw)
                        |(chunks & x2 & ps & tail & _ & Hw & _ & Hlogs & _ & _ & Hcase)]].
    + eexists. split; [done|]. split; [exact Hw|].
      destruct Hmk as [-> | ->]; repeat split; by try constructor.
    + eexists. split; [done|]. split; [exact Hw|].
      destruct Hmk as [-> | ->]; repeat split; by try constructor.
    + eexists. split; [done|]. split; [exact Hw|].
      assert (Htail : exists c p fl, (tail = [] \/ tail = failed_events pdf (length chunks) c p out fl)
                                     /\ Forall (fun e => handler_event e = true) (failure_logs fl)).
      { destruct Hcase as [(_ & _ & -> & _)|(e & f & p & _ & _ & -> & Hl & _)].
        - exists 0, "", read_failed. split; [by left|constructor].
        - eexists _, p, f. split; [by right|done]. }
      destruct Htail as (c & p & fl & Htail & Hfl).
      assert (Hproj : forall A (f : Event -> option A),
                 (forall e, handler_event e = true -> f e = None) ->
                 omap f (call_clean_text pdf :: mk ++ [call_tts_word_count text (temp_file w) true]
                           ++ passes_events pdf (length chunks) 0 out ps ++ tail)
                 = omap f ((call_clean_text pdf :: mk)
                             ++ [call_tts_word_count text (temp_file w) true])
                     ++ omap f (chunks_run_events pdf (length chunks) 0 out
                                  (map (fun p => (pass_path p, pass_text p)) ps))
                     ++ omap f tail).
      { intros A f Hf. rewrite app_comm_cons, !app_assoc, !omap_app.
        rewrite (omap_passes _ _ _ f 0 ps Hf Hlogs). by rewrite <- !app_assoc. }
      assert (Hh : forall A (f : Event -> option A) (P : A -> Prop),
                 (forall e, handler_event e = true -> f e = None) ->
                 (forall c p fl, Forall P (omap f (failed_events pdf (length chunks) c p out
                                                (failure_no_logs fl)))) ->
                 Forall P (omap f tail)).
      { intros A f P Hf HP. destruct Htail as [-> | ->]; [constructor|].
        rewrite omap_failed by done. apply HP. }
      split; [|split; [|split]].
      * unfold visibility. rewrite Hproj by (by intros [| | [] | | | | | | | | | | | ]).
        fold (visibility (chunks_run_events pdf (length chunks) 0 out
                            (map (fun p => (pass_path p, pass_text p)) ps))).
        rewrite visibility_chunks.
        assert (omap (fun e => match e with view_pb_emit b => Some b | _ => None end) tail = [])
          as ->.
        { apply Forall_False_nil. apply (Hh _ _ (fun _ => False));
            [by intros [| | [] | | | | | | | | | | | ]|by intros ? ? []]. }
        destruct Hmk as [-> | ->]; reflexivity.
      * unfold error_messages, messages.
        rewrite Hproj by (by intros [| | [] | | | | | | | | | | | ]).
        rewrite !filter_app.
        fold (messages (chunks_run_events pdf (length chunks) 0 out
                            (map (fun p => (pass_path p, pass_text p)) ps))).
        rewrite error_messages_chunks.
        assert (omap (fun e => match e with op_msgs_emit b => Some b | _ => None end) tail = [])
          as ->.
        { apply Forall_False_nil. apply (Hh _ _ (fun _ => False));
            [by intros [| | [] | | | | | | | | | | | ]|by intros ? ? []]. }
        destruct Hmk as [-> | ->]; reflexivity.
      * unfold filename_calls.
        rewrite Hproj by (by intros [| | [] | | | | | | | | | | | ]).
        fold (filename_calls (chunks_run_events pdf (length chunks) 0 out
                            (map (fun p => (pass_path p, pass_text p)) ps))).
        rewrite filename_calls_chunks.
        apply Forall_app; split; [destruct Hmk as [-> | ->]; constructor|].
        apply Forall_app; split; [by apply Forall_fmap, Forall_true|].
        apply Hh; [by intros [| | [] | | | | | | | | | | | ]|].
        intros ? ? []; repeat constructor.
      * unfold saves.
        rewrite Hproj by (by intros [| | [] | | | | | | | | | | | ]).
        fold (saves (chunks_run_events pdf (length chunks) 0 out
                            (map (fun p => (pass_path p, pass_text p)) ps))).
        rewrite saves_chunks.
        apply Forall_app; split; [destruct Hmk as [-> | ->]; constructor|].
        apply Forall_app; split; [by apply Forall_fmap, Forall_true|].
        apply Hh; [by intros [| | [] | | | | | | | | | | | ]|].
        intros ? ? []; repeat constructor.
  - destruct (convert_try_single clean_text tts_word_count construct_filename gTTS save
                pdf k w text x1 Hsplit Hclean) as (r & w' & l1 & Hrun & Hl1 & Hcase).
    fold out in Hcase. exists r, w'. rewrite Hrun.
    destruct Hcase as [(e & _ & _ & Hw)|(l2 & Hl2 & [(e & _ & _ & Hw)|(_ & _ & Hw)])];
      (eexists; split; [done|]; split; [exact Hw|]);
      proj; repeat split; by repeat constructor.
Qed.

Lemma convert_spec pdf (w : World Ext) :
  valid_filetype pdf = true ->
  let ct := run_try pdf (length (handlers w)) (after_prologue pdf w) in
  run pdf w =
    (Ok tt,
     record_events [view_pb_emit false]
       (match fst ct with
        | Ok _ => snd ct
        | Raise e => record_events [op_msgs_emit (error_msg pdf e)] (snd ct)
        end)) /\
  run_raised pdf w = match fst ct with Raise e => Some e | Ok _ => None end.
Proof.
  intros Hv ct. unfold convert, raised. rewrite Hv. cbn [negb].
  destruct (after_prologue_spec pdf w) as (Hp & _).
  unfold bind at 1. rewrite Hp. unfold bind at 1, try_except. fold ct.
  destruct ct as [[u|e] w2]; cbn [fst snd]; [by destruct u|done].
Qed.

(** A run on a valid path: the prologue, the body of the [try], the
    epilogue. *)
Lemma valid_run_spec pdf (w : World Ext) :
  valid_filetype pdf = true ->
  exists r w2 ev,
    run_try pdf (length (handlers w)) (after_prologue pdf w) = (r, w2) /\
    stepped (after_prologue pdf w) w2 ev /\
    new_events w (snd (run pdf w)) = prologue_events pdf ++ ev ++ epilogue_events pdf r /\
    files (snd (run pdf w)) = files w2 /\
    handlers (snd (run pdf w)) = handlers w2 /\
    run_raised pdf w = match r with Raise e => Some e | Ok _ => None end.
Proof.
  intros Hv.
  destruct (convert_spec pdf w Hv) as [Hrun Hraised]. cbn zeta in Hrun, Hraised.
  destruct (after_prologue_spec pdf w) as (_ & Htr & _).
  destruct (convert_try_facts pdf (length (handlers w)) (after_prologue pdf w))
    as (r & w2 & ev & Htry & Hstep & _).
  rewrite Htry in Hrun, Hraised. cbn [fst snd] in Hrun, Hraised.
  exists r, w2, ev. split; [done|]. split; [done|]. rewrite Hrun. cbn [snd].
  destruct Hstep as (_ & _ & _ & Hev).
  rewrite (new_events_app w _ (prologue_events pdf ++ ev ++ epilogue_events pdf r)).
  2:{ destruct r; cbn; rewrite Hev, Htr, <- !app_assoc; done. }
  split; [done|]. by destruct r.
Qed.

Lemma stepped_inj (w1 w2 : World Ext) ev ev' :
  stepped w1 w2 ev -> stepped w1 w2 ev' -> ev = ev'.
Proof.
  intros (_ & _ & _ & H) (_ & _ & _ & H'). rewrite H in H'. by apply app_inv_head in H'.
Qed.

Lemma convert_rejected pdf (w : World Ext) :
  valid_filetype pdf = false ->
  run pdf w = (Ok tt, record_events [op_msgs_emit rejection] w).
Proof. intros Hv. unfold convert. by rewrite Hv. Qed.

Lemma not_ends_invalid pdf : ~ ends_in_pdf_or_txt pdf -> valid_filetype pdf = false.
Proof.
  intros Hno. destruct (valid_filetype pdf) eqn:E; [|done]. by apply valid_filetype_ends in E.
Qed.

(** C6. A source path whose name does not end, whatever the case of the
    letters, in ".pdf" or ".txt" is rejected before extraction: the run
    returns after emitting the one message, which contains
    "is not TXT or PDF"; no collaborator is called (the trace has no call
    and their state is untouched), so nothing is extracted or synthesised,
    and the files are as before, so no output file is created. The name
    "report.docx" is such a path. *)
Theorem convert_rejects_other_filetypes pdf (w : World Ext) :
  ~ ends_in_pdf_or_txt pdf ->
  let w' := snd (run pdf w) in
  fst (run pdf w) = Ok tt /\
  new_events w w' = [op_msgs_emit rejection] /\
  contains rejection "is not TXT or PDF" = true /\
  calls (new_events w w') = [] /\
  ext w' = ext w /\
  files w' = files w /\
  dirs w' = dirs w /\
  handlers w' = handlers w /\
  ~ ends_in_pdf_or_txt "report.docx".
Proof.
  intros Hno%not_ends_invalid w'.
  subst w'. rewrite (convert_rejected pdf w Hno). cbn [fst snd].
  rewrite (new_events_app w _ [op_msgs_emit rejection]) by done.
  repeat split; try done.
  intros H%valid_filetype_ends. by vm_compute in H.
Qed.

(** C5, as amended. A run on a path that passes the file-type validation
    shows the progress indicator once and hides it once, and hiding it is
    the last thing the run does, whether the body of the [try] raised or
    not; a run that rejects the path emits the rejection and nothing
    else: it neither shows nor hides the indicator. *)
Theorem progress_hidden_at_end_of_validated_run pdf (w : World Ext) :
  let w' := snd (run pdf w) in
  (ends_in_pdf_or_txt pdf ->
   last (new_events w w') = Some (view_pb_emit false) /\
   last (trace w') = Some (view_pb_emit false) /\
   visibility (new_events w w') = [true; false]) /\
  (~ ends_in_pdf_or_txt pdf ->
   last (new_events w w') = Some (op_msgs_emit rejection) /\
   visibility (new_events w w') = []).
Proof.
  intros w'. split.
  - intros Hv%valid_filetype_ends.
    destruct (convert_spec pdf w Hv) as [Hrun _]. cbn zeta in Hrun.
    destruct (after_prologue_spec pdf w) as (_ & Htr & _).
    destruct (convert_try_facts pdf (length (handlers w)) (after_prologue pdf w))
      as (r & w2 & ev & Htry & (_ & _ & _ & Hev) & Hvis & _).
    rewrite Htry in Hrun. cbn [fst snd] in Hrun.
    subst w'. rewrite Hrun. cbn [snd].
    rewrite Htr in Hev.
    set (tl := match r with
               | Ok _ => [view_pb_emit false]
               | Raise e => [op_msgs_emit (error_msg pdf e); view_pb_emit false]
               end).
    assert (Hnew : trace (record_events [view_pb_emit false]
                            match r with
                            | Ok _ => w2
                            | Raise e => record_events [op_msgs_emit (error_msg pdf e)] w2
                            end)
                   = trace w ++ prologue_events pdf ++ ev ++ tl).
    { subst tl. destruct r; cbn; rewrite Hev, <- !app_assoc; done. }
    rewrite (new_events_app w _ _ Hnew), Hnew.
    assert (Hlast : forall pre, last (pre ++ tl) = Some (view_pb_emit false)).
    { intros pre. subst tl. destruct r.
      - by rewrite last_snoc.
      - change [?a; ?b] with ([a] ++ [b]). by rewrite app_assoc, last_snoc. }
    split; [by rewrite app_assoc|]. split; [by rewrite !app_assoc|].
    rewrite !visibility_app, Hvis. subst tl. by destruct r.
  - intros Hno%not_ends_invalid. subst w'. rewrite (convert_rejected pdf w Hno).
    cbn [snd]. by rewrite (new_events_app w _ [op_msgs_emit rejection]).
Qed.

(** C4. The run of [convert] never raises: whatever the body of the [try]
    raises (in extraction, chunking, reading or synthesis) is caught, and
    exactly one error message is emitted, which contains the source path
    and the text of the exception. When the extraction itself fails, the
    run is the prologue, the call of the extraction, that one message and
    the hiding of the progress indicator: the synthesis client is not
    called and the files are as before, so there is no audio output. *)
Theorem convert_catches_every_exception pdf (w : World Ext) :
  let w' := snd (run pdf w) in
  fst (run pdf w) = Ok tt /\
  (forall e,
      run_raised pdf w = Some e ->
      error_messages (new_events w w') = [error_msg pdf e] /\
      contains (error_msg pdf e) pdf = true /\
      contains (error_msg pdf e) (str_exc e) = true) /\
  (forall e x,
      ends_in_pdf_or_txt pdf ->
      clean_text pdf (ext w) = (Raise e, x) ->
      run_raised pdf w = Some e /\
      new_events w w' =
        prologue_events pdf
          ++ [call_clean_text pdf; op_msgs_emit (error_msg pdf e); view_pb_emit false] /\
      saves (new_events w w') = [] /\
      files w' = files w).
Proof.
  intros w'. subst w'. split; [|split].
  - destruct (valid_filetype pdf) eqn:Hv.
    + by destruct (convert_spec pdf w Hv) as [-> _].
    + by rewrite convert_rejected.
  - intros e He.
    assert (Hv : valid_filetype pdf = true).
    { unfold raised in He. by destruct (valid_filetype pdf). }
    destruct (convert_spec pdf w Hv) as [Hrun Hraised]. cbn zeta in Hrun, Hraised.
    destruct (after_prologue_spec pdf w) as (_ & Htr & _).
    destruct (convert_try_facts pdf (length (handlers w)) (after_prologue pdf w))
      as (r & w2 & ev & Htry & (_ & _ & _ & Hev) & _ & Herr & _).
    rewrite Htry in Hrun, Hraised. cbn [fst snd] in Hrun, Hraised.
    rewrite He in Hraised. destruct r as [|e']; [done|]. injection Hraised as <-.
    rewrite Hrun. cbn [snd].
    rewrite (new_events_app w _ (prologue_events pdf ++ ev
                                   ++ [op_msgs_emit (error_msg pdf e); view_pb_emit false])).
    2:{ cbn. rewrite Hev, Htr, <- !app_assoc. done. }
    split.
    { rewrite !error_messages_app, Herr. unfold error_messages.
      cbn [prologue_events messages omap list_omap app].
      rewrite !filter_cons_False, filter_nil by done.
      rewrite filter_cons_True; [done|]. apply (startswith_app "Error converting "). }
    split.
    { apply (contains_app "Error converting " pdf). }
    { unfold error_msg.
      pose proof (contains_suffix ("Error converting " +:+ pdf +:+ ": ") (str_exc e)) as H.
      by rewrite !str_app_assoc in H. }
  - intros e x Hv%valid_filetype_ends Hclean.
    destruct (convert_spec pdf w Hv) as [Hrun Hraised]. cbn zeta in Hrun, Hraised.
    destruct (after_prologue_spec pdf w) as (_ & Htr & _ & Hfs & _ & Hext & _).
    rewrite <- Hext in Hclean.
    rewrite (convert_try_extraction_failed _ _ _ _ _ _ _ _ _ _ Hclean) in Hrun, Hraised.
    cbn [fst snd] in Hrun, Hraised. rewrite Hrun. cbn [snd].
    rewrite (new_events_app w _ (prologue_events pdf
               ++ [call_clean_text pdf; op_msgs_emit (error_msg pdf e); view_pb_emit false])).
    2:{ cbn [trace record_events set_ext]. rewrite Htr, <- !app_assoc. done. }
    repeat split; try done.
Qed.

(** C9. In every pass of the loop of the split-enabled branch, as in the
    branch without splitting, the filename constructor is called with the
    source path and the tag "tts_ps" and nothing else: no call in a run
    has other arguments, and every [tts.save] of the run writes to the one
    path [construct_filename pdf "tts_ps"], whichever chunk it is for; in
    a pass that runs to its end the call and the destination are the same
    for every chunk counter. *)
Theorem output_filename_independent_of_chunk pdf (w : World Ext) :
  let w' := snd (run pdf w) in
  let out := construct_filename pdf "tts_ps" in
  Forall (fun a => a = (pdf, "tts_ps")) (filename_calls (new_events w w')) /\
  Forall (fun so => so.2 = out) (saves (new_events w w')) /\
  (forall k n count output_path (w0 w1 : World Ext),
      for_body construct_filename gTTS save pdf k n count output_path w0 = (Ok tt, w1) ->
      filename_calls (new_events w0 w1) = [(pdf, "tts_ps")] /\
      exists text, saves (new_events w0 w1) = [(text, out)]).
Proof.
  intros w' out. subst w'.
  assert (Hpass : forall k n count output_path (w0 w1 : World Ext),
             for_body construct_filename gTTS save pdf k n count output_path w0 = (Ok tt, w1) ->
             filename_calls (new_events w0 w1) = [(pdf, "tts_ps")] /\
             exists text, saves (new_events w0 w1) = [(text, out)]).
  { intros k n c p w0 w1 Hrun.
    destruct (for_body_spec construct_filename gTTS save pdf k n c p w0)
      as (r & w1' & Hrun' & Hcase).
    rewrite Hrun in Hrun'. injection Hrun' as <- <-.
    destruct Hcase as [(text & l1 & l2 & _ & _ & (_ & _ & _ & Htr) & Hl1 & Hl2 & _)
                      |(e & f & He & _)]; [|done].
    rewrite (new_events_app _ _ _ Htr). unfold chunk_events. proj.
    split; [done|]. by exists text. }
  destruct (valid_filetype pdf) eqn:Hv.
  - destruct (convert_spec pdf w Hv) as [Hrun _]. cbn zeta in Hrun.
    destruct (after_prologue_spec pdf w) as (_ & Htr & _).
    destruct (convert_try_facts pdf (length (handlers w)) (after_prologue pdf w))
      as (r & w2 & ev & Htry & (_ & _ & _ & Hev) & _ & _ & Hfn & Hsv).
    rewrite Htry in Hrun. cbn [fst snd] in Hrun. rewrite Hrun. cbn [snd].
    set (tl := match r with
               | Ok _ => [view_pb_emit false]
               | Raise e => [op_msgs_emit (error_msg pdf e); view_pb_emit false]
               end).
    rewrite (new_events_app w _ (prologue_events pdf ++ ev ++ tl)).
    2:{ subst tl. destruct r; cbn; rewrite Hev, Htr, <- !app_assoc; done. }
    proj. split; [|split; [|done]].
    + apply Forall_app; split; [constructor|]. apply Forall_app; split; [done|].
      subst tl. destruct r; constructor.
    + apply Forall_app; split; [constructor|]. apply Forall_app; split; [done|].
      subst tl. destruct r; constructor.
  - rewrite convert_rejected by done. cbn [snd].
    rewrite (new_events_app w _ [op_msgs_emit rejection]) by done.
    split; [constructor|]. split; [constructor|done].
Qed.

(** C8, as amended. A run with splitting disabled that passes validation
    and extraction, and in which the synthesis client does not raise,
    calls the synthesis client once ([gTTS(...)] and its [save]),
    constructs one output path, from the source path and "tts_ps" with no
    index, writes the audio of the whole text there, and then emits the
    one completion message, which names that path. *)
Theorem single_run_synthesises_once pdf (w : World Ext) text x1 :
  ends_in_pdf_or_txt pdf ->
  split_txt_checkbox w = false ->
  clean_text pdf (ext w) = (Ok text, x1) ->
  run_raised pdf w = None ->
  let w' := snd (run pdf w) in
  let out := construct_filename pdf "tts_ps" in
  run_events (new_events w w') =
    prologue_events pdf ++
    [call_clean_text pdf; call_gTTS text "en" "us";
     call_construct_filename pdf "tts_ps"; call_save text out;
     op_msgs_emit ("Conversion complete. Output: " +:+ out);
     view_pb_emit false] /\
  saves (new_events w w') = [(text, out)] /\
  filename_calls (new_events w w') = [(pdf, "tts_ps")] /\
  messages (new_events w w') =
    ["Converting " +:+ pdf; "Conversion complete. Output: " +:+ out] /\
  files w' = <[out := AudioFile text]> (files w).
Proof.
  intros Hv%valid_filetype_ends Hsplit Hclean Hnone w' out. subst w'.
  destruct (valid_run_spec pdf w Hv) as (r & w2 & ev & Htry & Hstep & Hnew & Hfs & _ & Hr).
  rewrite Hnone in Hr. destruct r as [[]|]; [|done].
  destruct (after_prologue_spec pdf w) as (_ & _ & _ & Hf1 & _ & Hext & Hsp & _).
  rewrite <- Hext in Hclean. rewrite <- Hsp in Hsplit.
  destruct (convert_try_single clean_text tts_word_count construct_filename gTTS save
              pdf (length (handlers w)) _ text x1 Hsplit Hclean)
    as (r & w2' & l1 & Hrun & Hl1 & Hcase).
  rewrite Htry in Hrun. injection Hrun as <- <-. fold out in Hcase.
  destruct Hcase as [(e & He & _)|(l2 & Hl2 & [(e & He & _)|(_ & Hf & Hw)])]; try done.
  rewrite (stepped_inj _ _ _ _ Hstep Hw) in Hnew.
  rewrite Hnew, Hfs, Hf, Hf1. cbn [epilogue_events]. proj.
  repeat split; done.
Qed.

(** A run with splitting in which the extraction and the chunker returned. *)
Lemma split_run_spec pdf (w : World Ext) text x1 chunks x2 :
  valid_filetype pdf = true ->
  split_txt_checkbox w = true ->
  clean_text pdf (ext w) = (Ok text, x1) ->
  tts_word_count text (temp_file w) true x1 = (Ok chunks, x2) ->
  let w' := snd (run pdf w) in
  let out := construct_filename pdf "tts_ps" in
  let k := length (handlers w) in
  let mk := if decide (temp_dir w ∈ dirs w) then [] else [call_mkdir (temp_dir w)] in
  let F0 := write_chunks chunks (files w) in
  exists r,
    run_raised pdf w = match r with Raise e => Some e | Ok _ => None end /\
    ((r = Raise (FileExistsError (temp_dir w)) /\
      new_events w w' = prologue_events pdf ++ (call_clean_text pdf :: mk)
                          ++ epilogue_events pdf r)
     \/
     exists ps tail,
       new_events w w' =
         prologue_events pdf
           ++ (call_clean_text pdf :: mk ++ [call_tts_word_count text (temp_file w) true]
                 ++ passes_events pdf (length chunks) 0 out ps ++ tail)
           ++ epilogue_events pdf r /\
       map pass_path ps = take (length ps) (map fst chunks) /\
       Forall pass_logs_ok ps /\
       passes_read out ps F0 /\
       files w' = files_after out ps F0 /\
       ((r = Ok tt /\ length ps = length chunks /\ tail = [] /\
         (chunks <> [] -> handlers w' !! k = Some SharedState_init))
        \/
        (exists f p,
            map fst chunks !! length ps = Some p /\
            (exists e, r = Raise e) /\
            tail = failed_events pdf (length chunks) (0 + Z.of_nat (length ps) + 1) p out f /\
            Forall (fun e => handler_event e = true) (failure_logs f)))).
Proof.
  intros Hv Hsplit Hclean Hchunks w' out k mk F0. subst w'.
  destruct (valid_run_spec pdf w Hv) as (r & w2 & ev & Htry & Hstep & Hnew & Hfs & Hhs & Hr).
  destruct (after_prologue_spec pdf w) as (_ & _ & Hh1 & Hf1 & Hd1 & Hext & Hsp & Hcp).
  rewrite <- Hext in Hclean. rewrite <- Hsp in Hsplit.
  destruct (convert_try_split clean_text tts_word_count construct_filename gTTS save
              pdf k _ text x1 Hsplit Hclean) as (r' & w2' & Hrun & Hcase).
  fold k in Htry. rewrite Htry in Hrun. injection Hrun as <- <-.
  assert (Htd : temp_dir (after_prologue pdf w) = temp_dir w) by (unfold temp_dir; by rewrite Hcp).
  assert (Htf : temp_file (after_prologue pdf w) = temp_file w) by (unfold temp_file; by rewrite Htd).
  rewrite Htd, Htf, Hd1, Hf1 in Hcase. fold out mk F0 in Hcase.
  exists r. split; [done|].
  destruct Hcase as [(-> & _ & Hw)|[(e & x2' & Hc & _)
                      |(chunks' & x2' & ps & tail & Hc & Hw & Hps & Hlogs & Hread & Hf & Hcase)]].
  - left. split; [done|]. by rewrite (stepped_inj _ _ _ _ Hstep Hw) in Hnew.
  - rewrite Hchunks in Hc. done.
  - rewrite Hchunks in Hc. injection Hc as <- <-.
    right. exists ps, tail. rewrite (stepped_inj _ _ _ _ Hstep Hw) in Hnew.
    split; [done|]. split; [done|]. split; [done|]. split; [done|].
    split; [by rewrite Hfs|].
    destruct Hcase as [(-> & Hlen & -> & Hk)|(e & f & p & -> & Hp & -> & Hl & _)].
    + left. repeat split; try done. intros Hne. rewrite Hhs. apply Hk; [done|].
      rewrite Hh1, length_app. cbn. lia.
    + right. exists f, p. split; [done|]. split; [by exists e|]. done.
Qed.

(** C1, as amended. In a run with splitting enabled in which the chunker
    returns [N] chunk files and nothing raises, the synthesis client is
    invoked [N] times, once per chunk and in the chunker's order, on the
    text of that chunk; the run is, the events of the handlers apart, the
    prologue, the extraction, the creation of the temporary directory
    when it is missing, the chunking, and then for each chunk in order:
    the label "(i/N)", the read of the chunk file, the synthesis, the
    completion message "i/N", the progress update 0 and the removal of the
    chunk file; then the indicator is hidden. A pass of the loop that runs
    to its end leaves the shared state of the run reset
    ([progress = 0], [total_parts = 0], [progress_percentage = 0]) and the
    chunk file removed, before the next pass begins. *)
Theorem split_run_synthesises_each_chunk pdf (w : World Ext) text x1 chunks x2 :
  ends_in_pdf_or_txt pdf ->
  split_txt_checkbox w = true ->
  clean_text pdf (ext w) = (Ok text, x1) ->
  tts_word_count text (temp_file w) true x1 = (Ok chunks, x2) ->
  run_raised pdf w = None ->
  let w' := snd (run pdf w) in
  let out := construct_filename pdf "tts_ps" in
  let k := length (handlers w) in
  let N := length chunks in
  saves (new_events w w') = map (fun pt => (pt.2, out)) chunks /\
  run_events (new_events w w') =
    prologue_events pdf
      ++ [call_clean_text pdf]
      ++ (if decide (temp_dir w ∈ dirs w) then [] else [call_mkdir (temp_dir w)])
      ++ [call_tts_word_count text (temp_file w) true]
      ++ chunks_run_events pdf N 0 out chunks
      ++ [view_pb_emit false] /\
  (forall count output_path (w0 w1 : World Ext),
      (k < length (handlers w0))%nat ->
      for_body construct_filename gTTS save pdf k N count output_path w0 = (Ok tt, w1) ->
      handlers w1 !! k = Some SharedState_init /\
      files w1 !! output_path = None /\
      exists ev,
        new_events w0 w1 =
          ev ++ [op_msgs_emit ("Conversion " +:+ str_int count +:+ "/"
                                 +:+ str_int (Z.of_nat N)
                                 +:+ " complete. Output: " +:+ out);
                 update_pb_emit (PInt 0);
                 call_remove output_path]) /\
  (chunks <> [] -> handlers w' !! k = Some SharedState_init).
Proof.
  intros Hv%valid_filetype_ends Hsplit Hclean Hchunks Hnone w' out k N.
  destruct (split_run_spec pdf w text x1 chunks x2 Hv Hsplit Hclean Hchunks)
    as (r & Hr & Hcase).
  fold w' out k in Hcase. rewrite Hnone in Hr. destruct r as [[]|]; [|done].
  destruct Hcase as [[? _]|(ps & tail & Hnew & Hps & Hlogs & Hread & Hfs & Hcase)]; [done|].
  destruct Hcase as [(_ & Hlen & -> & Hk)|(f & p & _ & [e ?] & _)]; [|done].
  rewrite Hlen, <- (length_map fst), firstn_all in Hps.
  destruct (passes_read_texts _ _ _ Hread) as [Hnd Hall]. rewrite Hps in Hnd.
  pose proof (passes_are_chunks ps chunks (files w) Hps Hnd Hall) as Hpc.
  split; [|split; [|split]].
  - rewrite Hnew. cbn [epilogue_events]. rewrite app_comm_cons. proj.
    rewrite (saves_passes _ _ _ _ _ Hlogs), <- Hpc, map_map.
    case_decide; cbn; by rewrite !app_nil_r.
  - rewrite Hnew. cbn [epilogue_events]. rewrite app_comm_cons. proj.
    rewrite (run_events_passes _ _ _ _ _ Hlogs), Hpc.
    change (run_events []) with (@nil Event).
    rewrite app_nil_r, <- !app_assoc. case_decide; reflexivity.
  - intros c p w0 w1 Hlt Hrun.
    destruct (for_body_spec construct_filename gTTS save pdf k N c p w0)
      as (r & w1' & Hrun' & Hpass).
    rewrite Hrun in Hrun'. injection Hrun' as <- <-.
    destruct Hpass as [(t & l1 & l2 & _ & _ & (_ & _ & _ & Htr) & _ & _ & Hf & Hk1)
                      |(e & f & He & _)]; [|done].
    split; [by apply Hk1|]. split; [by rewrite Hf, lookup_delete_eq|].
    rewrite (new_events_app _ _ _ Htr). unfold chunk_events. fold out.
    eexists. rewrite !app_assoc. reflexivity.
  - done.
Qed.

(** C10. In a run with splitting in which the chunker returned uniquely
    named chunk files and the body of the [try] raised after the read of
    chunk [i] was the last read (so the exception came after the call of
    [open] for chunk [i] and before the next pass: from the read itself or
    from the synthesis of chunk [i]), [os.remove] has been called for
    the chunks before [i] and for no other: the file of chunk [i] and the
    files of all chunks after it are still there when the run ends, and
    the run ends with the error message and the hiding of the indicator,
    without any cleanup. *)
Theorem no_cleanup_after_failed_chunk pdf (w : World Ext) text x1 chunks x2 pre p post e :
  ends_in_pdf_or_txt pdf ->
  split_txt_checkbox w = true ->
  clean_text pdf (ext w) = (Ok text, x1) ->
  tts_word_count text (temp_file w) true x1 = (Ok chunks, x2) ->
  NoDup (map fst chunks) ->
  map fst chunks = pre ++ p :: post ->
  run_raised pdf w = Some e ->
  let w' := snd (run pdf w) in
  opens (new_events w w') = pre ++ [p] ->
  removes (new_events w w') = pre /\
  (forall q, q ∈ p :: post -> is_Some (files w' !! q) /\ q ∉ removes (new_events w w')) /\
  exists ev,
    new_events w w' = ev ++ [op_msgs_emit (error_msg pdf e); view_pb_emit false] /\
    last (calls ev) <> Some (call_remove p).
Proof.
  intros Hv%valid_filetype_ends Hsplit Hclean Hchunks Hnd Hpaths Hraised w' Hopens.
  destruct (split_run_spec pdf w text x1 chunks x2 Hv Hsplit Hclean Hchunks)
    as (r & Hr & Hcase).
  fold w' in Hcase. rewrite Hraised in Hr. destruct r as [|e']; [done|].
  injection Hr as <-.
  set (mk := if decide (temp_dir w ∈ dirs w) then [] else [call_mkdir (temp_dir w)]) in *.
  assert (Hmk : opens mk = [] /\ removes mk = [] /\ (mk = [] \/ mk = [call_mkdir (temp_dir w)])).
  { subst mk. case_decide; repeat split; first [by left|by right]. }
  destruct Hmk as (Hmk1 & Hmk2 & Hmk3).
  destruct Hcase as [[_ Hnew]|(ps & tail & Hnew & Hps & Hlogs & Hread & Hfs & Hcase)].
  { rewrite Hnew in Hopens. cbn [epilogue_events] in Hopens.
    revert Hopens. change (call_clean_text pdf :: mk) with ([call_clean_text pdf] ++ mk).
    proj. rewrite Hmk1. cbn. by destruct pre. }
  destruct Hcase as [(? & _)|(f & q & Hq & _ & -> & Hl)]; [done|].
  set (c := (0 + Z.of_nat (length ps) + 1)) in *.
  set (out := construct_filename pdf "tts_ps") in *.
  assert (Hopens' : opens (new_events w w') = map pass_path ps ++ [q]).
  { rewrite Hnew. cbn [epilogue_events].
    change (call_clean_text pdf :: mk ++ ?l) with ([call_clean_text pdf] ++ mk ++ l).
    proj. rewrite Hmk1, (opens_passes _ _ _ _ _ Hlogs), (opens_failed _ _ _ _ _ _ Hl).
    cbn. by rewrite app_nil_r. }
  assert (Hremoves : removes (new_events w w') = map pass_path ps).
  { rewrite Hnew. cbn [epilogue_events].
    change (call_clean_text pdf :: mk ++ ?l) with ([call_clean_text pdf] ++ mk ++ l).
    proj. rewrite Hmk2, (removes_passes _ _ _ _ _ Hlogs), (removes_failed _ _ _ _ _ _ Hl).
    cbn. by rewrite !app_nil_r. }
  rewrite Hopens' in Hopens. apply app_inj_tail in Hopens as [Hpre ->].
  rewrite Hpre in Hremoves.
  assert (Hnotin : forall q', q' ∈ p :: post -> q' ∉ pre).
  { intros q' Hin Hin'. rewrite Hpaths in Hnd.
    apply NoDup_app in Hnd as (_ & Hdisj & _). by apply (Hdisj q'). }
  split; [done|]. split.
  - intros q' Hin. split; [|rewrite Hremoves; by apply Hnotin].
    rewrite Hfs. apply files_after_kept; [rewrite Hpre; by apply Hnotin|].
    destruct (write_chunks_written chunks (files w) q') as [t ->]; [|by eexists].
    rewrite Hpaths. apply elem_of_app. by right.
  - eexists. split; [rewrite Hnew; cbn [epilogue_events]; by rewrite !app_assoc|].
    rewrite <- !app_assoc.
    change (call_clean_text pdf :: mk ++ ?l) with ([call_clean_text pdf] ++ mk ++ l).
    rewrite !app_assoc. unfold failed_events. rewrite !app_assoc.
    destruct f as [|t l1|t l1 l2]; cbn [failure_logs] in Hl.
    + rewrite app_nil_r. proj. calls_simpl. by rewrite last_snoc.
    + proj. calls_simpl. rewrite app_nil_r. by rewrite last_snoc.
    + apply Forall_app in Hl as [Hl1 Hl2]. rewrite !app_assoc. proj.
      calls_simpl. rewrite app_nil_r. change [?a; ?b] with ([a] ++ [b]).
      by rewrite !app_assoc, last_snoc.
Qed.

End RunProps.

(** ** Runs of the model on the concrete world *)

Lemma a_pdf_ends : ends_in_pdf_or_txt "a.pdf".
Proof.
  exists "a", "p"%char, "d"%char, "f"%char. split; [reflexivity|]. left. by repeat split; left.
Defined.

Lemma broken_pdf_ends : ends_in_pdf_or_txt "broken.pdf".
Proof.
  exists "broken", "p"%char, "d"%char, "f"%char. split; [reflexivity|]. left.
  by repeat split; left.
Defined.

Lemma report_docx_not_ends : ~ ends_in_pdf_or_txt "report.docx".
Proof. intros H%valid_filetype_ends. by vm_compute in H. Defined.

(** A run with splitting on two chunks that the service answers. *)
Lemma split_run_synthesises_each_chunk_witness :
  saves (new_events (Demo.world true 2) (snd (Demo.convert "a.pdf" (Demo.world true 2))))
  = [("one", "a.pdf_tts_ps.mp3"); ("two", "a.pdf_tts_ps.mp3")].
Proof.
  apply (split_run_synthesises_each_chunk
           Demo.clean_text Demo.tts_word_count Demo.construct_filename Demo.gTTS Demo.save
           "a.pdf" (Demo.world true 2) "one two" 2%nat
           [("/app/temp/tts-tempfile.txt.1", "one"); ("/app/temp/tts-tempfile.txt.2", "two")]
           2%nat a_pdf_ends); by vm_compute.
Defined.

(** The same run when the service answers no call: the chunker returned
    two chunks, the synthesis client was invoked once, no chunk file was
    removed and no progress was reset. *)
Lemma split_run_stops_at_failed_chunk :
  let w := Demo.world true 0 in
  let w' := snd (Demo.convert "a.pdf" w) in
  Demo.tts_word_count "one two" (temp_file w) true 0%nat
  = (Ok [("/app/temp/tts-tempfile.txt.1", "one"); ("/app/temp/tts-tempfile.txt.2", "two")],
     0%nat) /\
  saves (new_events w w') = [("one", "a.pdf_tts_ps.mp3")] /\
  removes (new_events w w') = [] /\
  updates (new_events w w') = [] /\
  files w' !! "/app/temp/tts-tempfile.txt.1" = Some (TextFile "one") /\
  files w' !! "/app/temp/tts-tempfile.txt.2" = Some (TextFile "two").
Proof. by vm_compute. Qed.

Lemma percentage_is_rounded_ratio_witness :
  exists q pct,
    PyFloat.int_truediv 3 5 = Ok q /\
    PyFloat.float_mul_int q 100 = Ok pct /\
    PFloat (PyFloat.float 60) = PFloat pct /\
    PyFloat.is_finite pct = true /\
    (Qabs (PyFloat.SF2Q pct - 100 * inject_Z 3 / inject_Z 5) <= 2 ^ (-45))%Q.
Proof.
  apply (percentage_is_rounded_ratio
           {| progress := 2; total_parts := 5; progress_percentage := PInt 0 |}
           (log_debug "part-3 created") "part-3 created" "3");
    [reflexivity|cbn; lia|reflexivity|vm_compute; reflexivity
    |vm_compute; split; discriminate].
Defined.

(** 7 chunks of 25: the handler stores 28.000000000000004, which is neither
    the number 28 nor the double of [100 * 7 / 25]. *)
Lemma percentage_of_7_in_25 :
  let s := {| progress := 6; total_parts := 25; progress_percentage := PInt 0 |} in
  let s' := fst (QueueHandler.emit s (log_debug "part-7 created")) in
  re_search re_part_created "part-7 created" = Some "7" /\
  progress s' = 7 /\ total_parts s' = 25 /\
  progress_percentage s' = PFloat (S754_finite false 7881299347898369 (-48)) /\
  ~ (PyFloat.SF2Q (S754_finite false 7881299347898369 (-48))
     == 100 * inject_Z 7 / inject_Z 25)%Q /\
  PyFloat.float (100 * 7 / 25) = S754_finite false 7881299347898368 (-48).
Proof.
  cbn zeta. repeat split; by vm_compute.
Qed.

Lemma chunk_completion_updates_progress_witness :
  exists q,
    PyFloat.int_truediv 1 5 = Ok q /\
    PFloat (PyFloat.float 20)
    = PFloat (SFmul PyFloat.prec PyFloat.emax q (PyFloat.float 100)).
Proof.
  destruct (chunk_completion_updates_progress
              {| progress := 0; total_parts := 5; progress_percentage := PInt 0 |}
              (log_debug "part-1 created") "part-1 created" "1" eq_refl
              ltac:(cbn; lia) eq_refl)
    as (_ & _ & H & _).
  destruct (H ltac:(vm_compute; discriminate) ltac:(by vm_compute)) as (q & Hq & Hp & _).
  exists q. split; [exact Hq|]. rewrite <- Hp. reflexivity.
Defined.

(** A chunk-completion message on a fresh state: [progress] is
    incremented, the percentage is not recomputed and [update_pb] is not
    emitted. *)
Lemma chunk_completion_without_total :
  let s' := fst (QueueHandler.emit SharedState_init (log_debug "part-1 created")) in
  let ev := snd (QueueHandler.emit SharedState_init (log_debug "part-1 created")) in
  re_search re_part_created "part-1 created" = Some "1" /\
  progress s' = 1 /\
  progress_percentage s' = PInt 0 /\
  updates ev = [] /\
  ev = [handleError (log_debug "part-1 created")].
Proof. by vm_compute. Qed.

Lemma convert_rejects_other_filetypes_witness :
  new_events (Demo.world false 1) (snd (Demo.convert "report.docx" (Demo.world false 1)))
  = [op_msgs_emit rejection].
Proof.
  apply (convert_rejects_other_filetypes
           Demo.clean_text Demo.tts_word_count Demo.construct_filename Demo.gTTS Demo.save
           "report.docx" (Demo.world false 1) report_docx_not_ends).
Defined.

(** A rejected run ends with the rejection message: it never hides the
    progress indicator. *)
Lemma rejected_run_does_not_hide :
  let w := Demo.world false 1 in
  let w' := snd (Demo.convert "report.docx" w) in
  last (trace w') = Some (op_msgs_emit rejection) /\
  visibility (new_events w w') = [].
Proof. by vm_compute. Qed.

Lemma progress_hidden_at_end_of_validated_run_witness :
  last (new_events (Demo.world true 0) (snd (Demo.convert "a.pdf" (Demo.world true 0))))
  = Some (view_pb_emit false).
Proof.
  destruct (progress_hidden_at_end_of_validated_run
              Demo.clean_text Demo.tts_word_count Demo.construct_filename Demo.gTTS Demo.save
              "a.pdf" (Demo.world true 0)) as [H _].
  destruct (H a_pdf_ends) as [Hlast _]. exact Hlast.
Defined.

(** The extraction fails on "broken.pdf". *)
Lemma convert_catches_every_exception_witness :
  new_events (Demo.world false 1) (snd (Demo.convert "broken.pdf" (Demo.world false 1)))
  = prologue_events "broken.pdf"
      ++ [call_clean_text "broken.pdf";
          op_msgs_emit "Error converting broken.pdf: Failed to open file 'broken.pdf'.";
          view_pb_emit false].
Proof.
  destruct (convert_catches_every_exception
              Demo.clean_text Demo.tts_word_count Demo.construct_filename Demo.gTTS Demo.save
              "broken.pdf" (Demo.world false 1)) as (_ & _ & H).
  destruct (H (mkException "FileDataError" "Failed to open file 'broken.pdf'.") 1%nat
              broken_pdf_ends eq_refl) as (_ & Hnew & _).
  exact Hnew.
Defined.

Lemma handler_failure_is_not_fatal_witness :
  QueueHandler.emit_all SharedState_init
    (map log_debug ["text_parts: 0"; "part-1 created"; "text_parts: 2"; "part-2 created"])
  = ({| progress := 2; total_parts := 2;
        progress_percentage := PFloat (PyFloat.float 100) |},
     [processEvents; handleError (log_debug "part-1 created"); processEvents;
      update_pb_emit (PFloat (PyFloat.float 100)); processEvents]).
Proof.
  apply (handler_failure_is_not_fatal SharedState_init
           [log_debug "text_parts: 0"] (log_debug "part-1 created")
           (map log_debug ["text_parts: 2"; "part-2 created"])
           ZeroDivisionError
           {| progress := 1; total_parts := 0; progress_percentage := PInt 0 |} []).
  reflexivity.
Defined.

Lemma single_run_synthesises_once_witness :
  messages (new_events (Demo.world false 1) (snd (Demo.convert "a.pdf" (Demo.world false 1))))
  = ["Converting a.pdf"; "Conversion complete. Output: a.pdf_tts_ps.mp3"].
Proof.
  apply (single_run_synthesises_once
           Demo.clean_text Demo.tts_word_count Demo.construct_filename Demo.gTTS Demo.save
           "a.pdf" (Demo.world false 1) "one two" 1%nat a_pdf_ends); by vm_compute.
Defined.

(** Without splitting, a path that passes validation and extraction, and a
    service that does not answer: no completion message and no output file. *)
Lemma single_run_without_completion :
  let w := Demo.world false 0 in
  let w' := snd (Demo.convert "a.pdf" w) in
  valid_filetype "a.pdf" = true /\
  Demo.clean_text "a.pdf" (ext w) = (Ok "one two", 0%nat) /\
  messages (new_events w w') =
    ["Converting a.pdf";
     "Error converting a.pdf: Failed to connect. Probable cause: Unknown"] /\
  files w' = ∅.
Proof. by vm_compute. Qed.

Lemma output_filename_independent_of_chunk_witness :
  Forall (fun so => so.2 = "a.pdf_tts_ps.mp3")
         (saves (new_events (Demo.world true 2) (snd (Demo.convert "a.pdf" (Demo.world true 2))))).
Proof.
  destruct (output_filename_independent_of_chunk
              Demo.clean_text Demo.tts_word_count Demo.construct_filename Demo.gTTS Demo.save
              "a.pdf" (Demo.world true 2)) as (_ & H & _).
  exact H.
Defined.

Lemma no_cleanup_after_failed_chunk_witness :
  removes (new_events (Demo.world true 0) (snd (Demo.convert "a.pdf" (Demo.world true 0)))) = [].
Proof.
  apply (no_cleanup_after_failed_chunk
           Demo.clean_text Demo.tts_word_count Demo.construct_filename Demo.gTTS Demo.save
           "a.pdf" (Demo.world true 0) "one two" 0%nat
           [("/app/temp/tts-tempfile.txt.1", "one"); ("/app/temp/tts-tempfile.txt.2", "two")]
           0%nat [] "/app/temp/tts-tempfile.txt.1" ["/app/temp/tts-tempfile.txt.2"]
           (mkException "gTTSError" "Failed to connect. Probable cause: Unknown")
           a_pdf_ends); try (by vm_compute).
  apply (bool_decide_unpack _). by vm_compute.
Defined.

(** * Further properties of the progress observer *)

(** ** The patterns and the digit strings *)

Lemma str_app_nil_r (s : string) : s +:+ "" = s.
Proof. induction s as [|c s IH]; [done|]. by rewrite str_app_cons, IH. Qed.

Lemma take_str_app (a b : string) : take_str (String.length a) (a +:+ b) = a.
Proof.
  induction a as [|c a IH]; [by destruct b|]. rewrite str_app_cons. cbn. by rewrite IH.
Qed.

Lemma re_match_lits (l : string) (p : list atom) : forall s g,
  re_match (lits l ++ p) s g =
    if startswith s l then re_match p (drop_str (String.length l) s) g else None.
Proof.
  induction l as [|c l IH]; intros s g.
  - cbn. by destruct s.
  - cbn [lits app re_match]. destruct s as [|c' s]; [done|].
    cbn [startswith String.length drop_str]. destruct (Ascii.eqb c c'); [apply IH|done].
Qed.

Lemma re_match_digits s g :
  re_match [Digits1] s g =
    match span_digits s with O => None | S k => Some (take_str (S k) s) end.
Proof. cbn. destruct (span_digits s); reflexivity. Qed.

Lemma re_match_digits_greedy p s g r :
  span_digits s <> O ->
  re_match p (drop_str (span_digits s) s) (take_str (span_digits s) s) = Some r ->
  re_match (Digits1 :: p) s g = Some r.
Proof.
  intros Hn Hr. cbn [re_match]. destruct (span_digits s) as [|k]; [done|]. by rewrite Hr.
Qed.

Lemma re_search_here p s g : re_match p s "" = Some g -> re_search p s = Some g.
Proof. intros H. destruct s; cbn [re_search]; by rewrite H. Qed.

Lemma re_search_next p c s :
  re_match p (String c s) "" = None -> re_search p (String c s) = re_search p s.
Proof. intros H. cbn [re_search]. by rewrite H. Qed.

Lemma span_digits_le s : (span_digits s <= String.length s)%nat.
Proof. induction s as [|c s IH]; cbn; [lia|]. destruct (is_digit c); lia. Qed.

Lemma take_span_digits s :
  String.length (take_str (span_digits s) s) = span_digits s /\
  span_digits (take_str (span_digits s) s) = span_digits s.
Proof.
  induction s as [|c s [IH1 IH2]]; [done|]. cbn [span_digits].
  destruct (is_digit c) eqn:Hc; [|done]. cbn [take_str String.length span_digits].
  rewrite Hc. lia.
Qed.

(** What [group(1)] of the announcement pattern is: a non-empty string of
    digits. *)
Lemma re_search_text_parts_digits msg d :
  re_search re_text_parts msg = Some d ->
  d <> "" /\ span_digits d = String.length d.
Proof.
  assert (Hm : forall s g, re_match re_text_parts s g = Some d ->
                           d <> "" /\ span_digits d = String.length d).
  { intros s g. unfold re_text_parts. rewrite re_match_lits.
    destruct (startswith s "text_parts: "); [|done]. rewrite re_match_digits.
    set (r := drop_str _ s). destruct (span_digits r) as [|k] eqn:Hk; [done|].
    rewrite <- Hk. intros [= <-]. destruct (take_span_digits r) as [H1 H2].
    split; [|by rewrite H1, H2]. intros H. rewrite H in H1. cbn [String.length] in H1. congruence. }
  induction msg as [|c msg IH]; cbn [re_search].
  - destruct (re_match re_text_parts "" "") eqn:E; [|done]. intros [= ->]. eauto.
  - destruct (re_match re_text_parts (String c msg) "") eqn:E; [|exact IH].
    intros [= ->]. eauto.
Qed.

Local Abbreviation int_go :=
  (fix go (acc : Z) (s : string) {struct s} : Z :=
     match s with
     | EmptyString => acc
     | String c s' => go (10 * acc + (Z.of_N (N_of_ascii c) - 48)) s'
     end).

Lemma int_digits_acc s : forall acc,
  int_go acc s = acc * 10 ^ Z.of_nat (String.length s) + int_digits s.
Proof.
  unfold int_digits. induction s as [|c s IH]; intros acc.
  - cbn. lia.
  - cbn [String.length]. rewrite Nat2Z.inj_succ, Z.pow_succ_r by lia.
    change (int_go acc (String c s))
      with (int_go (10 * acc + (Z.of_N (N_of_ascii c) - 48)) s).
    change (int_go 0 (String c s))
      with (int_go (10 * 0 + (Z.of_N (N_of_ascii c) - 48)) s).
    rewrite (IH (10 * acc + _)), (IH (10 * 0 + _)). ring.
Qed.

Lemma int_digits_cons c s :
  int_digits (String c s) =
    (Z.of_N (N_of_ascii c) - 48) * 10 ^ Z.of_nat (String.length s) + int_digits s.
Proof.
  unfold int_digits at 1.
  change (int_go 0 (String c s))
    with (int_go (10 * 0 + (Z.of_N (N_of_ascii c) - 48)) s).
  rewrite int_digits_acc. ring.
Qed.

Lemma is_digit_range c : is_digit c = true -> 48 <= Z.of_N (N_of_ascii c) <= 57.
Proof.
  unfold is_digit. cbn zeta. intros [H1 H2]%andb_true_iff.
  apply N.leb_le in H1, H2. lia.
Qed.

(** [int] of a string of digits is never negative. *)
Lemma int_digits_nonneg d : span_digits d = String.length d -> 0 <= int_digits d.
Proof.
  induction d as [|c d IH]; [by cbn|]. cbn [span_digits String.length].
  destruct (is_digit c) eqn:Hc; [|done]. intros [= H].
  rewrite int_digits_cons. apply is_digit_range in Hc.
  specialize (IH H). pose proof (Z.pow_nonneg 10 (Z.of_nat (String.length d))). nia.
Qed.

(** *** [str] and [int] on the natural numbers *)

Lemma int_go_cons acc c s :
  int_go acc (String c s) = int_go (10 * acc + (Z.of_N (N_of_ascii c) - 48)) s.
Proof. reflexivity. Qed.

Lemma int_go_of_uint_acc d : forall acc : positive,
  int_go (Z.pos acc) (NilEmpty.string_of_uint d) = Z.pos (Pos.of_uint_acc d acc).
Proof.
  induction d; intros acc; cbn [NilEmpty.string_of_uint Pos.of_uint_acc]; [done| ..];
    rewrite <- IHd; f_equal; cbn; lia.
Qed.

Lemma int_digits_of_uint d :
  int_digits (NilEmpty.string_of_uint d) = Z.of_N (Pos.of_uint d).
Proof.
  unfold int_digits.
  induction d; cbn [NilEmpty.string_of_uint Pos.of_uint]; [done| ..];
    first [ exact IHd | apply (int_go_of_uint_acc d) ].
Qed.

Lemma span_digits_of_uint d post :
  span_digits (NilEmpty.string_of_uint d +:+ post)
  = (String.length (NilEmpty.string_of_uint d) + span_digits post)%nat.
Proof.
  induction d; cbn [NilEmpty.string_of_uint]; [by rewrite str_app_nil| ..];
    rewrite str_app_cons; cbn [span_digits String.length];
    match goal with |- context [is_digit ?c] => change (is_digit c) with true end;
    cbn iota; by rewrite IHd.
Qed.

(** [str(n)] of a natural number: a non-empty string of digits, that [int]
    reads back. *)
Lemma str_int_digits n post :
  0 <= n ->
  int_digits (str_int n) = n /\
  str_int n <> "" /\
  span_digits (str_int n +:+ post) = (String.length (str_int n) + span_digits post)%nat.
Proof.
  intros Hn. unfold str_int. destruct n as [|p|p]; [by cbn| |lia].
  cbn [Z.to_int NilZero.string_of_int]. unfold NilZero.string_of_uint.
  destruct (Pos.to_uint p) eqn:E.
  1: { exfalso. pose proof (DecimalPos.Unsigned.of_to p) as H. rewrite E in H. done. }
  all: rewrite <- E; split;
    [rewrite int_digits_of_uint, DecimalPos.Unsigned.of_to; reflexivity|];
    split; [rewrite E; discriminate|apply span_digits_of_uint].
Qed.

Lemma digit_neq c x : is_digit c = false -> is_digit x = true -> Ascii.eqb c x = false.
Proof. intros Hc Hx. destruct (Ascii.eqb_spec c x) as [->|]; congruence. Qed.

(** A pattern that starts with a character that is no digit matches
    nowhere inside a run of digits. *)
Lemma re_search_skip_digits c p (X tail : string) :
  is_digit c = false ->
  span_digits X = String.length X ->
  re_search (Lit c :: p) (X +:+ tail) = re_search (Lit c :: p) tail.
Proof.
  intros Hc. induction X as [|x X IH]; [done|]. cbn [span_digits String.length].
  destruct (is_digit x) eqn:Hx; [|done]. intros [= H].
  rewrite str_app_cons, re_search_next; [by apply IH|].
  cbn [re_match]. by rewrite (digit_neq c x).
Qed.

Lemma take_str_all (d : string) : take_str (String.length d) d = d.
Proof. induction d as [|c d IH]; [done|]. cbn. by rewrite IH. Qed.

Lemma re_match_digits_all d g :
  d <> "" -> span_digits d = String.length d -> re_match [Digits1] d g = Some d.
Proof.
  intros Hne Hs. rewrite re_match_digits.
  destruct (span_digits d) as [|k] eqn:E.
  - destruct d; [done|]. discriminate Hs.
  - rewrite Hs. by rewrite take_str_all.
Qed.

Lemma str_int_span n :
  0 <= n -> span_digits (str_int n) = String.length (str_int n) /\ str_int n <> "".
Proof.
  intros Hn. destruct (str_int_digits n "" Hn) as (_ & Hne & Hs).
  rewrite str_app_nil_r in Hs. cbn [span_digits] in Hs. split; [lia|done].
Qed.

Lemma re_search_announcement n :
  0 <= n ->
  re_search re_text_parts (announcement n) = Some (str_int n) /\
  re_search re_part_created (announcement n) = None.
Proof.
  intros Hn. destruct (str_int_span n Hn) as [Hs Hne]. unfold announcement. split.
  - apply re_search_here. unfold re_text_parts.
    rewrite re_match_lits, startswith_app, drop_str_app. by apply re_match_digits_all.
  - rewrite <- (str_app_nil_r (str_int n)).
    repeat (rewrite str_app_cons, re_search_next by reflexivity).
    rewrite str_app_nil. change re_part_created with (Lit "p" :: lits "art-" ++ [Digits1] ++ lits " created").
    rewrite re_search_skip_digits by done. reflexivity.
Qed.

Lemma re_search_completion i :
  0 <= i ->
  re_search re_part_created (completion i) = Some (str_int i) /\
  re_search re_text_parts (completion i) = None.
Proof.
  intros Hi. destruct (str_int_span i Hi) as [Hs Hne].
  destruct (str_int_digits i " created" Hi) as (_ & _ & Hsp).
  cbn [span_digits is_digit] in Hsp. change (is_digit " ") with false in Hsp.
  cbn iota in Hsp. rewrite Nat.add_0_r in Hsp.
  unfold completion. split.
  - apply re_search_here. unfold re_part_created.
    rewrite re_match_lits, startswith_app, drop_str_app. cbn [app].
    apply re_match_digits_greedy; rewrite Hsp.
    + destruct (str_int i); [done|]. cbn. lia.
    + rewrite drop_str_app, take_str_app.
      rewrite <- (app_nil_r (lits " created")), re_match_lits.
      rewrite <- (str_app_nil_r " created") at 1. by rewrite startswith_app.
  - repeat (rewrite str_app_cons, re_search_next by reflexivity).
    rewrite str_app_nil.
    change re_text_parts with (Lit "t" :: lits "ext_parts: " ++ [Digits1]).
    rewrite re_search_skip_digits by done. reflexivity.
Qed.

(** *** What a record does to the state *)

Lemma emit_no_completion s record :
  is_completion record = false ->
  progress (fst (QueueHandler.emit s record)) = progress s.
Proof.
  unfold is_completion, QueueHandler.emit, QueueHandler.emit_try.
  destruct (format record) as [msg|e]; [|done].
  destruct (re_search re_part_created msg); [done|]. intros _.
  by destruct (re_search re_text_parts msg).
Qed.

Lemma emit_completion s record :
  is_completion record = true ->
  progress (fst (QueueHandler.emit s record)) = progress s + 1.
Proof.
  unfold is_completion. destruct (format record) as [msg|e] eqn:Hf; [|done].
  destruct (re_search re_part_created msg) as [d|] eqn:Hm; [|done]. intros _.
  rewrite (emit_part_created s record msg d Hf Hm).
  by destruct (PyFloat.int_truediv _ _).
Qed.

Lemma emit_total_parts s record :
  total_parts (fst (QueueHandler.emit s record)) =
    match format record with
    | Ok msg => announced_total s msg
    | Raise _ => total_parts s
    end.
Proof.
  unfold QueueHandler.emit, QueueHandler.emit_try, announced_total.
  destruct (format record) as [msg|e]; [|done].
  destruct (re_search re_text_parts msg), (re_search re_part_created msg);
    cbn [set_total_parts set_progress progress total_parts];
    repeat match goal with
      | |- context [match ?x with Ok _ => _ | Raise _ => _ end] => destruct x
      end; reflexivity.
Qed.

(** X3. Through any stream of records (with messages of at most 4300
    characters, so that [int] converts any run of digits in them),
    [progress] grows by exactly the number of records whose message matches
    the completion pattern, whether or not the percentage could be computed
    for them: the increment comes before the division. *)
Theorem progress_counts_completions s records :
  Forall (fun r => forall msg, format r = Ok msg -> (String.length msg <= 4300)%nat) records ->
  progress (fst (QueueHandler.emit_all s records))
  = progress s + Z.of_nat (length (filter (fun r => is_completion r = true) records)).
Proof.
  intros _. revert s. induction records as [|r rs IH]; intros s; [cbn; lia|].
  cbn [QueueHandler.emit_all].
  destruct (QueueHandler.emit s r) as [s1 ev1] eqn:E1.
  specialize (IH s1). destruct (QueueHandler.emit_all s1 rs) as [s2 ev2]. cbn [fst] in *.
  rewrite IH. assert (Hs1 : s1 = fst (QueueHandler.emit s r)) by (by rewrite E1).
  destruct (is_completion r) eqn:Hc.
  - rewrite filter_cons_True by done. rewrite Hs1, emit_completion by done.
    cbn [length]. lia.
  - rewrite filter_cons_False by congruence. by rewrite Hs1, emit_no_completion.
Qed.

(** X2. [total_parts] never becomes negative: the announcement pattern
    captures digits only, without a sign, so a state that starts with
    [0 <= total_parts] keeps it through any stream of records. *)
Theorem total_parts_never_negative s records :
  0 <= total_parts s ->
  0 <= total_parts (fst (QueueHandler.emit_all s records)).
Proof.
  revert s. induction records as [|r rs IH]; intros s Hs; [done|].
  cbn [QueueHandler.emit_all].
  destruct (QueueHandler.emit s r) as [s1 ev1] eqn:E1.
  specialize (IH s1). destruct (QueueHandler.emit_all s1 rs) as [s2 ev2]. cbn [fst] in *.
  apply IH. replace s1 with (fst (QueueHandler.emit s r)) by (by rewrite E1).
  rewrite emit_total_parts. destruct (format r) as [msg|e]; [|done].
  unfold announced_total. destruct (re_search re_text_parts msg) as [d|] eqn:Hd; [|done].
  apply int_digits_nonneg. by destruct (re_search_text_parts_digits msg d Hd).
Qed.

(** An announcement, as the handler reads it. *)
Lemma emit_announcement s n :
  0 <= n ->
  QueueHandler.emit s (log_debug (announcement n)) = (set_total_parts n s, [processEvents]).
Proof.
  intros Hn. destruct (re_search_announcement n Hn) as [H1 H2].
  unfold QueueHandler.emit, QueueHandler.emit_try, log_debug. cbn [format].
  rewrite H1, H2. by destruct (str_int_digits n "" Hn) as (-> & _).
Qed.

(** X1. The message "text_parts: n", for a natural number [n] (below
    [10 ^ 4300]: the numbers whose decimal form [int] converts), sets
    [total_parts] to [n] and does nothing else: [progress] and the
    percentage stay, [update_pb] is not emitted, and the event queue is
    flushed once. *)
Theorem announcement_sets_total s n :
  0 <= n < 10 ^ 4300 ->
  QueueHandler.emit s (log_debug (announcement n)) = (set_total_parts n s, [processEvents]).
Proof. intros [Hn _]. by apply emit_announcement. Qed.

(** ** The range of the percentage *)

Module PyFloatRange.
Import PyFloat PyFloatFacts.

(** A rounding to a multiple of [2 ^ e] that is off by at most half of
    [2 ^ e] does not cross a multiple of [2 ^ e]. *)
Lemma grid_le (m k e e1 : Z) (x : Q) :
  e1 <= e ->
  (Qabs (inject_Z m * 2 ^ e - x) <= 2 ^ e1 / 2)%Q ->
  (x <= inject_Z k * 2 ^ e)%Q ->
  m <= k.
Proof.
  intros He Herr Hx. destruct (Z_le_gt_dec m k) as [|Hgt]; [done|exfalso].
  assert (Hmk : (inject_Z k + 1 <= inject_Z m)%Q).
  { change 1%Q with (inject_Z 1). rewrite <- inject_Z_plus, <- Zle_Qle. lia. }
  pose proof (pow2_le_mono e1 e He) as Hp. pose proof (two_pow_pos e) as Hy.
  pose proof (two_pow_pos e1) as Hz.
  apply Qabs_Qle_condition in Herr as [_ Herr]. unfold Qdiv in Herr.
  change (/ 2)%Q with (1 # 2)%Q in Herr.
  set (y := (2 ^ e)%Q) in *. set (z := (2 ^ e1)%Q) in *.
  set (a := inject_Z m) in *. set (b := inject_Z k) in *. clearbody y z a b.
  assert (H : (0 <= (a - b - 1) * y)%Q) by (apply Qmult_le_0_compat; lra).
  lra.
Qed.

Lemma grid_ge (m k e e1 : Z) (x : Q) :
  e1 <= e ->
  (Qabs (inject_Z m * 2 ^ e - x) <= 2 ^ e1 / 2)%Q ->
  (inject_Z k * 2 ^ e <= x)%Q ->
  k <= m.
Proof.
  intros He Herr Hx. destruct (Z_le_gt_dec k m) as [|Hgt]; [done|exfalso].
  assert (Hmk : (inject_Z m + 1 <= inject_Z k)%Q).
  { change 1%Q with (inject_Z 1). rewrite <- inject_Z_plus, <- Zle_Qle. lia. }
  pose proof (pow2_le_mono e1 e He) as Hp. pose proof (two_pow_pos e) as Hy.
  pose proof (two_pow_pos e1) as Hz.
  apply Qabs_Qle_condition in Herr as [Herr _]. unfold Qdiv in Herr.
  change (/ 2)%Q with (1 # 2)%Q in Herr.
  set (y := (2 ^ e)%Q) in *. set (z := (2 ^ e1)%Q) in *.
  set (a := inject_Z m) in *. set (b := inject_Z k) in *. clearbody y z a b.
  assert (H : (0 <= (b - a - 1) * y)%Q) by (apply Qmult_le_0_compat; lra).
  lra.
Qed.

(** An integer [n] on the grid of [2 ^ e], for [e <= 0]. *)
Lemma on_grid (n e : Z) :
  e <= 0 -> (inject_Z (n * 2 ^ (- e)) * 2 ^ e == inject_Z n)%Q.
Proof.
  intros He. rewrite inject_Z_mult, inject_pow2 by lia.
  assert (H : (2 ^ (- e) * 2 ^ e == 1)%Q).
  { rewrite <- pow2_split. by replace (- e + e) with 0 by lia. }
  set (y := (2 ^ e)%Q) in *. set (z := (2 ^ (- e))%Q) in *. clearbody y z.
  transitivity (inject_Z n * (z * y))%Q; [ring|]. rewrite H. ring.
Qed.

(** A rounding of [x <= n] to the grid of [2 ^ e] stays at most [n], and
    a rounding of [n] itself is [n]. *)
Lemma round_below (m e e1 n : Z) (x : Q) :
  e <= 0 -> e1 <= e ->
  (Qabs (inject_Z m * 2 ^ e - x) <= 2 ^ e1 / 2)%Q ->
  (x <= inject_Z n)%Q ->
  (inject_Z m * 2 ^ e <= inject_Z n)%Q /\
  ((x == inject_Z n)%Q -> (inject_Z m * 2 ^ e == inject_Z n)%Q).
Proof.
  intros He He1 Herr Hx. pose proof (on_grid n e He) as Hg.
  assert (Hle : m <= n * 2 ^ (- e)).
  { apply (grid_le m _ e e1 x He1 Herr). by rewrite Hg. }
  pose proof (two_pow_pos e) as Hy. split.
  - rewrite <- Hg. apply Qmult_le_compat_r; [by rewrite <- Zle_Qle|lra].
  - intros Heq.
    assert (Hge : n * 2 ^ (- e) <= m).
    { apply (grid_ge m _ e e1 x He1 Herr). rewrite Hg, Heq. lra. }
    rewrite <- Hg. by replace m with (n * 2 ^ (- e)) by lia.
Qed.

(** [(c / t) * 100] for [0 <= c <= t], [0 < t] lies between 0 and 100, and
    is 100 when [c = t]. *)
Lemma percentage_range c t :
  0 < t -> 0 <= c <= t ->
  exists q pct,
    int_truediv c t = Ok q /\
    float_mul_int q 100 = Ok pct /\
    is_finite pct = true /\
    (0 <= SF2Q pct <= 100)%Q /\
    (c = t -> (SF2Q pct == 100)%Q).
Proof.
  intros Ht Hc. unfold int_truediv.
  destruct (Z.eqb_spec t 0) as [|_]; [lia|].
  destruct t as [|pt|pt]; try lia.
  assert (Htq : (0 < inject_Z (Z.pos pt))%Q) by (by rewrite <- (Zlt_Qlt 0)).
  destruct c as [|pc|pc]; [| |lia].
  - exists (S754_zero false), (S754_zero false).
    split; [reflexivity|]. split; [reflexivity|]. split; [reflexivity|].
    cbn [SF2Q]. split; [lra|]. discriminate.
  - cbn [Z2SF].
    destruct (SFdiv_spec false false pc pt) as (m2 & e2 & e1 & Hdiv & Hm2 & He12 & He1 & He2 & Herr).
    cbn zeta in *. cbn [xorb] in Hdiv.
    pose proof (Zdigits2_mono (Z.pos pc) (Z.pos pt) ltac:(lia)) as Hdig.
    assert (He2' : e2 <= -51) by lia.
    destruct (SF2Q_round_result m2 e2 Hm2 ltac:(lia)) as [Hfin Hval].
    rewrite Hdiv.
    set (x := (inject_Z (Z.pos pc) / inject_Z (Z.pos pt))%Q) in *.
    assert (Hx : (x <= inject_Z 1)%Q /\ (Z.pos pc = Z.pos pt -> (x == inject_Z 1)%Q)).
    { change (inject_Z 1) with 1%Q. subst x. split.
      - apply Qle_shift_div_r; [done|]. rewrite Qmult_1_l, <- Zle_Qle. lia.
      - intros ->. field. lra. }
    destruct Hx as [Hx1 Hxeq].
    destruct (round_below m2 e2 e1 1 x ltac:(lia) He12 Herr Hx1) as [Hv1 Hveq].
    change (inject_Z 1) with 1%Q in *.
    set (v := (inject_Z m2 * 2 ^ e2)%Q) in *.
    assert (Hv0 : (0 <= v)%Q).
    { subst v. apply Qmult_le_0_compat; [by rewrite <- (Zle_Qle 0)|].
      pose proof (two_pow_pos e2). lra. }
    destruct (round_result false m2 e2) as [s0| | |s0 pv ev] eqn:Hrr; try discriminate Hfin.
    + exists (S754_zero s0), (SFmul prec emax (S754_zero s0) f100).
      split; [reflexivity|]. split; [apply float_mul_100|].
      cbn [SF2Q] in Hval. unfold f100. cbn [SFmul]. split; [reflexivity|].
      cbn [SF2Q]. split; [lra|].
      intros Heq. specialize (Hveq (Hxeq Heq)). clearbody v x. lra.
    + assert (Hs0 : s0 = false /\ Z.pos pv = m2 /\ ev = e2).
      { unfold round_result in Hrr. destruct m2; try discriminate.
        destruct (e2 <=? emax - prec); [|discriminate]. by injection Hrr as <- <- <-. }
      destruct Hs0 as (-> & Hpv & ->).
      exists (S754_finite false pv e2), (SFmul prec emax (S754_finite false pv e2) f100).
      split; [reflexivity|]. split; [apply float_mul_100|].
      unfold f100.
      destruct (SFmul_spec false false pv 7036874417766400 e2 (-46))
        as (mp & ep & Hmul & Hmp & Hep1 & Hep2 & Herrm).
      cbn zeta in *. cbn [xorb] in Hmul. rewrite Hmul.
      set (M := Z.pos pv * 7036874417766400) in *.
      set (E := e2 + -46) in *.
      assert (HME : (inject_Z M * 2 ^ E == 100 * v)%Q).
      { subst M E v. rewrite inject_Z_mult, pow2_split, Hpv.
        set (y := (2 ^ e2)%Q). clearbody y.
        change (2 ^ (-46))%Q with (1 # 70368744177664)%Q.
        change (inject_Z 7036874417766400) with (7036874417766400 # 1)%Q.
        field. }
      assert (HMlt : M < 2 ^ (7 - E)).
      { rewrite Zlt_Qlt. rewrite inject_pow2 by lia.
        replace (7 - E) with (7 + - E) by lia. rewrite pow2_split.
        assert (Hinv : (2 ^ E * 2 ^ (- E) == 1)%Q).
        { rewrite <- pow2_split. by replace (E + - E) with 0 by lia. }
        pose proof (two_pow_pos (- E)) as HnE.
        set (a := (2 ^ E)%Q) in *. set (b := (2 ^ (- E))%Q) in *.
        change (2 ^ 7)%Q with 128%Q. clearbody a b x v M.
        assert (Hlt : (inject_Z M * a < 128)%Q) by (clear -HME Hv1; lra).
        assert (H1 : (inject_Z M * a * b < 128 * b)%Q) by (apply Qmult_lt_r; assumption).
        assert (H2 : (inject_Z M * a * b == inject_Z M)%Q).
        { transitivity (inject_Z M * (a * b))%Q; [ring|]. rewrite Hinv. ring. }
        by rewrite H2 in H1. }
      assert (HdM : Zdigits2 M <= 7 - E) by (apply Zdigits2_le; subst M; lia).
      repeat rewrite fexp_eq in Hep1. repeat rewrite fexp_eq in Hep2.
      rewrite fexp_eq in Herrm.
      set (e1m := Z.max E (Z.max (Zdigits2 M + E - 53) (-1074))) in *.
      assert (He1m : e1m <= -46) by lia.
      assert (Hep : ep <= -45) by lia.
      destruct (SF2Q_round_result mp ep Hmp ltac:(lia)) as [Hfinp Hvalp].
      split; [exact Hfinp|].
      rewrite Hvalp.
      assert (Hx100 : (inject_Z M * 2 ^ E <= inject_Z 100)%Q).
      { rewrite HME. change (inject_Z 100) with 100%Q. clearbody v. lra. }
      destruct (round_below mp ep e1m 100 _ ltac:(lia) Hep1 Herrm Hx100) as [Hp100 Hpeq].
      change (inject_Z 100) with 100%Q in *.
      split; [split; [|exact Hp100]|].
      * apply Qmult_le_0_compat; [by rewrite <- (Zle_Qle 0)|].
        pose proof (two_pow_pos ep). lra.
      * intros Heq. apply Hpeq. rewrite HME. specialize (Hveq (Hxeq Heq)).
        clearbody v. rewrite Hveq. reflexivity.
Qed.

End PyFloatRange.

(** What [emit] stores and emits on a completion message that leaves
    [0 <= progress <= total_parts], [0 < total_parts]. *)
Lemma emit_percentage s record msg d :
  format record = Ok msg ->
  re_search re_part_created msg = Some d ->
  0 < announced_total s msg ->
  0 <= progress s + 1 <= announced_total s msg ->
  exists pct,
    QueueHandler.emit s record =
      ({| progress := progress s + 1; total_parts := announced_total s msg;
          progress_percentage := PFloat pct |},
       announce_events msg ++ [update_pb_emit (PFloat pct); processEvents]) /\
    PyFloat.is_finite pct = true /\
    (0 <= PyFloat.SF2Q pct <= 100)%Q /\
    (Qabs (PyFloat.SF2Q pct - 100 * inject_Z (progress s + 1) / inject_Z (announced_total s msg))
     <= 2 ^ (-45))%Q /\
    (progress s + 1 = announced_total s msg -> (PyFloat.SF2Q pct == 100)%Q).
Proof.
  intros Hf Hm Ht Hp. rewrite (emit_part_created s record msg d Hf Hm).
  destruct (PyFloatRange.percentage_range _ _ Ht Hp) as (q & pct & Hq & Hmul & Hfin & Hr & H100).
  destruct (PyFloatFacts.percentage_bound _ _ Ht Hp) as (q' & pct' & Hq' & Hmul' & _ & Hb).
  rewrite Hq in Hq'. injection Hq' as <-. rewrite Hmul in Hmul'. injection Hmul' as <-.
  rewrite PyFloatFacts.float_mul_100 in Hmul. injection Hmul as Hpct.
  rewrite Hq. cbn zeta. rewrite Hpct. by exists pct.
Qed.

(** X4. When a completion message (of at most 4300 characters) leaves
    [0 <= progress <= total_parts] and [0 < total_parts], the percentage
    that the handler stores and sends with [update_pb] is a finite double
    between 0 and 100: the two roundings never take it out of the range of
    the progress bar. *)
Theorem percentage_between_0_and_100 s record msg d :
  format record = Ok msg ->
  (String.length msg <= 4300)%nat ->
  re_search re_part_created msg = Some d ->
  let s' := fst (QueueHandler.emit s record) in
  0 < total_parts s' ->
  0 <= progress s' <= total_parts s' ->
  exists pct,
    progress_percentage s' = PFloat pct /\
    snd (QueueHandler.emit s record)
    = announce_events msg ++ [update_pb_emit (PFloat pct); processEvents] /\
    PyFloat.is_finite pct = true /\
    (0 <= PyFloat.SF2Q pct <= 100)%Q.
Proof.
  intros Hf _ Hm s'. subst s'.
  assert (Hs : progress (fst (QueueHandler.emit s record)) = progress s + 1 /\
               total_parts (fst (QueueHandler.emit s record)) = announced_total s msg).
  { rewrite (emit_part_created s record msg d Hf Hm).
    by destruct (PyFloat.int_truediv _ _). }
  destruct Hs as [-> ->]. intros Ht Hp.
  destruct (emit_percentage s record msg d Hf Hm Ht Hp) as (pct & -> & Hfin & Hr & _).
  by exists pct.
Qed.

(** X5. When a completion message (of at most 4300 characters) leaves
    [progress = total_parts > 0], the percentage that the handler stores
    and sends with [update_pb] is exactly 100: the last part of a chunk
    always fills the progress bar, although other ratios are rounded. *)
Theorem percentage_is_100_when_complete s record msg d :
  format record = Ok msg ->
  (String.length msg <= 4300)%nat ->
  re_search re_part_created msg = Some d ->
  let s' := fst (QueueHandler.emit s record) in
  0 < total_parts s' ->
  progress s' = total_parts s' ->
  exists pct,
    progress_percentage s' = PFloat pct /\
    snd (QueueHandler.emit s record)
    = announce_events msg ++ [update_pb_emit (PFloat pct); processEvents] /\
    (PyFloat.SF2Q pct == 100)%Q.
Proof.
  intros Hf _ Hm s'. subst s'.
  assert (Hs : progress (fst (QueueHandler.emit s record)) = progress s + 1 /\
               total_parts (fst (QueueHandler.emit s record)) = announced_total s msg).
  { rewrite (emit_part_created s record msg d Hf Hm).
    by destruct (PyFloat.int_truediv _ _). }
  destruct Hs as [-> ->]. intros Ht Hp.
  destruct (emit_percentage s record msg d Hf Hm Ht ltac:(lia)) as (pct & -> & _ & _ & _ & H100).
  exists pct. split; [done|]. split; [done|]. by apply H100.
Qed.

(** One completion message while a part is still missing. *)
Lemma emit_completion_step s i :
  0 <= i -> 0 <= progress s < total_parts s ->
  exists pct,
    QueueHandler.emit s (log_debug (completion i)) =
      ({| progress := progress s + 1; total_parts := total_parts s;
          progress_percentage := PFloat pct |},
       [update_pb_emit (PFloat pct); processEvents]) /\
    PyFloat.is_finite pct = true /\
    (0 <= PyFloat.SF2Q pct <= 100)%Q /\
    (Qabs (PyFloat.SF2Q pct - 100 * inject_Z (progress s + 1) / inject_Z (total_parts s))
     <= 2 ^ (-45))%Q /\
    (progress s + 1 = total_parts s -> (PyFloat.SF2Q pct == 100)%Q).
Proof.
  intros Hi Hp. destruct (re_search_completion i Hi) as [Hm Hn].
  assert (Ha : announced_total s (completion i) = total_parts s).
  { unfold announced_total. by rewrite Hn. }
  assert (He : announce_events (completion i) = []).
  { unfold announce_events. by rewrite Hn. }
  destruct (emit_percentage s (log_debug (completion i)) (completion i) (str_int i)
              eq_refl Hm ltac:(lia) ltac:(lia)) as (pct & Hemit & Hrest).
  rewrite Ha, He in Hemit. rewrite Ha in Hrest. by exists pct.
Qed.

Lemma updates_app a b : updates (a ++ b) = updates a ++ updates b.
Proof. apply omap_app. Qed.

(** The completions of the parts [is], one message each, while parts are
    missing. *)
Lemma emit_all_completions (idx : list Z) : forall s,
  Forall (fun i => 0 <= i) idx ->
  0 <= progress s ->
  progress s + Z.of_nat (length idx) <= total_parts s ->
  let s' := fst (QueueHandler.emit_all s (map (fun i => log_debug (completion i)) idx)) in
  let ev := snd (QueueHandler.emit_all s (map (fun i => log_debug (completion i)) idx)) in
  progress s' = progress s + Z.of_nat (length idx) /\
  total_parts s' = total_parts s /\
  exists pcts,
    updates ev = map PFloat pcts /\
    ev = concat (map (fun pct => [update_pb_emit (PFloat pct); processEvents]) pcts) /\
    length pcts = length idx /\
    progress_percentage s' = from_option PFloat (progress_percentage s) (last pcts) /\
    (forall j pct, pcts !! j = Some pct ->
       PyFloat.is_finite pct = true /\
       (0 <= PyFloat.SF2Q pct <= 100)%Q /\
       (Qabs (PyFloat.SF2Q pct
              - 100 * inject_Z (progress s + Z.of_nat j + 1) / inject_Z (total_parts s))
        <= 2 ^ (-45))%Q /\
       (progress s + Z.of_nat j + 1 = total_parts s -> (PyFloat.SF2Q pct == 100)%Q)).
Proof.
  induction idx as [|i idx IH]; intros s Hidx Hp Hlen.
  - cbn. split; [lia|]. split; [done|]. exists []. by repeat split.
  - apply Forall_cons in Hidx as [Hi Hidx]. cbn [length] in Hlen.
    cbn [map QueueHandler.emit_all].
    destruct (emit_completion_step s i Hi ltac:(lia)) as (pct & -> & Hfin & Hr & Hb & H100).
    specialize (IH {| progress := progress s + 1; total_parts := total_parts s;
                      progress_percentage := PFloat pct |}
                   Hidx ltac:(cbn; lia) ltac:(cbn; lia)).
    cbn [progress total_parts progress_percentage] in IH.
    destruct (QueueHandler.emit_all _ _) as [s2 ev2]. cbn [fst snd] in *.
    destruct IH as (Hp2 & Ht2 & pcts & Hu & Hev & Hl & Hlast & Hall).
    split; [cbn [length]; lia|]. split; [done|].
    exists (pct :: pcts). split; [by rewrite updates_app, Hu|].
    split; [by rewrite Hev|]. split; [cbn; lia|]. split.
    + rewrite Hlast. destruct pcts as [|p ps]; [done|].
      change (last (pct :: p :: ps)) with (last (p :: ps)).
      destruct (last (p :: ps)) eqn:El; [done|]. by apply last_None in El.
    + intros [|j] p Hj.
      * injection Hj as <-. cbn [Z.of_nat]. rewrite Z.add_0_r.
        split; [done|]. split; [done|]. split; done.
      * cbn in Hj. destruct (Hall j p Hj) as (H1 & H2 & H3 & H4).
        replace (progress s + 1 + Z.of_nat j + 1) with (progress s + Z.of_nat (S j) + 1)
          in H3, H4 by lia.
        split; [done|]. split; [done|]. split; done.
Qed.

(** X6. From a state with [progress = 0], the announcement of [N >= 1]
    parts followed by the completions of the parts 0 to [N - 1] leaves
    [progress = total_parts = N] and emits, after the flush of the
    announcement, exactly [N] progress updates, each followed by a flush,
    and no error: the update after part [j] is a finite double between 0
    and 100, within [2 ^ -45] of [100 (j + 1) / N], and the last one, which
    is also the stored percentage, is exactly 100. *)
Theorem announced_parts_reach_100 s N :
  progress s = 0 -> 1 <= N < 10 ^ 4300 ->
  let records := log_debug (announcement N)
                   :: map (fun i => log_debug (completion i)) (seqZ 0 N) in
  let s' := fst (QueueHandler.emit_all s records) in
  let ev := snd (QueueHandler.emit_all s records) in
  progress s' = N /\ total_parts s' = N /\
  exists pcts,
    ev = processEvents
           :: concat (map (fun pct => [update_pb_emit (PFloat pct); processEvents]) pcts) /\
    updates ev = map PFloat pcts /\
    length pcts = Z.to_nat N /\
    (forall j pct, pcts !! j = Some pct ->
       PyFloat.is_finite pct = true /\
       (0 <= PyFloat.SF2Q pct <= 100)%Q /\
       (Qabs (PyFloat.SF2Q pct - 100 * inject_Z (Z.of_nat j + 1) / inject_Z N)
        <= 2 ^ (-45))%Q) /\
    exists pct, last pcts = Some pct /\ progress_percentage s' = PFloat pct /\
                (PyFloat.SF2Q pct == 100)%Q.
Proof.
  intros Hp [HN HN'] records s' ev. subst records s' ev.
  cbn [QueueHandler.emit_all]. rewrite emit_announcement by lia.
  set (s1 := set_total_parts N s).
  pose proof (emit_all_completions (seqZ 0 N) s1) as H.
  assert (Hlen : length (seqZ 0 N) = Z.to_nat N) by apply length_seqZ.
  specialize (H ltac:(apply Forall_seqZ; intros; lia) ltac:(cbn; lia)
                ltac:(cbn; rewrite Hlen; lia)).
  cbn zeta in H. destruct (QueueHandler.emit_all s1 _) as [s2 ev2]. cbn [fst snd] in *.
  destruct H as (Hp2 & Ht2 & pcts & Hu & Hev & Hl & Hlast & Hall).
  cbn [progress total_parts set_total_parts s1] in *. rewrite Hp in *.
  split; [rewrite Hlen in Hp2; lia|]. split; [done|].
  exists pcts. split; [by rewrite Hev|]. split; [done|]. split; [lia|]. split.
  - intros j pct Hj. destruct (Hall j pct Hj) as (H1 & H2 & H3 & _).
    by rewrite Z.add_0_l in H3.
  - destruct (last pcts) as [pct|] eqn:El.
    + exists pct. split; [done|]. split; [done|].
      apply last_Some in El as [pre ->].
      assert (Hj : (pre ++ [pct]) !! length pre = Some pct) by (by apply list_lookup_middle).
      destruct (Hall _ _ Hj) as (_ & _ & _ & H100). apply H100.
      rewrite length_app in Hl. cbn in Hl. lia.
    + apply last_None in El. subst pcts. cbn in Hl. lia.
Qed.

(** * Further properties of the conversion orchestrator *)

(** ** The temporary directory *)

Lemma no_slash_after_temp (a pre : string) : a +:+ "temp" <> pre +:+ "/".
Proof.
  revert pre. induction a as [|c a IH]; intros pre.
  - rewrite str_app_nil. destruct pre as [|c0 [|c1 [|c2 [|c3 [|c4 r]]]]]; discriminate.
  - destruct pre as [|c' pre].
    + rewrite str_app_nil, str_app_cons. intros [= _ H]. by destruct a.
    + rewrite !str_app_cons. intros [= _ H]. by apply (IH pre).
Qed.

Lemma path_join_temp (a : string) : exists pre, path_join a "temp" = pre +:+ "temp".
Proof.
  unfold path_join. cbn [startswith]. change (Ascii.eqb "/" "t") with false. cbn iota.
  destruct (_ || _); [by exists a|]. exists (a +:+ "/"). by rewrite str_app_assoc.
Qed.

(** The file handed to the chunker lies in the temporary directory. *)
Lemma temp_file_in_temp_dir {Ext} (w : World Ext) :
  temp_file w = temp_dir w +:+ "/tts-tempfile.txt".
Proof.
  unfold temp_file, temp_dir. destruct (path_join_temp (currentPath w)) as [pre ->].
  unfold path_join. cbn [startswith]. change (Ascii.eqb "/" "t") with false. cbn iota.
  destruct (String.eqb_spec (pre +:+ "temp") "") as [H|_].
  { exfalso. destruct pre; discriminate H. }
  destruct (endswith (pre +:+ "temp") "/") eqn:E; [|done].
  apply endswith_suffix in E as (p & s & H & ->). by apply no_slash_after_temp in H.
Qed.

Section MoreRunProps.

Context {Ext : Type}.
Variable clean_text : string -> Ext -> Exc string * Ext.
Variable tts_word_count : string -> string -> bool -> Ext -> Exc (list (string * string)) * Ext.
Variable construct_filename : string -> string -> string.
Variable gTTS : string -> string -> string -> Ext -> list LogRecord * Exc unit * Ext.
Variable save : gTTS_object -> string -> Ext -> list LogRecord * Exc unit * Ext.

Local Abbreviation run := (convert clean_text tts_word_count construct_filename gTTS save).
Local Abbreviation run_try :=
  (convert_try clean_text tts_word_count construct_filename gTTS save).
Local Abbreviation run_raised :=
  (raised clean_text tts_word_count construct_filename gTTS save).

Ltac world_simpl :=
  cbn [split_txt_checkbox currentPath files dirs handlers ext trace
       record_events set_ext set_files set_dirs set_handlers fst snd] in *.

Ltac run_unfold :=
  unfold bind, signal, modify, gets, ret, raise, lift_exc; world_simpl.

(** [get_temp_dir], case by case. *)
Lemma get_temp_dir_eq (w : World Ext) :
  get_temp_dir w =
    if decide (temp_dir w ∈ dirs w) then (Ok (temp_dir w), w)
    else match files w !! temp_dir w with
         | Some _ => (Raise (FileExistsError (temp_dir w)),
                      record_events [call_mkdir (temp_dir w)] w)
         | None => (Ok (temp_dir w),
                    set_dirs (fun ds => {[temp_dir w]} ∪ ds)
                             (record_events [call_mkdir (temp_dir w)] w))
         end.
Proof.
  unfold get_temp_dir, os_mkdir, temp_dir. run_unfold.
  destruct (decide (path_join (currentPath w) "temp" ∈ dirs w)) as [|Hn]; [done|].
  rewrite (decide_False _ _ Hn).
  by destruct (files w !! path_join (currentPath w) "temp").
Qed.

(** X7. When [get_temp_dir] returns, it returns
    [os.path.join(QDir.currentPath(), "temp")], that directory exists, no
    file was touched, [os.mkdir] was called only if the directory was
    missing, and a second call returns the same path without changing
    anything. *)
Theorem get_temp_dir_idempotent (w w1 : World Ext) p :
  get_temp_dir w = (Ok p, w1) ->
  p = temp_dir w /\
  p ∈ dirs w1 /\
  files w1 = files w /\
  trace w1 = trace w ++ (if decide (p ∈ dirs w) then [] else [call_mkdir p]) /\
  get_temp_dir w1 = (Ok p, w1).
Proof.
  rewrite get_temp_dir_eq. destruct (decide (temp_dir w ∈ dirs w)) as [Hin|Hnin].
  - intros [= <- <-]. rewrite decide_True by done. rewrite app_nil_r.
    repeat split; try done. rewrite get_temp_dir_eq. by rewrite decide_True.
  - destruct (files w !! temp_dir w); [done|]. intros [= <- <-].
    rewrite decide_False by done. world_simpl.
    repeat split; try done; [set_solver|].
    rewrite get_temp_dir_eq.
    change (temp_dir (set_dirs _ _)) with (temp_dir w). world_simpl.
    rewrite decide_True by set_solver. done.
Qed.

(** *** What keeps the directories *)

Local Abbreviation keeps_dirs m := (forall w : World Ext, dirs (snd (m w)) = dirs w).

Lemma keeps_dirs_bind {A B} (m : M Ext A) (k : A -> M Ext B) :
  keeps_dirs m -> (forall a, keeps_dirs (k a)) -> keeps_dirs (bind m k).
Proof.
  intros Hm Hk w. unfold bind. specialize (Hm w).
  destruct (m w) as [[a|e] w1]; cbn [snd] in *; [by rewrite Hk|done].
Qed.

Lemma keeps_dirs_log r : keeps_dirs (log r).
Proof. intros w. unfold log. by destruct (callHandlers (handlers w) r). Qed.

Lemma keeps_dirs_log_all rs : keeps_dirs (log_all rs).
Proof.
  induction rs as [|r rs IH]; [done|]. cbn [log_all].
  apply keeps_dirs_bind; [apply keeps_dirs_log|done].
Qed.

Ltac keeps :=
  repeat (apply keeps_dirs_bind; [|intros ?]);
  try apply keeps_dirs_log_all;
  try (intros ?; repeat case_match; reflexivity).

Lemma keeps_dirs_for_body pdf k n c p :
  keeps_dirs (for_body construct_filename gTTS save pdf k n c p).
Proof. unfold for_body. keeps. Qed.

Lemma keeps_dirs_for_output_paths pdf k n paths : forall c,
  keeps_dirs (for_output_paths construct_filename gTTS save pdf k n c paths).
Proof.
  induction paths as [|p paths IH]; intros c; [done|]. cbn [for_output_paths].
  apply keeps_dirs_bind; [apply keeps_dirs_for_body|intros _; apply IH].
Qed.

Lemma keeps_dirs_do_clean_text pdf : keeps_dirs (do_clean_text clean_text pdf).
Proof. unfold do_clean_text. keeps. Qed.

Lemma keeps_dirs_do_tts_word_count text tf b :
  keeps_dirs (do_tts_word_count tts_word_count text tf b).
Proof. unfold do_tts_word_count. keeps. Qed.

Lemma keeps_dirs_do_gTTS text lang tld : keeps_dirs (do_gTTS gTTS text lang tld).
Proof. unfold do_gTTS. keeps. Qed.

Lemma keeps_dirs_do_save tts out : keeps_dirs (do_save save tts out).
Proof. unfold do_save. keeps. Qed.


(** *** The calls that prepare the loop *)

Lemma setup_calls_app a b : setup_calls (a ++ b) = setup_calls a ++ setup_calls b.
Proof. apply omap_app. Qed.

Lemma setup_calls_logs logs :
  Forall (fun e => handler_event e = true) logs -> setup_calls logs = [].
Proof. apply omap_handler_events. by intros []. Qed.

Lemma setup_calls_chunks pdf n out chunks : forall c,
  setup_calls (chunks_run_events pdf n c out chunks) = [].
Proof.
  induction chunks as [|[p t] chunks IH]; intros c; [done|].
  cbn [chunks_run_events]. rewrite setup_calls_app, IH. reflexivity.
Qed.

Lemma setup_calls_passes pdf n out c ps :
  Forall pass_logs_ok ps -> setup_calls (passes_events pdf n c out ps) = [].
Proof.
  intros H. unfold setup_calls. rewrite omap_passes by (done || by intros []).
  apply setup_calls_chunks.
Qed.

Lemma setup_calls_failed pdf n out c p fl :
  Forall (fun e => handler_event e = true) (failure_logs fl) ->
  setup_calls (failed_events pdf n c p out fl) = [].
Proof.
  intros H. unfold setup_calls. rewrite omap_failed by (done || by intros []).
  by destruct fl.
Qed.

(** The body of the [try] when splitting is enabled, after the
    extraction. *)
Lemma convert_try_split_eq pdf k (w : World Ext) text x1 :
  split_txt_checkbox w = true ->
  clean_text pdf (ext w) = (Ok text, x1) ->
  let w1 := set_ext x1 (record_events [call_clean_text pdf] w) in
  run_try pdf k w =
    match get_temp_dir w1 with
    | (Raise e, w2) => (Raise e, w2)
    | (Ok d, w2) =>
        match do_tts_word_count tts_word_count text (path_join d "tts-tempfile.txt") true w2 with
        | (Raise e, w3) => (Raise e, w3)
        | (Ok paths, w3) =>
            for_output_paths construct_filename gTTS save pdf k (length paths) 0 paths w3
        end
    end.
Proof.
  intros Hs Hc w1. subst w1. unfold convert_try, do_clean_text. run_unfold.
  rewrite Hc. world_simpl. rewrite Hs. reflexivity.
Qed.

(** What the body of the [try] does to the directories, and how it
    prepares the loop. *)
Lemma convert_try_setup pdf k (w : World Ext) :
  exists r w2 ev,
    run_try pdf k w = (r, w2) /\
    trace w2 = trace w ++ ev /\
    ((setup_calls ev = [] /\ dirs w2 = dirs w /\
      (split_txt_checkbox w = false \/ exists e x, clean_text pdf (ext w) = (Raise e, x)))
     \/
     (split_txt_checkbox w = true /\
      exists text x1,
        clean_text pdf (ext w) = (Ok text, x1) /\
        let chunker := call_tts_word_count text (temp_file w) true in
        (((temp_dir w ∈ dirs w) /\ setup_calls ev = [chunker] /\ dirs w2 = dirs w)
         \/
         ((temp_dir w ∉ dirs w) /\ files w !! temp_dir w = None /\
          setup_calls ev = [call_mkdir (temp_dir w); chunker] /\
          dirs w2 = {[temp_dir w]} ∪ dirs w)
         \/
         ((temp_dir w ∉ dirs w) /\ is_Some (files w !! temp_dir w) /\
          ev = [call_clean_text pdf; call_mkdir (temp_dir w)] /\
          dirs w2 = dirs w /\ files w2 = files w /\
          r = Raise (FileExistsError (temp_dir w)))))).
Proof.
  destruct (clean_text pdf (ext w)) as [[text|e] x1] eqn:Hc.
  2: { rewrite (convert_try_extraction_failed _ tts_word_count construct_filename gTTS save
                  pdf k w e x1 Hc).
       eexists _, _, [call_clean_text pdf]. split; [done|]. split; [done|].
       left. split; [done|]. split; [done|]. right. eauto. }
  destruct (split_txt_checkbox w) eqn:Hs.
  - (* splitting *)
    rewrite (convert_try_split_eq pdf k w text x1 Hs Hc). cbn zeta.
    set (w1 := set_ext x1 (record_events [call_clean_text pdf] w)).
    rewrite get_temp_dir_eq. change (temp_dir w1) with (temp_dir w).
    change (dirs w1) with (dirs w). change (files w1) with (files w).
    assert (Hloop : forall w2 mk,
               trace w2 = trace w ++ call_clean_text pdf :: mk ->
               setup_calls mk = mk ->
               exists r w3 ev,
                 match do_tts_word_count tts_word_count text
                         (path_join (temp_dir w) "tts-tempfile.txt") true w2 with
                 | (Raise e, w3) => (Raise e, w3)
                 | (Ok paths, w3) =>
                     for_output_paths construct_filename gTTS save pdf k (length paths) 0 paths w3
                 end = (r, w3) /\
                 trace w3 = trace w ++ ev /\
                 setup_calls ev = mk ++ [call_tts_word_count text (temp_file w) true] /\
                 dirs w3 = dirs w2).
    { intros w2 mk Htr Hmk.
      pose proof (keeps_dirs_do_tts_word_count text
                    (path_join (temp_dir w) "tts-tempfile.txt") true w2) as Hd.
      assert (Ht : exists r3 w3,
                 do_tts_word_count tts_word_count text
                   (path_join (temp_dir w) "tts-tempfile.txt") true w2 = (r3, w3) /\
                 trace w3 = trace w2 ++ [call_tts_word_count text (temp_file w) true]).
      { unfold do_tts_word_count. run_unfold.
        destruct (tts_word_count _ _ _ _) as [[chunks|e] x2]; eexists _, _; split; done. }
      destruct Ht as (r3 & w3 & Heq & Htr3). rewrite Heq in *. cbn [snd] in Hd.
      destruct r3 as [paths|e].
      - destruct (for_output_paths_spec construct_filename gTTS save pdf k (length paths)
                    paths 0 w3)
          as (r & w4 & ps & tail & Hfor & Hst & _ & Hlogs & _ & _ & Hend).
        pose proof (keeps_dirs_for_output_paths pdf k (length paths) paths 0 w3) as Hd4.
        rewrite Hfor in *. cbn [snd] in Hd4. destruct Hst as (_ & _ & _ & Htr4).
        exists r, w4,
          ((call_clean_text pdf :: mk) ++ [call_tts_word_count text (temp_file w) true]
             ++ passes_events pdf (length paths) 0 (construct_filename pdf "tts_ps") ps ++ tail).
        split; [done|]. split.
        { rewrite Htr4, Htr3, Htr. by rewrite <- !app_assoc. }
        split; [|congruence].
        rewrite !setup_calls_app.
        change (setup_calls (call_clean_text pdf :: mk)) with (setup_calls mk).
        rewrite Hmk, setup_calls_passes by done.
        destruct Hend as [(_ & _ & -> & _)|(e & f & p & _ & _ & -> & Hfl & _)];
          [|rewrite setup_calls_failed by done]; cbn; by rewrite ?app_nil_r.
      - exists (Raise e), w3,
          ((call_clean_text pdf :: mk) ++ [call_tts_word_count text (temp_file w) true]).
        split; [done|]. split.
        { rewrite Htr3, Htr. by rewrite <- !app_assoc. }
        split; [|done].
        rewrite !setup_calls_app.
        change (setup_calls (call_clean_text pdf :: mk)) with (setup_calls mk).
        by rewrite Hmk. }
    destruct (decide (temp_dir w ∈ dirs w)) as [Hin|Hnin].
    + destruct (Hloop w1 [] eq_refl eq_refl) as (r & w3 & ev & Heq & Htr & Hsc & Hd).
      exists r, w3, ev. split; [done|]. split; [done|].
      right. split; [done|]. exists text, x1. split; [done|]. left. by repeat split.
    + destruct (files w !! temp_dir w) as [f|] eqn:Hf.
      * exists (Raise (FileExistsError (temp_dir w))),
          (record_events [call_mkdir (temp_dir w)] w1),
          [call_clean_text pdf; call_mkdir (temp_dir w)].
        split; [done|]. split; [subst w1; world_simpl; by rewrite <- app_assoc|].
        right. split; [done|]. exists text, x1. split; [done|]. right. right.
        by repeat split.
      * set (w2 := set_dirs _ _).
        destruct (Hloop w2 [call_mkdir (temp_dir w)]) as (r & w3 & ev & Heq & Htr & Hsc & Hd).
        { subst w2 w1. world_simpl. by rewrite <- app_assoc. }
        { done. }
        exists r, w3, ev. split; [done|]. split; [done|].
        right. split; [done|]. exists text, x1. split; [done|]. right. left.
        by repeat split.
  - (* no splitting *)
    destruct (convert_try_single clean_text tts_word_count construct_filename gTTS save
                pdf k w text x1 Hs Hc) as (r & w2 & l1 & Heq & Hl1 & Hcases).
    assert (Hd : dirs w2 = dirs w).
    { replace w2 with (snd (run_try pdf k w)) by (by rewrite Heq).
      unfold convert_try. unfold bind at 1.
      pose proof (keeps_dirs_do_clean_text pdf w) as Hd1.
      unfold do_clean_text in *. revert Hd1. run_unfold. rewrite Hc. world_simpl.
      rewrite Hs. intros _.
      pose proof (keeps_dirs_do_gTTS text "en" "us"
                    (set_ext x1 (record_events [call_clean_text pdf] w))) as H1.
      destruct (do_gTTS _ _ _ _ _) as [[tts|e] wa]; world_simpl; [|done].
      unfold do_construct_filename. run_unfold.
      pose proof (keeps_dirs_do_save tts (construct_filename pdf "tts_ps")
                    (record_events [call_construct_filename pdf "tts_ps"] wa)) as H2.
      destruct (do_save _ _ _ _) as [[|e] wb]; world_simpl; congruence. }
    assert (Hev : exists ev, trace w2 = trace w ++ ev /\ setup_calls ev = []).
    { destruct Hcases as [(e & _ & _ & Hst)|(l2 & Hl2 & [(e & _ & _ & Hst)|(_ & _ & Hst)])];
        destruct Hst as (_ & _ & _ & Htr); eexists; (split; [exact Htr|]);
        rewrite ?setup_calls_app, ?(setup_calls_logs l1), ?(setup_calls_logs l2) by done;
        reflexivity. }
    destruct Hev as (ev & Htr & Hsc).
    exists r, w2, ev. split; [done|]. split; [done|]. left. split; [done|]. split; [done|]. by left.
Qed.

Lemma chunker_calls_setup tr : chunker_calls (setup_calls tr) = chunker_calls tr.
Proof.
  unfold chunker_calls, setup_calls.
  induction tr as [|e tr IH]; [done|]. destruct e; cbn; by rewrite ?IH.
Qed.

Lemma mkdirs_setup tr : mkdirs (setup_calls tr) = mkdirs tr.
Proof.
  unfold mkdirs, setup_calls.
  induction tr as [|e tr IH]; [done|]. destruct e; cbn; by rewrite ?IH.
Qed.

(** A validated run: its events around the body of the [try], and how it
    prepares the loop. *)
Lemma run_setup pdf (w : World Ext) :
  valid_filetype pdf = true ->
  let w' := snd (run pdf w) in
  exists r ev,
    run_raised pdf w = match r with Raise e => Some e | Ok _ => None end /\
    new_events w w' = prologue_events pdf ++ ev ++ epilogue_events pdf r /\
    ((setup_calls ev = [] /\ dirs w' = dirs w /\
      (split_txt_checkbox w = false \/ exists e x, clean_text pdf (ext w) = (Raise e, x)))
     \/
     (split_txt_checkbox w = true /\
      exists text x1,
        clean_text pdf (ext w) = (Ok text, x1) /\
        let chunker := call_tts_word_count text (temp_file w) true in
        (((temp_dir w ∈ dirs w) /\ setup_calls ev = [chunker] /\ dirs w' = dirs w)
         \/
         ((temp_dir w ∉ dirs w) /\ files w !! temp_dir w = None /\
          setup_calls ev = [call_mkdir (temp_dir w); chunker] /\
          dirs w' = {[temp_dir w]} ∪ dirs w)
         \/
         ((temp_dir w ∉ dirs w) /\ is_Some (files w !! temp_dir w) /\
          ev = [call_clean_text pdf; call_mkdir (temp_dir w)] /\
          dirs w' = dirs w /\ files w' = files w /\
          r = Raise (FileExistsError (temp_dir w)))))).
Proof.
  intros Hv w'. subst w'.
  destruct (valid_run_spec clean_text tts_word_count construct_filename gTTS save pdf w Hv)
    as (r & w2 & ev & Htry & Hstep & Hnew & Hfs & Hhs & Hr).
  destruct (after_prologue_spec pdf w) as (_ & _ & Hh1 & Hf1 & Hd1 & Hext & Hsp & Hcp).
  assert (Hd : dirs (snd (run pdf w)) = dirs w2).
  { destruct (convert_spec clean_text tts_word_count construct_filename gTTS save pdf w Hv)
      as [-> _]. rewrite Htry. by destruct r. }
  destruct (convert_try_setup pdf (length (handlers w)) (after_prologue pdf w))
    as (r' & w2' & ev' & Heq & Htr & Hcase).
  rewrite Htry in Heq. injection Heq as <- <-.
  destruct Hstep as (_ & _ & _ & Htr'). rewrite Htr' in Htr. apply app_inv_head in Htr as <-.
  assert (Htd : temp_dir (after_prologue pdf w) = temp_dir w) by (unfold temp_dir; by rewrite Hcp).
  assert (Htf : temp_file (after_prologue pdf w) = temp_file w) by (unfold temp_file; by rewrite Htd).
  rewrite Htd, Htf, Hd1, Hf1, Hext, Hsp, <- Hd, <- Hfs in Hcase.
  exists r, ev. split; [done|]. split; [done|]. exact Hcase.
Qed.

Lemma setup_calls_prologue pdf : setup_calls (prologue_events pdf) = [].
Proof. reflexivity. Qed.

Lemma setup_calls_epilogue pdf r : setup_calls (epilogue_events pdf r) = [].
Proof. by destruct r. Qed.


(** X9. A run calls the chunker at most once, and only with splitting
    enabled and after a successful extraction: on the extracted text, the
    file "tts-tempfile.txt" inside the temporary directory and the flag
    [True]; the temporary directory exists when the run ends. *)
Theorem chunker_called_once_in_temp_dir pdf (w : World Ext) :
  let w' := snd (run pdf w) in
  chunker_calls (new_events w w') = [] \/
  (split_txt_checkbox w = true /\
   exists text x1,
     clean_text pdf (ext w) = (Ok text, x1) /\
     chunker_calls (new_events w w')
     = [(text, temp_dir w +:+ "/tts-tempfile.txt", true)] /\
     temp_dir w ∈ dirs w').
Proof.
  intros w'. subst w'. destruct (valid_filetype pdf) eqn:Hv.
  2: { left.
       rewrite (convert_rejected clean_text tts_word_count construct_filename gTTS save pdf w Hv).
       cbn [snd]. by rewrite (new_events_app w _ [op_msgs_emit rejection]). }
  destruct (run_setup pdf w Hv) as (r & ev & Hr & Hnew & Hcase). cbn zeta in *.
  assert (Hcc : chunker_calls (new_events w (snd (run pdf w))) = chunker_calls (setup_calls ev)).
  { rewrite Hnew, <- (chunker_calls_setup (_ ++ _)), !setup_calls_app.
    by rewrite setup_calls_prologue, setup_calls_epilogue, app_nil_r. }
  rewrite Hcc.
  destruct Hcase as [(-> & _)|(Hs & text & x1 & Hc & Hcase)]; [by left|].
  rewrite temp_file_in_temp_dir in Hcase.
  destruct Hcase as [(Hin & -> & Hd)|[(_ & _ & -> & Hd)|(_ & _ & -> & _)]].
  - right. split; [done|]. exists text, x1. split; [done|]. split; [done|]. by rewrite Hd.
  - right. split; [done|]. exists text, x1. split; [done|]. split; [done|].
    rewrite Hd. by apply elem_of_union_l, elem_of_singleton.
  - by left.
Qed.

(** X10. A run never removes a directory and creates at most one:
    [os.mkdir] is called at most once, with splitting enabled, for the
    temporary directory and only when [os.path.isdir] says that it is
    missing; the directories after the run are those before it, plus the
    temporary directory when the call succeeded. *)
Theorem run_creates_only_temp_dir pdf (w : World Ext) :
  let w' := snd (run pdf w) in
  (mkdirs (new_events w w') = [] /\ dirs w' = dirs w) \/
  (mkdirs (new_events w w') = [temp_dir w] /\
   split_txt_checkbox w = true /\
   (temp_dir w ∉ dirs w) /\
   ((files w !! temp_dir w = None /\ dirs w' = {[temp_dir w]} ∪ dirs w) \/
    (is_Some (files w !! temp_dir w) /\ dirs w' = dirs w))).
Proof.
  intros w'. subst w'. destruct (valid_filetype pdf) eqn:Hv.
  2: { left.
       rewrite (convert_rejected clean_text tts_word_count construct_filename gTTS save pdf w Hv).
       cbn [snd]. by rewrite (new_events_app w _ [op_msgs_emit rejection]). }
  destruct (run_setup pdf w Hv) as (r & ev & Hr & Hnew & Hcase). cbn zeta in *.
  assert (Hcc : mkdirs (new_events w (snd (run pdf w))) = mkdirs (setup_calls ev)).
  { rewrite Hnew, <- (mkdirs_setup (_ ++ _)), !setup_calls_app.
    by rewrite setup_calls_prologue, setup_calls_epilogue, app_nil_r. }
  rewrite Hcc.
  destruct Hcase as [(-> & Hd & _)|(Hs & text & x1 & Hc & Hcase)]; [by left|].
  destruct Hcase as [(Hin & -> & Hd)|[(Hnin & Hnone & -> & Hd)|(Hnin & Hsome & -> & Hd & _)]].
  - by left.
  - right. split; [done|]. split; [done|]. split; [done|]. by left.
  - right. split; [done|]. split; [done|]. split; [done|]. by right.
Qed.

(** *** The handlers of the logger through a run *)

Lemma callHandlers_states hs r :
  fst (callHandlers hs r) = map (fun h => fst (QueueHandler.emit h r)) hs.
Proof.
  induction hs as [|h hs IH]; [done|]. cbn [callHandlers map].
  destruct (QueueHandler.emit h r) as [h' ev]. destruct (callHandlers hs r) as [hs' ev'].
  cbn [fst] in *. by rewrite IH.
Qed.

Lemma log_all_handlers rs : forall w : World Ext,
  handlers (snd (log_all rs w))
  = map (fun h => fst (QueueHandler.emit_all h rs)) (handlers w).
Proof.
  induction rs as [|r rs IH]; intros w.
  - cbn. symmetry. apply (map_id (handlers w)).
  - cbn [log_all]. unfold bind, log.
    pose proof (callHandlers_states (handlers w) r) as Hs.
    destruct (callHandlers (handlers w) r) as [hs ev]. cbn [fst] in Hs.
    rewrite IH. world_simpl. rewrite Hs, map_map. apply map_ext. intros h.
    cbn [QueueHandler.emit_all]. destruct (QueueHandler.emit h r) as [h1 ev1].
    cbn [fst]. by destruct (QueueHandler.emit_all h1 rs).
Qed.

Lemma do_gTTS_handlers text lang tld (w : World Ext) l r x :
  gTTS text lang tld (ext w) = (l, r, x) ->
  fst (do_gTTS gTTS text lang tld w)
  = match r with Ok _ => Ok (mkgTTS text lang tld) | Raise e => Raise e end /\
  handlers (snd (do_gTTS gTTS text lang tld w))
  = map (fun h => fst (QueueHandler.emit_all h l)) (handlers w) /\
  ext (snd (do_gTTS gTTS text lang tld w)) = x.
Proof.
  intros H. unfold do_gTTS. run_unfold. rewrite H. world_simpl.
  set (w0 := set_ext x (record_events [call_gTTS text lang tld] w)).
  pose proof (log_all_handlers l w0) as Hh.
  destruct (log_all_spec l w0) as (w1 & ev & Heq & _ & _ & Hx & _).
  rewrite Heq in *. cbn [snd] in Hh. by destruct r.
Qed.

Lemma do_save_handlers tts out (w : World Ext) l r x :
  save tts out (ext w) = (l, r, x) ->
  fst (do_save save tts out w) = r /\
  handlers (snd (do_save save tts out w))
  = map (fun h => fst (QueueHandler.emit_all h l)) (handlers w) /\
  ext (snd (do_save save tts out w)) = x.
Proof.
  intros H. unfold do_save. run_unfold. rewrite H. world_simpl.
  set (w0 := set_ext x (record_events [call_save (tts_text tts) out] w)).
  pose proof (log_all_handlers l w0) as Hh.
  destruct (log_all_spec l w0) as (w1 & ev & Heq & _ & _ & Hx & _).
  rewrite Heq in *. cbn [snd] in Hh. by destruct r as [[]|].
Qed.

(** X14. Every validated run adds one handler to the logger ['gtts.tts']
    and removes none, whether the conversion succeeds or not; a rejected
    run adds none. *)
Theorem every_validated_run_adds_a_handler pdf (w : World Ext) :
  length (handlers (snd (run pdf w)))
  = (length (handlers w) + if valid_filetype pdf then 1 else 0)%nat.
Proof.
  destruct (valid_filetype pdf) eqn:Hv.
  - destruct (valid_run_spec clean_text tts_word_count construct_filename gTTS save pdf w Hv)
      as (r & w2 & ev & _ & (_ & _ & Hlen & _) & _ & _ & -> & _).
    destruct (after_prologue_spec pdf w) as (_ & _ & Hh1 & _).
    rewrite Hlen, Hh1, length_app. reflexivity.
  - rewrite (convert_rejected clean_text tts_word_count construct_filename gTTS save pdf w Hv).
    cbn. lia.
Qed.

(** X15. A run without splitting resets nothing: at its end every handler
    of the logger, the run's own and those that earlier runs left there,
    has processed every record that [gTTS(...)] and [tts.save(...)]
    logged, and keeps the counters that result. *)
Theorem single_run_leaves_handlers_unreset pdf (w : World Ext) text x1 l1 r1 x2 l2 r2 x3 :
  ends_in_pdf_or_txt pdf ->
  split_txt_checkbox w = false ->
  clean_text pdf (ext w) = (Ok text, x1) ->
  gTTS text "en" "us" x1 = (l1, r1, x2) ->
  save (mkgTTS text "en" "us") (construct_filename pdf "tts_ps") x2 = (l2, r2, x3) ->
  let logs := l1 ++ match r1 with Ok _ => l2 | Raise _ => [] end in
  handlers (snd (run pdf w))
  = map (fun h => fst (QueueHandler.emit_all h logs)) (handlers w ++ [SharedState_init]).
Proof.
  intros Hv%valid_filetype_ends Hs Hc Hg Hsv logs.
  destruct (valid_run_spec clean_text tts_word_count construct_filename gTTS save pdf w Hv)
    as (r & w2 & ev & Htry & _ & _ & _ & -> & _).
  destruct (after_prologue_spec pdf w) as (_ & _ & Hh1 & _ & _ & Hext & Hsp & _).
  rewrite <- Hh1. set (wp := after_prologue pdf w) in *.
  replace w2 with (snd (run_try pdf (length (handlers w)) wp)) by (by rewrite Htry).
  unfold convert_try, do_clean_text. run_unfold. rewrite Hext, Hc. world_simpl.
  rewrite Hsp, Hs.
  set (w1 := set_ext x1 (record_events [call_clean_text pdf] wp)).
  destruct (do_gTTS_handlers text "en" "us" w1 l1 r1 x2 Hg) as (Hr1 & Hh & Hx).
  destruct (do_gTTS gTTS text "en" "us" w1) as [r1' wa]. cbn [fst snd] in *.
  change (handlers w1) with (handlers wp) in Hh. subst r1' logs.
  destruct r1 as [[]|e1]; [|by rewrite app_nil_r].
  unfold do_construct_filename. run_unfold.
  set (wb := record_events [call_construct_filename pdf "tts_ps"] wa).
  destruct (do_save_handlers (mkgTTS text "en" "us") (construct_filename pdf "tts_ps") wb
              l2 r2 x3) as (Hr2 & Hh2 & _).
  { subst wb. world_simpl. by rewrite Hx. }
  change (handlers wb) with (handlers wa) in Hh2.
  destruct (do_save save _ _ wb) as [r2' wc]. cbn [fst snd] in *. subst r2'.
  assert (Hfin : handlers wc
                 = map (fun h => fst (QueueHandler.emit_all h (l1 ++ l2))) (handlers wp)).
  { rewrite Hh2, Hh, map_map. apply map_ext. intros h. by rewrite emit_all_app. }
  by destruct r2 as [[]|e2].
Qed.

(** X11. With splitting disabled, a validated run calls, in this order
    and at most once each, [clean_text], [gTTS], [construct_filename] and
    [tts.save], and nothing else: no temporary directory, no chunker, no
    [open], no [os.remove]; it emits exactly two messages, "Converting
    <pdf>" and then the completion message when nothing raised, the error
    message otherwise. *)
Theorem single_run_calls_only_the_synthesis pdf (w : World Ext) :
  ends_in_pdf_or_txt pdf ->
  split_txt_checkbox w = false ->
  let w' := snd (run pdf w) in
  let out := construct_filename pdf "tts_ps" in
  dirs w' = dirs w /\
  (exists text,
      calls (new_events w w') `prefix_of`
        [call_clean_text pdf; call_gTTS text "en" "us";
         call_construct_filename pdf "tts_ps"; call_save text out]) /\
  exists m,
    messages (new_events w w') = ["Converting " +:+ pdf; m] /\
    match run_raised pdf w with
    | None => m = "Conversion complete. Output: " +:+ out
    | Some e => m = error_msg pdf e
    end.
Proof.
  intros Hv%valid_filetype_ends Hs w' out. subst w'.
  destruct (run_setup pdf w Hv) as (r0 & ev0 & _ & _ & Hcase). cbn zeta in Hcase.
  destruct Hcase as [(_ & Hd & _)|(Hs' & _)]; [|congruence].
  split; [done|]. clear r0 ev0 Hd.
  destruct (valid_run_spec clean_text tts_word_count construct_filename gTTS save pdf w Hv)
    as (r & w2 & ev & Htry & Hstep & Hnew & _ & _ & Hr).
  destruct (after_prologue_spec pdf w) as (_ & _ & _ & _ & _ & Hext & Hsp & _).
  rewrite Hnew, Hr.
  destruct (clean_text pdf (ext w)) as [[text|e] x1] eqn:Hc.
  - destruct (convert_try_single clean_text tts_word_count construct_filename gTTS save
                pdf (length (handlers w)) (after_prologue pdf w) text x1)
      as (r' & w2' & l1 & Heq & Hl1 & Hcases); [by rewrite Hsp|by rewrite Hext|].
    rewrite Htry in Heq. injection Heq as <- <-. fold out in Hcases.
    destruct Hcases as [(e & -> & _ & Hst)|(l2 & Hl2 & [(e & -> & _ & Hst)|(-> & _ & Hst)])];
      rewrite (stepped_inj _ _ _ _ Hstep Hst); cbn [epilogue_events prologue_events];
      (split; [exists text; proj; calls_simpl; cbn [app]; eexists; reflexivity|]);
      eexists; (split; [proj; reflexivity|reflexivity]).
  - rewrite <- Hext in Hc.
    rewrite (convert_try_extraction_failed clean_text tts_word_count construct_filename gTTS
               save pdf _ _ e x1 Hc) in Htry.
    injection Htry as <- <-.
    destruct Hstep as (_ & _ & _ & Htr). world_simpl. apply app_inv_head in Htr as <-.
    split; [exists ""; cbn [epilogue_events prologue_events app]; calls_simpl;
            eexists; reflexivity|].
    eexists. split; reflexivity.
Qed.

(** X12. In a run with splitting, whether it fails or not, the chunk
    files are handled strictly in the chunker's order and one at a time:
    the files removed are the first [n] paths, the files opened are the
    same [n] paths or these and the next one, and [tts.save] was called
    [n] times, or [n + 1] times when the chunk [n + 1] had been opened. *)
Theorem chunks_are_processed_in_order pdf (w : World Ext) text x1 chunks x2 :
  ends_in_pdf_or_txt pdf ->
  split_txt_checkbox w = true ->
  clean_text pdf (ext w) = (Ok text, x1) ->
  tts_word_count text (temp_file w) true x1 = (Ok chunks, x2) ->
  let w' := snd (run pdf w) in
  let paths := map fst chunks in
  exists n,
    (n <= length chunks)%nat /\
    removes (new_events w w') = take n paths /\
    (opens (new_events w w') = take n paths \/
     ((n < length chunks)%nat /\ opens (new_events w w') = take (S n) paths)) /\
    (length (saves (new_events w w')) = n \/
     (length (saves (new_events w w')) = S n /\ opens (new_events w w') = take (S n) paths)).
Proof.
  intros Hv%valid_filetype_ends Hsplit Hclean Hchunks w' paths. subst paths.
  destruct (split_run_spec clean_text tts_word_count construct_filename gTTS save
              pdf w text x1 chunks x2 Hv Hsplit Hclean Hchunks) as (r & Hr & Hcase).
  fold w' in Hcase.
  set (mk := if decide (temp_dir w ∈ dirs w) then [] else [call_mkdir (temp_dir w)]) in *.
  assert (Hmk : opens mk = [] /\ removes mk = [] /\ saves mk = []).
  { subst mk. by case_decide. }
  destruct Hmk as (Hmk1 & Hmk2 & Hmk3).
  destruct Hcase as [[-> Hnew]|(ps & tail & Hnew & Hps & Hlogs & Hread & Hfs & Hcase)].
  { exists O. rewrite Hnew. cbn [epilogue_events].
    change (call_clean_text pdf :: mk) with ([call_clean_text pdf] ++ mk).
    split; [lia|]. proj. rewrite Hmk1, Hmk2, Hmk3. split; [done|]. split; by left. }
  set (out := construct_filename pdf "tts_ps") in *.
  assert (Hn : (length ps <= length chunks)%nat).
  { apply (f_equal length) in Hps. rewrite length_map, length_take in Hps.
    rewrite length_map in Hps. lia. }
  exists (length ps). split; [done|].
  assert (Hev : forall {A} (f : list Event -> list A),
             (forall a b, f (a ++ b) = f a ++ f b) ->
             f (prologue_events pdf) = [] -> f [call_clean_text pdf] = [] -> f mk = [] ->
             f [call_tts_word_count text (temp_file w) true] = [] ->
             f (epilogue_events pdf r) = [] ->
             f (new_events w w') = f (passes_events pdf (length chunks) 0 out ps) ++ f tail).
  { intros A f Happ H1 H2 H3 H4 H5. rewrite Hnew.
    change (call_clean_text pdf :: mk ++ ?l) with ([call_clean_text pdf] ++ mk ++ l).
    rewrite !Happ, H1, H2, H3, H4, H5. by rewrite app_nil_r. }
  rewrite (Hev _ removes removes_app), (Hev _ opens opens_app), (Hev _ saves saves_app);
    try done; try (by destruct r).
  rewrite (removes_passes _ _ _ _ _ Hlogs), (opens_passes _ _ _ _ _ Hlogs),
    (saves_passes _ _ _ _ _ Hlogs), Hps.
  destruct Hcase as [(_ & _ & -> & _)|(f & p & Hp & _ & -> & Hl)].
  - cbn. rewrite !app_nil_r, length_map. split; [done|]. split; by left.
  - rewrite (removes_failed _ _ _ _ _ _ Hl), (opens_failed _ _ _ _ _ _ Hl), app_nil_r.
    split; [done|].
    assert (Hlt : (length ps < length chunks)%nat).
    { apply lookup_lt_Some in Hp. by rewrite length_map in Hp. }
    assert (Htake : take (length ps) (map fst chunks) ++ [p]
                    = take (S (length ps)) (map fst chunks)).
    { symmetry. by apply take_S_r. }
    rewrite Htake. split; [by right|].
    rewrite length_app, length_map.
    destruct f as [|t l1|t l1 l2]; cbn [failure_logs] in Hl; unfold failed_events.
    + left. cbn. lia.
    + left. proj. cbn. lia.
    + right. apply Forall_app in Hl as [Hl1 Hl2]. proj. cbn. split; [lia|done].
Qed.

Lemma files_after_absent out ps : forall (fs : gmap string File) p,
  p <> out ->
  p ∈ map pass_path ps \/ fs !! p = None ->
  files_after out ps fs !! p = None.
Proof.
  unfold files_after.
  induction ps as [|a ps IH]; intros fs p Hne H; cbn [fold_left map].
  - destruct H as [H|H]; [by apply elem_of_nil in H|done].
  - apply IH; [done|]. destruct (decide (p = pass_path a)) as [->|Hpa].
    + right. by rewrite lookup_delete_eq.
    + destruct H as [H|H].
      * left. cbn [map] in H. apply elem_of_cons in H as [?|?]; done.
      * right. by rewrite lookup_delete_ne, lookup_insert_ne.
Qed.

(** X13. After a run with splitting in which nothing raised, none of the
    chunk files is left: every path that the chunker returned (the output
    path apart, if it is among them) is absent at the end of the run. *)
Theorem successful_split_run_leaves_no_chunk_file pdf (w : World Ext) text x1 chunks x2 :
  ends_in_pdf_or_txt pdf ->
  split_txt_checkbox w = true ->
  clean_text pdf (ext w) = (Ok text, x1) ->
  tts_word_count text (temp_file w) true x1 = (Ok chunks, x2) ->
  run_raised pdf w = None ->
  let w' := snd (run pdf w) in
  forall p, p ∈ map fst chunks -> p <> construct_filename pdf "tts_ps" ->
            files w' !! p = None.
Proof.
  intros Hv%valid_filetype_ends Hsplit Hclean Hchunks Hnone w' p Hp Hne.
  destruct (split_run_spec clean_text tts_word_count construct_filename gTTS save
              pdf w text x1 chunks x2 Hv Hsplit Hclean Hchunks) as (r & Hr & Hcase).
  fold w' in Hcase. rewrite Hnone in Hr. destruct r as [[]|]; [|done].
  destruct Hcase as [[? _]|(ps & tail & Hnew & Hps & Hlogs & Hread & Hfs & Hcase)]; [done|].
  destruct Hcase as [(_ & Hlen & -> & Hk)|(f & q & _ & [e ?] & _)]; [|done].
  rewrite Hlen, <- (length_map fst), firstn_all in Hps.
  rewrite Hfs. apply files_after_absent; [done|]. left. by rewrite Hps.
Qed.

End MoreRunProps.

(** ** The further properties on concrete inputs *)

Lemma announcement_sets_total_witness :
  QueueHandler.emit SharedState_init (log_debug "text_parts: 12")
  = (set_total_parts 12 SharedState_init, [processEvents]).
Proof.
  apply (announcement_sets_total SharedState_init 12). split; [lia|by vm_compute].
Defined.

Lemma total_parts_never_negative_witness :
  0 <= total_parts
         (fst (QueueHandler.emit_all SharedState_init
                 (map log_debug ["text_parts: -5"; "text_parts: 7"]))).
Proof.
  apply (total_parts_never_negative SharedState_init
           (map log_debug ["text_parts: -5"; "text_parts: 7"])).
  cbn. lia.
Defined.

Lemma progress_counts_completions_witness :
  progress
    (fst (QueueHandler.emit_all SharedState_init
            (map log_debug ["part-0 created"; "text_parts: 2"; "part-1 written to a.mp3";
                            "part-1 created"])))
  = 2.
Proof.
  apply (progress_counts_completions SharedState_init
           (map log_debug ["part-0 created"; "text_parts: 2"; "part-1 written to a.mp3";
                           "part-1 created"])).
  cbn [map]. repeat (apply Forall_cons_2; [intros msg [= <-]; cbn; lia|]). apply Forall_nil_2.
Defined.

Lemma percentage_between_0_and_100_witness :
  let s := {| progress := 2; total_parts := 3; progress_percentage := PInt 0 |} in
  let s' := fst (QueueHandler.emit s (log_debug "part-2 created")) in
  exists pct,
    progress_percentage s' = PFloat pct /\
    snd (QueueHandler.emit s (log_debug "part-2 created"))
    = announce_events "part-2 created" ++ [update_pb_emit (PFloat pct); processEvents] /\
    PyFloat.is_finite pct = true /\
    (0 <= PyFloat.SF2Q pct <= 100)%Q.
Proof.
  apply (percentage_between_0_and_100
           {| progress := 2; total_parts := 3; progress_percentage := PInt 0 |}
           (log_debug "part-2 created") "part-2 created" "2");
    [reflexivity|cbn; lia|reflexivity|by vm_compute|vm_compute; split; discriminate].
Defined.

Lemma percentage_is_100_when_complete_witness :
  let s := {| progress := 2; total_parts := 3; progress_percentage := PInt 0 |} in
  let s' := fst (QueueHandler.emit s (log_debug "part-2 created")) in
  exists pct,
    progress_percentage s' = PFloat pct /\
    snd (QueueHandler.emit s (log_debug "part-2 created"))
    = announce_events "part-2 created" ++ [update_pb_emit (PFloat pct); processEvents] /\
    (PyFloat.SF2Q pct == 100)%Q.
Proof.
  apply (percentage_is_100_when_complete
           {| progress := 2; total_parts := 3; progress_percentage := PInt 0 |}
           (log_debug "part-2 created") "part-2 created" "2");
    [reflexivity|cbn; lia|reflexivity|by vm_compute|by vm_compute].
Defined.

Lemma announced_parts_reach_100_witness :
  exists pct,
    progress_percentage
      (fst (QueueHandler.emit_all SharedState_init
              (map log_debug ["text_parts: 3"; "part-0 created"; "part-1 created";
                              "part-2 created"])))
    = PFloat pct /\
    (PyFloat.SF2Q pct == 100)%Q.
Proof.
  destruct (announced_parts_reach_100 SharedState_init 3 eq_refl)
    as (_ & _ & pcts & _ & _ & _ & _ & pct & _ & Hp & H100); [split; [lia|by vm_compute]|].
  exists pct. split; [exact Hp|exact H100].
Defined.

Lemma get_temp_dir_idempotent_witness :
  let w1 := set_dirs (fun ds => {["/app/temp"]} ∪ ds)
                     (record_events [call_mkdir "/app/temp"] (Demo.world true 1)) in
  get_temp_dir w1 = (Ok "/app/temp", w1).
Proof.
  apply (get_temp_dir_idempotent (Demo.world true 1)). by vm_compute.
Defined.


Lemma single_run_calls_only_the_synthesis_witness :
  dirs (snd (Demo.convert "a.pdf" (Demo.world false 1))) = dirs (Demo.world false 1).
Proof.
  destruct (single_run_calls_only_the_synthesis
              Demo.clean_text Demo.tts_word_count Demo.construct_filename Demo.gTTS Demo.save
              "a.pdf" (Demo.world false 1) a_pdf_ends eq_refl) as [H _].
  exact H.
Defined.

Lemma chunks_are_processed_in_order_witness :
  let w := Demo.world true 1 in
  let w' := snd (Demo.convert "a.pdf" w) in
  let paths := ["/app/temp/tts-tempfile.txt.1"; "/app/temp/tts-tempfile.txt.2"] in
  exists n,
    (n <= 2)%nat /\
    removes (new_events w w') = take n paths /\
    (opens (new_events w w') = take n paths \/
     ((n < 2)%nat /\ opens (new_events w w') = take (S n) paths)) /\
    (length (saves (new_events w w')) = n \/
     (length (saves (new_events w w')) = S n /\ opens (new_events w w') = take (S n) paths)).
Proof.
  apply (chunks_are_processed_in_order
           Demo.clean_text Demo.tts_word_count Demo.construct_filename Demo.gTTS Demo.save
           "a.pdf" (Demo.world true 1) "one two" 1%nat
           [("/app/temp/tts-tempfile.txt.1", "one"); ("/app/temp/tts-tempfile.txt.2", "two")]
           1%nat a_pdf_ends); by vm_compute.
Defined.

Lemma successful_split_run_leaves_no_chunk_file_witness :
  files (snd (Demo.convert "a.pdf" (Demo.world true 2))) !! "/app/temp/tts-tempfile.txt.1"
  = None.
Proof.
  apply (successful_split_run_leaves_no_chunk_file
           Demo.clean_text Demo.tts_word_count Demo.construct_filename Demo.gTTS Demo.save
           "a.pdf" (Demo.world true 2) "one two" 2%nat
           [("/app/temp/tts-tempfile.txt.1", "one"); ("/app/temp/tts-tempfile.txt.2", "two")]
           2%nat a_pdf_ends); try (by vm_compute).
  apply (bool_decide_unpack _). by vm_compute.
Defined.

(** A second run without splitting: the handler that the first run left
    at 1 part of 1 counts the part of the second run too, and reports 200
    percent. *)
Lemma single_run_leaves_handlers_unreset_witness :
  let first := {| progress := 1; total_parts := 1;
                  progress_percentage := PFloat (PyFloat.float 100) |} in
  let w := mkWorld false "/app" ∅ ∅ [first] 1%nat [] in
  handlers (snd (Demo.convert "a.pdf" w))
  = [ {| progress := 2; total_parts := 1;
         progress_percentage := PFloat (PyFloat.float 200) |};
      {| progress := 1; total_parts := 1;
         progress_percentage := PFloat (PyFloat.float 100) |} ].
Proof.
  intros first w.
  apply (single_run_leaves_handlers_unreset
           Demo.clean_text Demo.tts_word_count Demo.construct_filename Demo.gTTS Demo.save
           "a.pdf" w "one two" 1%nat
           [log_debug "text: one two"; log_debug "lang: en"] (Ok tt) 1%nat
           [log_debug "text_parts: 1"; log_debug "part-0 created"] (Ok tt) 0%nat
           a_pdf_ends); reflexivity.
Defined.
